(** * VoxID server core: a shallow embedding and its verified properties

    The development follows the Go sources of the streaming speech server:

    - [GoInt], [F32], [F64]: the machine numbers the code computes with
      (two's-complement wrap-around, IEEE-754 binary32 and binary64 through
      the executable specification of the Standard Library).
    - [Speaker]: package [speaker] (the voiceprint manager).
    - [Pool]: package [pool] (the Silero VAD instance pool).
    - [Config]: the options of package [config] that the streaming path reads.
    - [Session]: package [session] (the per-connection streaming pipeline).
    - [Ws]: package [ws] (the WebSocket read loop).
    - [VadFactory]: the VAD factory of package [pool].
    - [HotReload]: the callbacks of package [hotreload].
    - [Fixtures]: small concrete engines, configurations and worlds on which
      the model is run.

    External collaborators (the sherpa-onnx extractor, index, detector and
    recogniser, the clock, the file system) are interfaces or explicit inputs
    of the operations that consult them. *)

From Stdlib Require Import ZArith List Bool Lia String.
From Stdlib Require Import Floats.SpecFloat.
From stdpp Require Import gmap strings list.

Local Open Scope Z_scope.

(** ** Go integers *)

Module GoInt.

(** [int]/[int64] arithmetic wraps around modulo 2^64. *)
Definition wrap64 (z : Z) : Z := (z + 2 ^ 63) mod 2 ^ 64 - 2 ^ 63.

(** [int32] arithmetic wraps around modulo 2^32. *)
Definition wrap32 (z : Z) : Z := (z + 2 ^ 31) mod 2 ^ 32 - 2 ^ 31.

(** [int16] arithmetic wraps around modulo 2^16. *)
Definition wrap16 (z : Z) : Z := (z + 2 ^ 15) mod 2 ^ 16 - 2 ^ 15.

Definition add64 (x d : Z) : Z := wrap64 (x + d).

End GoInt.

(** ** IEEE-754 binary32 ([float32]) *)

Module F32.

Definition prec : Z := 24.
Definition emax : Z := 128.

Abbreviation t := spec_float.

Definition zero : t := S754_zero false.

Definition add (x y : t) : t := SFadd prec emax x y.
Definition mul (x y : t) : t := SFmul prec emax x y.
Definition div (x y : t) : t := SFdiv prec emax x y.

(** Go's [x == y], [x < y], [x <= y]; [x > y] is [ltb y x] and
    [x >= y] is [leb y x].  Every comparison with a NaN is false. *)
Definition eqb (x y : t) : bool := SFeqb x y.
Definition ltb (x y : t) : bool := SFltb x y.
Definition leb (x y : t) : bool := SFleb x y.

(** [float32(n)] for an integer [n]. *)
Definition of_int (n : Z) : t := binary_normalize prec emax n 0 false.

End F32.

(** ** IEEE-754 binary64 ([float64]) *)

Module F64.

Definition prec : Z := 53.
Definition emax : Z := 1024.

Abbreviation t := spec_float.

Definition mul (x y : t) : t := SFmul prec emax x y.
Definition div (x y : t) : t := SFdiv prec emax x y.
Definition sqrt (x : t) : t := SFsqrt prec emax x.

Definition ltb (x y : t) : bool := SFltb x y.
Definition leb (x y : t) : bool := SFleb x y.

(** [float64(x)] for a [float32] [x]: exact, the mantissa is re-aligned. *)
Definition of_f32 (x : F32.t) : t :=
  match x with
  | S754_finite s m e => binary_round prec emax s m e
  | _ => x
  end.

(** [float32(x)] for a [float64] [x]: rounds to nearest, ties to even. *)
Definition to_f32 (x : t) : F32.t :=
  match x with
  | S754_finite s m e => binary_round F32.prec F32.emax s m e
  | _ => x
  end.

(** [float64(n)] for an integer [n]. *)
Definition of_int (n : Z) : t := binary_normalize prec emax n 0 false.

(** [int(x)]: the fraction is discarded.  Go leaves the result
    implementation-dependent when the value does not fit (NaN, infinities,
    magnitudes beyond int64): [None]. *)
Definition to_int (x : t) : option Z :=
  match x with
  | S754_zero _ => Some 0
  | S754_finite s m e =>
      let a := match e with
               | Zneg p => Z.pos m / 2 ^ Z.pos p
               | _ => Z.pos m * 2 ^ e
               end in
      let v := if s then - a else a in
      if (- 2 ^ 63 <=? v) && (v <? 2 ^ 63) then Some v else None
  | _ => None
  end.

End F64.

(** ** Package speaker *)

Module Speaker.

Definition Time := Z.

Definition Embedding := list F32.t.

Record SpeakerData := {
  ID : string;
  Name : string;
  Embeddings : list Embedding;
  CreatedAt : Time;
  UpdatedAt : Time;
  SampleCount : Z
}.

Record SpeakerDatabase := {
  Speakers : gmap string SpeakerData;
  Version : string;
  DbUpdatedAt : Time
}.

(** The sherpa-onnx objects the manager owns: the embedding extractor (a
    function of the submitted waveform) and the in-memory embedding index
    with its own state. *)
Class Engine := {
  index : Type;
  extractor_is_ready : list F32.t -> Z -> bool;
  extractor_compute : list F32.t -> Z -> Embedding;
  index_registerV : string -> list Embedding -> index -> bool * index;
  index_search : Embedding -> F32.t -> index -> string;
  index_remove : string -> index -> index
}.

Inductive error :=
| ErrInsufficientAudio
    (* "insufficient audio data for embedding extraction" *)
| ErrEmptyEmbedding
    (* "failed to extract embedding" *)
| ErrExtract (cause : error)
    (* "failed to extract embedding: %v" *)
| ErrRegisterMemory
    (* "failed to register speaker to memory manager" *)
| ErrMarshal
    (* "failed to marshal database: %v" *)
| ErrWriteFile
    (* "failed to write database file: %v" *)
| ErrSave (cause : error)
    (* "failed to save database: %v" *)
| ErrNotFound (speakerID : string)
    (* "speaker %s not found" *).

(** What a file holds: the JSON document of a database (identified with the
    value it decodes to), or bytes that do not decode (a write that stopped
    half-way). *)
Inductive FileContent :=
| JsonDb (db : SpeakerDatabase)
| Garbled.

(** File-system calls a manager operation may issue. *)
Inductive FsOp :=
| FsWriteFile (path : string) (data : FileContent)
| FsRename (oldpath newpath : string).

(** How [json.MarshalIndent] and [ioutil.WriteFile] end for one call of
    [saveDatabase].  A failed write leaves [residue] at the path
    ([WriteFile] truncates the file before it writes). *)
Inductive SaveOutcome :=
| SaveOk
| MarshalFails
| WriteFails (residue : option FileContent).

Record SaveEnv := {
  save_now : Time;
  save_outcome : SaveOutcome
}.

(** The successive readings of [time.Now()] in [RegisterSpeaker], and the
    environment of its [saveDatabase]. *)
Record RegisterEnv := {
  reg_created : Time;
  reg_updated : Time;
  reg_touched : Time;
  reg_save : SaveEnv
}.

Record IdentifyResult := {
  Identified : bool;
  ir_SpeakerID : string;
  ir_SpeakerName : string;
  ir_Confidence : F32.t;
  ir_Threshold : F32.t
}.

Record VerifyResult := {
  vr_SpeakerID : string;
  vr_SpeakerName : string;
  Verified : bool;
  vr_Confidence : F32.t;
  vr_Threshold : F32.t
}.

(** [cosineSimilarity]'s loop: three float32 accumulators, every product
    and every sum rounded on its own. *)
Fixpoint dot_loop (a b : list F32.t) (dot normA normB : F32.t)
  : F32.t * F32.t * F32.t :=
  match a, b with
  | x :: a', y :: b' =>
      dot_loop a' b'
        (F32.add dot (F32.mul x y))
        (F32.add normA (F32.mul x x))
        (F32.add normB (F32.mul y y))
  | _, _ => (dot, normA, normB)
  end.

(** [float32(math.Sqrt(float64(x)))] *)
Definition sqrt32 (x : F32.t) : F32.t := F64.to_f32 (F64.sqrt (F64.of_f32 x)).

Definition cosineSimilarity (a b : list F32.t) : F32.t :=
  if negb (Nat.eqb (length a) (length b)) then F32.zero
  else
    let '(dotProduct, normA, normB) :=
      dot_loop a b F32.zero F32.zero F32.zero in
    if F32.eqb normA F32.zero || F32.eqb normB F32.zero then F32.zero
    else F32.div dotProduct (F32.mul (sqrt32 normA) (sqrt32 normB)).


(** One iteration of [calculateSimilarity]'s loop. *)
Definition max_step (queryEmbedding : Embedding) (maxSimilarity : F32.t)
    (embedding : Embedding) : F32.t :=
  let similarity := cosineSimilarity queryEmbedding embedding in
  if F32.ltb maxSimilarity similarity then similarity else maxSimilarity.

Definition calculateSimilarity (queryEmbedding : Embedding)
    (storedEmbeddings : list Embedding) : F32.t :=
  if Nat.eqb (length storedEmbeddings) 0 then F32.zero
  else fold_left (max_step queryEmbedding) storedEmbeddings F32.zero.

Section WithEngine.
Context {E : Engine}.

Record Manager := {
  database : SpeakerDatabase;
  manager : index;
  dbPath : string;
  threshold : F32.t;
  embeddingDim : Z;
  dataDir : string
}.

(** The manager together with the files it can reach and the log of the
    file-system calls made so far. *)
Record World := {
  mgr : Manager;
  files : gmap string FileContent;
  fs_trace : list FsOp
}.

Definition set_database (db : SpeakerDatabase) (m : Manager) : Manager :=
  {| database := db; manager := manager m; dbPath := dbPath m;
     threshold := threshold m; embeddingDim := embeddingDim m;
     dataDir := dataDir m |}.

Definition set_index (i : index) (m : Manager) : Manager :=
  {| database := database m; manager := i; dbPath := dbPath m;
     threshold := threshold m; embeddingDim := embeddingDim m;
     dataDir := dataDir m |}.

Definition set_speakers (s : gmap string SpeakerData)
    (db : SpeakerDatabase) : SpeakerDatabase :=
  {| Speakers := s; Version := Version db; DbUpdatedAt := DbUpdatedAt db |}.

Definition extractEmbedding (audioData : list F32.t) (sampleRate : Z)
  : Embedding + error :=
  if negb (extractor_is_ready audioData sampleRate)
  then inr ErrInsufficientAudio
  else
    let embedding := extractor_compute audioData sampleRate in
    if Nat.eqb (length embedding) 0 then inr ErrEmptyEmbedding
    else inl embedding.

Definition saveDatabase (env : SaveEnv) (w : World) : option error * World :=
  let m := mgr w in
  let db := {| Speakers := Speakers (database m);
               Version := Version (database m);
               DbUpdatedAt := save_now env |} in
  let m' := set_database db m in
  match save_outcome env with
  | MarshalFails =>
      (Some ErrMarshal,
       {| mgr := m'; files := files w; fs_trace := fs_trace w |})
  | WriteFails residue =>
      (Some ErrWriteFile,
       {| mgr := m';
          files := match residue with
                   | Some c => <[dbPath m := c]> (files w)
                   | None => delete (dbPath m) (files w)
                   end;
          fs_trace := fs_trace w ++ [FsWriteFile (dbPath m) (JsonDb db)] |})
  | SaveOk =>
      (None,
       {| mgr := m';
          files := <[dbPath m := JsonDb db]> (files w);
          fs_trace := fs_trace w ++ [FsWriteFile (dbPath m) (JsonDb db)] |})
  end.

(** The record [RegisterSpeaker] works on: the one stored under the id, or
    a new one. *)
Definition base_record (env : RegisterEnv) (speakerID speakerName : string)
    (w : World) : SpeakerData :=
  match Speakers (database (mgr w)) !! speakerID with
  | Some d => d
  | None =>
      {| ID := speakerID; Name := speakerName; Embeddings := [];
         CreatedAt := reg_created env; UpdatedAt := reg_updated env;
         SampleCount := 0 |}
  end.

Definition RegisterSpeaker (env : RegisterEnv)
    (speakerID speakerName : string)
    (audioData : list F32.t) (sampleRate : Z) (w : World)
  : option error * World :=
  match extractEmbedding audioData sampleRate with
  | inr err => (Some (ErrExtract err), w)
  | inl embedding =>
      let m := mgr w in
      let db := database m in
      let speakerData := base_record env speakerID speakerName w in
      let speakerData' :=
        {| ID := ID speakerData;
           Name := speakerName;
           Embeddings := Embeddings speakerData ++ [embedding];
           CreatedAt := CreatedAt speakerData;
           UpdatedAt := reg_touched env;
           SampleCount := GoInt.add64 (SampleCount speakerData) 1 |} in
      let db' := set_speakers (<[speakerID := speakerData']> (Speakers db)) db in
      let '(success, idx') :=
        index_registerV speakerID (Embeddings speakerData') (manager m) in
      let w1 := {| mgr := set_index idx' (set_database db' m);
                   files := files w; fs_trace := fs_trace w |} in
      if negb success then (Some ErrRegisterMemory, w1)
      else
        match saveDatabase (reg_save env) w1 with
        | (Some err, w2) => (Some (ErrSave err), w2)
        | (None, w2) => (None, w2)
        end
  end.

Definition IdentifySpeaker (audioData : list F32.t) (sampleRate : Z)
    (w : World) : (IdentifyResult + error) * World :=
  match extractEmbedding audioData sampleRate with
  | inr err => (inr (ErrExtract err), w)
  | inl embedding =>
      let m := mgr w in
      let speakerID := index_search embedding (threshold m) (manager m) in
      let result :=
        {| Identified := false; ir_SpeakerID := EmptyString;
             ir_SpeakerName := EmptyString;
           ir_Confidence := F32.zero; ir_Threshold := threshold m |} in
      if negb (String.eqb speakerID EmptyString) then
        match Speakers (database m) !! speakerID with
        | Some speakerData =>
            (inl {| Identified := true;
                    ir_SpeakerID := speakerID;
                    ir_SpeakerName := Name speakerData;
                    ir_Confidence :=
                      calculateSimilarity embedding (Embeddings speakerData);
                    ir_Threshold := threshold m |}, w)
        | None => (inl result, w)
        end
      else (inl result, w)
  end.

Definition VerifySpeaker (speakerID : string) (audioData : list F32.t)
    (sampleRate : Z) (w : World) : (VerifyResult + error) * World :=
  let m := mgr w in
  match Speakers (database m) !! speakerID with
  | None => (inr (ErrNotFound speakerID), w)
  | Some speakerData =>
      match extractEmbedding audioData sampleRate with
      | inr err => (inr (ErrExtract err), w)
      | inl embedding =>
          let confidence :=
            calculateSimilarity embedding (Embeddings speakerData) in
          let verified := F32.leb (threshold m) confidence in
          (inl {| vr_SpeakerID := speakerID;
                  vr_SpeakerName := Name speakerData;
                  Verified := verified;
                  vr_Confidence := confidence;
                  vr_Threshold := threshold m |}, w)
      end
  end.

Definition DeleteSpeaker (env : SaveEnv) (speakerID : string) (w : World)
  : option error * World :=
  let m := mgr w in
  match Speakers (database m) !! speakerID with
  | None => (Some (ErrNotFound speakerID), w)
  | Some _ =>
      let db' := set_speakers (delete speakerID (Speakers (database m)))
                   (database m) in
      let idx' := index_remove speakerID (manager m) in
      let w1 := {| mgr := set_index idx' (set_database db' m);
                   files := files w; fs_trace := fs_trace w |} in
      match saveDatabase env w1 with
      | (Some err, w2) => (Some (ErrSave err), w2)
      | (None, w2) => (None, w2)
      end
  end.

(** The mutating operations of the speaker database. *)
Inductive Mutation :=
| Register (env : RegisterEnv) (speakerID speakerName : string)
    (audioData : list F32.t) (sampleRate : Z)
| Delete (env : SaveEnv) (speakerID : string).

Definition apply_mutation (mu : Mutation) (w : World) : option error * World :=
  match mu with
  | Register env speakerID speakerName audioData sampleRate =>
      RegisterSpeaker env speakerID speakerName audioData sampleRate w
  | Delete env speakerID => DeleteSpeaker env speakerID w
  end.




Record SpeakerInfo := {
  si_ID : string;
  si_Name : string;
  si_SampleCount : Z;
  si_CreatedAt : Time;
  si_UpdatedAt : Time
}.

Record DatabaseStats := {
  TotalSpeakers : Z;
  TotalSamples : Z;
  ds_EmbeddingDim : Z;
  ds_Threshold : F32.t;
  ds_Version : string;
  ds_UpdatedAt : Time
}.

(** The entry [GetAllSpeakers] makes for one record. *)
Definition info_of (speakerData : SpeakerData) : SpeakerInfo :=
  {| si_ID := ID speakerData; si_Name := Name speakerData;
     si_SampleCount := SampleCount speakerData;
     si_CreatedAt := CreatedAt speakerData;
     si_UpdatedAt := UpdatedAt speakerData |}.

(** [GetAllSpeakers].  Go ranges over a map in an order it does not fix;
    the entries come here in the order of [map_to_list]. *)
Definition GetAllSpeakers (w : World) : list SpeakerInfo :=
  (fun kv => info_of (snd kv)) <$> map_to_list (Speakers (database (mgr w))).

(** The loop [for _, speaker := range Speakers { totalSamples +=
    speaker.SampleCount }] of [GetDatabaseStats]. *)
Definition total_samples (speakers : gmap string SpeakerData) : Z :=
  map_fold (fun _ speaker totalSamples =>
              GoInt.add64 totalSamples (SampleCount speaker)) 0 speakers.

Definition GetDatabaseStats (w : World) : DatabaseStats :=
  let m := mgr w in
  {| TotalSpeakers := Z.of_nat (size (Speakers (database m)));
     TotalSamples := total_samples (Speakers (database m));
     ds_EmbeddingDim := embeddingDim m;
     ds_Threshold := threshold m;
     ds_Version := Version (database m);
     ds_UpdatedAt := DbUpdatedAt (database m) |}.

(** A series of Register and Delete requests, each served whatever the
    previous ones returned. *)
Definition run_mutations (mus : list Mutation) (w : World) : World :=
  fold_left (fun w mu => snd (apply_mutation mu w)) mus w.

(** A record as [RegisterSpeaker] keeps it: filed under its own id, with
    one count per stored vector, at least one vector, none of them empty. *)
Definition record_wf (speakerID : string) (d : SpeakerData) : Prop :=
  ID d = speakerID /\
  SampleCount d = GoInt.wrap64 (Z.of_nat (length (Embeddings d))) /\
  Embeddings d <> [] /\
  Forall (fun e : Embedding => e <> []) (Embeddings d).

End WithEngine.

End Speaker.

(** ** Package pool *)

Module Pool.

Definition Time := Z.

Definition TEN_VAD_TYPE : string := "ten_vad".
Definition SILERO_TYPE : string := "silero_vad".

(** sherpa's speech segment: start offset and samples. *)
Record SpeechSegment := {
  Start : Z;
  Samples : list F32.t
}.

(** The sherpa-onnx voice-activity model: its internal state and what one
    [AcceptWaveform] call adds to the detector's queue of finished segments. *)
Class Vad := {
  vad_state : Type;
  vad_accept : vad_state -> list F32.t -> vad_state * list (option SpeechSegment)
}.

Section WithVad.
Context {V : Vad}.

(** A [*sherpa.VoiceActivityDetector]: model state and segment queue. *)
Record Detector := {
  det_state : vad_state;
  det_queue : list (option SpeechSegment)
}.

Definition AcceptWaveform (d : Detector) (samples : list F32.t) : Detector :=
  let '(s, segs) := vad_accept (det_state d) samples in
  {| det_state := s; det_queue := det_queue d ++ segs |}.

Definition IsEmpty (d : Detector) : bool :=
  match det_queue d with [] => true | _ => false end.

Definition Front (d : Detector) : option SpeechSegment :=
  match det_queue d with s :: _ => s | [] => None end.

Definition Pop (d : Detector) : Detector :=
  {| det_state := det_state d; det_queue := tl (det_queue d) |}.

Record SileroVADConfig := {
  BufferSizeSeconds : F32.t;
  PoolSize : Z;
  MaxIdle : Z
}.

(** A [SileroVADInstance] object.  [VAD = None] is the nil handle left by
    [Destroy]. *)
Record SileroVADInstance := {
  ID : Z;
  VAD : option Detector;
  LastUsed : Time;
  InUse : Z
}.

Definition GetID (i : SileroVADInstance) : Z := ID i.

Definition GetType (i : SileroVADInstance) : string := SILERO_TYPE.

Definition IsInUse (i : SileroVADInstance) : bool := InUse i =? 1.

Definition set_InUse (v : Z) (i : SileroVADInstance) : SileroVADInstance :=
  {| ID := ID i; VAD := VAD i; LastUsed := LastUsed i; InUse := v |}.

Definition SetInUse (inUse : bool) (i : SileroVADInstance) : SileroVADInstance :=
  if inUse then set_InUse 1 i else set_InUse 0 i.

Definition SetLastUsed (timestamp : Time) (i : SileroVADInstance)
  : SileroVADInstance :=
  {| ID := ID i; VAD := VAD i; LastUsed := timestamp; InUse := InUse i |}.

Definition set_VAD (v : option Detector) (i : SileroVADInstance)
  : SileroVADInstance :=
  {| ID := ID i; VAD := v; LastUsed := LastUsed i; InUse := InUse i |}.

(** [Reset]'s loop [for !VAD.IsEmpty() { Front(); Pop() }]; the queue is
    finite, so as many rounds as it has elements finish it. *)
Fixpoint reset_loop (rounds : nat) (d : Detector) : Detector :=
  match rounds with
  | O => d
  | S n => if IsEmpty d then d else reset_loop n (Pop d)
  end.

Definition Reset (i : SileroVADInstance) : SileroVADInstance :=
  match VAD i with
  | Some d => set_VAD (Some (reset_loop (length (det_queue d)) d)) i
  | None => i
  end.

Definition Destroy (i : SileroVADInstance) : SileroVADInstance :=
  match VAD i with
  | Some _ => set_VAD None i
  | None => i
  end.

(** The pool object.  Instances are referred to by address into [heap]
    (below); [available] is the buffer of the channel, oldest first, whose
    capacity is [PoolSize config]. *)
Record SileroVADPool := {
  instances : list nat;
  available : list nat;
  chan_closed : bool;
  config : SileroVADConfig;
  totalCreated : Z;
  totalReused : Z;
  totalActive : Z;
  ctx_done : bool
}.

(** All instance objects ever allocated, by address, and the pool. *)
Record World := {
  heap : list SileroVADInstance;
  pool : SileroVADPool
}.

Definition set_available (q : list nat) (p : SileroVADPool) : SileroVADPool :=
  {| instances := instances p; available := q; chan_closed := chan_closed p;
     config := config p; totalCreated := totalCreated p;
     totalReused := totalReused p; totalActive := totalActive p;
     ctx_done := ctx_done p |}.

Definition set_instances (l : list nat) (p : SileroVADPool) : SileroVADPool :=
  {| instances := l; available := available p; chan_closed := chan_closed p;
     config := config p; totalCreated := totalCreated p;
     totalReused := totalReused p; totalActive := totalActive p;
     ctx_done := ctx_done p |}.

Definition add_counters (created reused active : Z) (p : SileroVADPool)
  : SileroVADPool :=
  {| instances := instances p; available := available p;
     chan_closed := chan_closed p; config := config p;
     totalCreated := GoInt.add64 (totalCreated p) created;
     totalReused := GoInt.add64 (totalReused p) reused;
     totalActive := GoInt.add64 (totalActive p) active;
     ctx_done := ctx_done p |}.

Definition set_heap (h : list SileroVADInstance) (w : World) : World :=
  {| heap := h; pool := pool w |}.

Definition set_pool (p : SileroVADPool) (w : World) : World :=
  {| heap := heap w; pool := p |}.

(** Capacity of the channel made by [make(chan _, PoolSize)]. *)
Definition capacity (p : SileroVADPool) : Z := PoolSize (config p).

(** The non-blocking send [select { case p.available <- a: ... default: ... }]
    on an open channel, with nobody waiting to receive: it goes through when
    the buffer has room. *)
Definition has_room (p : SileroVADPool) : bool :=
  Z.of_nat (length (available p)) <? capacity p.

(** [NewSileroVADPool]; [make] panics on a negative size ([None]). *)
Definition NewSileroVADPool (cfg : SileroVADConfig) : option SileroVADPool :=
  if PoolSize cfg <? 0 then None
  else Some {| instances := []; available := []; chan_closed := false;
               config := cfg; totalCreated := 0; totalReused := 0;
               totalActive := 0; ctx_done := false |}.

Inductive error :=
| ErrInitialize
    (* "failed to initialize any Silero VAD instances" *)
| ErrShuttingDown
    (* "Silero VAD pool is shutting down" *)
| ErrCreateInstance
    (* "failed to create new Silero VAD instance" *).

(** What [Initialize] observes: for each instance id, the detector returned
    by [sherpa.NewVoiceActivityDetector] ([None] for nil) and the clock. *)
Record InitEnv := {
  init_vad : nat -> option Detector;
  init_now : nat -> Time
}.

(** The body of one initialisation goroutine.  The goroutines are taken in
    the order of their ids. *)
Definition init_one (env : InitEnv) (instanceID : nat) (st : World * nat)
  : World * nat :=
  let '(w, errors) := st in
  match init_vad env instanceID with
  | None => (w, S errors)
  | Some vad =>
      let instance := {| ID := Z.of_nat instanceID; VAD := Some vad;
                         LastUsed := init_now env instanceID; InUse := 0 |} in
      let a := length (heap w) in
      let p := set_instances (instances (pool w) ++ [a]) (pool w) in
      if has_room p
      then ({| heap := heap w ++ [instance];
               pool := add_counters 1 0 0
                         (set_available (available p ++ [a]) p) |}, errors)
      else ({| heap := heap w ++ [set_VAD None instance]; pool := p |},
            S errors)
  end.

Definition Initialize (env : InitEnv) (w : World) : option error * World :=
  let n := Z.to_nat (PoolSize (config (pool w))) in
  let '(w', errors) := fold_left (fun st i => init_one env i st) (seq 0 n) (w, O) in
  let successCount := length (instances (pool w')) in
  if negb (Nat.eqb errors 0) && Nat.eqb successCount 0
  then (Some ErrInitialize, w')
  else (None, w').

(** What [Get] observes: the clock, the detector a fresh
    [sherpa.NewVoiceActivityDetector] call would return, and which ready case
    [select] takes when the instance channel and the cancelled context are
    both ready. *)
Record GetEnv := {
  get_now : Time;
  get_new_vad : option Detector;
  get_prefer_done : bool
}.

Inductive GetOutcome :=
| GetOk (instance : nat)
| GetErr (err : error)
| GetPanic.

Definition createNewInstance (env : GetEnv) (w : World) : GetOutcome * World :=
  match get_new_vad env with
  | None => (GetErr ErrCreateInstance, w)
  | Some vad =>
      let instance := {| ID := -1; VAD := Some vad;
                         LastUsed := get_now env; InUse := 1 |} in
      (GetOk (length (heap w)),
       {| heap := heap w ++ [instance];
          pool := add_counters 1 0 1 (pool w) |})
  end.

(** [Get].  Each retry ([return p.Get()]) spends one unit of [fuel]; [None]
    means the fuel ran out.  With an empty buffer the 100 ms timer is what
    fires: a send by another goroutine in the meantime is that goroutine's
    [Put] ordered first.  A receive from the closed channel yields nil, on
    which [instance.GetID()] panics. *)
Fixpoint Get (fuel : nat) (env : GetEnv) (w : World)
  : option (GetOutcome * World) :=
  match fuel with
  | O => None
  | S fuel' =>
      let p := pool w in
      match available p with
      | a :: rest =>
          if ctx_done p && get_prefer_done env
          then Some (GetErr ErrShuttingDown, w)
          else
            let p1 := set_available rest p in
            match heap w !! a with
            | None => Some (GetPanic, set_pool p1 w)
            | Some instance =>
                if InUse instance =? 0 then
                  let instance' :=
                    SetLastUsed (get_now env) (set_InUse 1 instance) in
                  Some (GetOk a,
                        {| heap := <[a := instance']> (heap w);
                           pool := add_counters 0 1 1 p1 |})
                else
                  let p2 := if has_room p1
                            then set_available (rest ++ [a]) p1 else p1 in
                  Get fuel' env (set_pool p2 w)
            end
      | [] =>
          if chan_closed p then
            if ctx_done p && get_prefer_done env
            then Some (GetErr ErrShuttingDown, w)
            else Some (GetPanic, w)
          else if ctx_done p then Some (GetErr ErrShuttingDown, w)
          else Some (createNewInstance env w)
      end
  end.

Inductive PutOutcome :=
| PutReturn
| PutPanic.

(** [Put].  [None] is the nil interface; an address outside the heap stands
    for a nil [*SileroVADInstance], whose [GetID] panics; a send on the
    closed channel panics. *)
Definition Put (now : Time) (instance : option nat) (w : World)
  : PutOutcome * World :=
  match instance with
  | None => (PutReturn, w)
  | Some a =>
      match heap w !! a with
      | None => (PutPanic, w)
      | Some i =>
          if InUse i =? 1 then
            let i1 := Reset (SetLastUsed now (set_InUse 0 i)) in
            let p1 := add_counters 0 0 (-1) (pool w) in
            if chan_closed p1 then
              (PutPanic, {| heap := <[a := i1]> (heap w); pool := p1 |})
            else if has_room p1 then
              (PutReturn,
               {| heap := <[a := i1]> (heap w);
                  pool := set_available (available p1 ++ [a]) p1 |})
            else
              (PutReturn,
               {| heap := <[a := Destroy i1]> (heap w); pool := p1 |})
          else (PutReturn, w)
      end
  end.

Record Stats := {
  vad_type : string;
  pool_size : Z;
  max_idle : Z;
  total_instances : Z;
  available_count : Z;
  active_count : Z;
  total_created : Z;
  total_reused : Z
}.

Definition GetStats (w : World) : Stats :=
  let p := pool w in
  {| vad_type := SILERO_TYPE;
     pool_size := PoolSize (config p);
     max_idle := MaxIdle (config p);
     total_instances := Z.of_nat (length (instances p));
     available_count := Z.of_nat (length (available p));
     active_count := totalActive p;
     total_created := totalCreated p;
     total_reused := totalReused p |}.

Definition destroy_at (a : nat) (h : list SileroVADInstance)
  : list SileroVADInstance :=
  match h !! a with
  | Some i => <[a := Destroy i]> h
  | None => h
  end.

(** [Shutdown]: cancel, destroy what is queued, destroy the master list,
    close the channel.  On a channel that is already closed the drain loop
    receives nil and [instance.Destroy()] panics ([None]). *)
Definition Shutdown (w : World) : option World :=
  let p := pool w in
  if chan_closed p then None
  else
    let h1 := fold_left (fun h a => destroy_at a h) (available p) (heap w) in
    let h2 := fold_left (fun h a => destroy_at a h) (instances p) h1 in
    Some {| heap := h2;
            pool := {| instances := []; available := []; chan_closed := true;
                       config := config p; totalCreated := totalCreated p;
                       totalReused := totalReused p;
                       totalActive := totalActive p; ctx_done := true |} |}.

(** A client of the pool: a sequence of [Get] and [Put] calls, each taken
    as one atomic step. *)
Inductive Op :=
| OpGet (env : GetEnv)
| OpPut (now : Time) (instance : option nat).

Definition step (op : Op) (w : World) : option World :=
  match op with
  | OpGet env =>
      match Get (S (length (available (pool w)))) env w with
      | Some (_, w') => Some w'
      | None => None
      end
  | OpPut now instance => Some (snd (Put now instance w))
  end.

Fixpoint run (ops : list Op) (w : World) : option World :=
  match ops with
  | [] => Some w
  | op :: ops' =>
      match step op w with
      | Some w' => run ops' w'
      | None => None
      end
  end.

(** Instances whose in-use flag is 1. *)
Definition in_use_count (h : list SileroVADInstance) : nat :=
  length (filter (fun i => InUse i = 1) h).

(** Transient instances (ID -1) whose in-use flag is 1. *)
Definition transient_outstanding (h : list SileroVADInstance) : nat :=
  length (filter (fun i => ID i = -1 /\ InUse i = 1) h).

(** Instances made by [Initialize] (any ID but -1). *)
Definition pooled_count (h : list SileroVADInstance) : nat :=
  length (filter (fun i => ID i <> -1) h).

(** What holds of the pool between any two [Get]/[Put] calls. *)
Record pool_inv (w : World) : Prop := {
  inv_open : chan_closed (pool w) = false;
  inv_nodup : NoDup (available (pool w));
  inv_idle : Forall (fun a => exists i, heap w !! a = Some i /\ InUse i = 0)
               (available (pool w));
  inv_active :
    totalActive (pool w) = GoInt.wrap64 (Z.of_nat (in_use_count (heap w)));
  inv_capacity : Z.of_nat (length (available (pool w))) <= capacity (pool w);
  inv_size : Z.of_nat (length (instances (pool w))) <= capacity (pool w);
  inv_pooled : Z.of_nat (pooled_count (heap w)) <= capacity (pool w);
  inv_floor :
    (length (instances (pool w)) <=
     length (available (pool w)) + in_use_count (heap w))%nat
}.

(** What holds of the world while [Initialize] runs, before the goroutine
    of instance [k]. *)
Definition init_inv (cfg : SileroVADConfig) (k : nat) (w : World) : Prop :=
  chan_closed (pool w) = false /\
  available (pool w) = seq 0 (length (heap w)) /\
  instances (pool w) = seq 0 (length (heap w)) /\
  (length (heap w) <= k)%nat /\
  Forall (fun i => InUse i = 0 /\ ID i <> -1) (heap w) /\
  totalActive (pool w) = 0 /\
  config (pool w) = cfg.

(** A pool as the server builds it: [NewSileroVADPool] then [Initialize]. *)
Definition boot (cfg : SileroVADConfig) (env : InitEnv) : option World :=
  match NewSileroVADPool cfg with
  | None => None
  | Some p =>
      match Initialize env {| heap := []; pool := p |} with
      | (None, w) => Some w
      | (Some _, _) => None
      end
  end.

(** A pool state the server can be in: built by [boot], then used through
    [Get] and [Put]. *)
Definition reachable (w : World) : Prop :=
  exists (cfg : SileroVADConfig) (env : InitEnv) (ops : list Op) (w0 : World),
    boot cfg env = Some w0 /\ run ops w0 = Some w.

(** The instance ids below [n] for which [Initialize] gets a detector. *)
Definition built (env : InitEnv) (n : nat) : list nat :=
  filter (fun i => is_Some (init_vad env i)) (seq 0 n).

(** Transient instances (ID -1) ever made. *)
Definition transient_count (h : list SileroVADInstance) : nat :=
  length (filter (fun i => ID i = -1) h).

(** The books of a pool that was never shut down: every instance object
    ever made was counted once, and the master list holds the pooled ones. *)
Definition ledger_inv (w : World) : Prop :=
  ctx_done (pool w) = false /\
  totalCreated (pool w) = GoInt.wrap64 (Z.of_nat (length (heap w))) /\
  length (instances (pool w)) = pooled_count (heap w) /\
  Forall (fun a => exists i, heap w !! a = Some i /\ ID i <> -1)
    (instances (pool w)).

End WithVad.

End Pool.

(** ** Package config: the options the streaming path reads *)

Module Config.

Record Config := {
  WsReadTimeout : Z;          (* server.websocket.read_timeout *)
  WsMaxMessageSize : Z;       (* server.websocket.max_message_size *)
  SendQueueSize : Z;          (* session.send_queue_size *)
  MaxSendErrors : Z;          (* session.max_send_errors *)
  MinSpeechDuration : F32.t;  (* vad.silero_vad.min_speech_duration *)
  MaxSpeechDuration : F32.t;  (* vad.silero_vad.max_speech_duration *)
  SampleRate : Z;             (* audio.sample_rate *)
  NormalizeFactor : F32.t;    (* audio.normalize_factor *)
  ChunkSize : Z;              (* audio.chunk_size *)
  ResponseTimeout : Z         (* response.timeout *)
}.

End Config.

(** ** Package session *)

Module Session.

Import Config.

Definition Time := Z.

Inductive error :=
| ErrPoolNotInitialized
    (* "VAD pool is not initialized" *)
| ErrSessionNotFound (sessionID : string)
    (* "session %s not found" *)
| ErrSessionClosed (sessionID : string)
    (* "session %s is closed" *)
| ErrGetVAD (sessionID : string) (cause : Pool.error)
    (* "failed to get VAD instance for session %s: %v" *)
| ErrEmptyAudio
    (* "empty audio data" *)
| ErrInvalidLength (len : Z)
    (* "invalid audio data length: %d" *)
| ErrUnsupportedVAD (vadType : string)
    (* "unsupported VAD type: %s" *)
| ErrInvalidInstance
    (* "invalid Silero VAD instance type" *)
| ErrVADTimeout
    (* "VAD processing timeout" *)
| ErrClosedDuringProcessing (sessionID : string)
    (* "session %s closed during processing" *).

(** The JSON messages put on a session's send queue. *)
Inductive Message :=
| MsgConnection (session_id : string)
| MsgFinal (text : string) (timestamp : Time)
| MsgError (err : error).

(** The sherpa-onnx offline recogniser: the text decoded from a waveform,
    [None] when [GetResult] is nil. *)
Class Recognizer := {
  decode : Z -> list F32.t -> option string
}.

Record Session := {
  ID : string;
  conn_open : bool;
  VADInstance : option nat;
  LastSeen : Time;
  closed : Z;
  SendQueue : list Message;
  sendQueueCap : Z;
  sendDone : bool;
  sendErrCount : Z;
  lastActivity : Time;
  isInSpeech : bool;
  currentSegment : list F32.t;
  silenceFrameCount : Z
}.

Definition set_VADInstance (v : option nat) (s : Session) : Session :=
  {| ID := ID s; conn_open := conn_open s; VADInstance := v;
     LastSeen := LastSeen s; closed := closed s; SendQueue := SendQueue s;
     sendQueueCap := sendQueueCap s; sendDone := sendDone s;
     sendErrCount := sendErrCount s; lastActivity := lastActivity s;
     isInSpeech := isInSpeech s; currentSegment := currentSegment s;
     silenceFrameCount := silenceFrameCount s |}.

Definition set_LastSeen (t : Time) (s : Session) : Session :=
  {| ID := ID s; conn_open := conn_open s; VADInstance := VADInstance s;
     LastSeen := t; closed := closed s; SendQueue := SendQueue s;
     sendQueueCap := sendQueueCap s; sendDone := sendDone s;
     sendErrCount := sendErrCount s; lastActivity := lastActivity s;
     isInSpeech := isInSpeech s; currentSegment := currentSegment s;
     silenceFrameCount := silenceFrameCount s |}.

Definition set_SendQueue (q : list Message) (s : Session) : Session :=
  {| ID := ID s; conn_open := conn_open s; VADInstance := VADInstance s;
     LastSeen := LastSeen s; closed := closed s; SendQueue := q;
     sendQueueCap := sendQueueCap s; sendDone := sendDone s;
     sendErrCount := sendErrCount s; lastActivity := lastActivity s;
     isInSpeech := isInSpeech s; currentSegment := currentSegment s;
     silenceFrameCount := silenceFrameCount s |}.

Definition set_closed (c : Z) (s : Session) : Session :=
  {| ID := ID s; conn_open := conn_open s; VADInstance := VADInstance s;
     LastSeen := LastSeen s; closed := c; SendQueue := SendQueue s;
     sendQueueCap := sendQueueCap s; sendDone := sendDone s;
     sendErrCount := sendErrCount s; lastActivity := lastActivity s;
     isInSpeech := isInSpeech s; currentSegment := currentSegment s;
     silenceFrameCount := silenceFrameCount s |}.

Definition set_sendErrCount (c : Z) (s : Session) : Session :=
  {| ID := ID s; conn_open := conn_open s; VADInstance := VADInstance s;
     LastSeen := LastSeen s; closed := closed s; SendQueue := SendQueue s;
     sendQueueCap := sendQueueCap s; sendDone := sendDone s;
     sendErrCount := c; lastActivity := lastActivity s;
     isInSpeech := isInSpeech s; currentSegment := currentSegment s;
     silenceFrameCount := silenceFrameCount s |}.

(** The non-blocking send [select { case s.SendQueue <- msg: default: }]. *)
Definition enqueue (msg : Message) (s : Session) : Session :=
  if Z.of_nat (length (SendQueue s)) <? sendQueueCap s
  then set_SendQueue (SendQueue s ++ [msg]) s
  else s.

(** A recognition goroutine started by [processSileroVAD]: its arguments
    and the parts of its task id. *)
Record Task := {
  task_samples : list F32.t;
  task_sampleRate : Z;
  task_sessionID : string;
  task_now : Time;
  task_index : nat
}.

Section WithEngines.
Context {V : Pool.Vad} {R : Recognizer}.

(** The manager.  [objects] holds every session object by its id;
    [sessions] is the key set of the registry map [m.sessions], whose values
    point into [objects]. *)
Record Manager := {
  objects : gmap string Session;
  sessions : gset string;
  totalSessions : Z;
  activeSessions : Z;
  totalMessages : Z;
  ctx_done : bool
}.

(** The manager, its VAD pool ([None] for a nil [vadPool]), the recognition
    goroutines started so far and the waveforms handed to detectors so far
    (instance address, samples). *)
Record World := {
  mgr : Manager;
  vadPool : option Pool.World;
  spawned : list Task;
  vad_calls : list (nat * list F32.t)
}.

Definition set_objects (o : gmap string Session) (m : Manager) : Manager :=
  {| objects := o; sessions := sessions m; totalSessions := totalSessions m;
     activeSessions := activeSessions m; totalMessages := totalMessages m;
     ctx_done := ctx_done m |}.

Definition set_mgr (m : Manager) (w : World) : World :=
  {| mgr := m; vadPool := vadPool w; spawned := spawned w;
     vad_calls := vad_calls w |}.

Definition set_vadPool (p : option Pool.World) (w : World) : World :=
  {| mgr := mgr w; vadPool := p; spawned := spawned w;
     vad_calls := vad_calls w |}.

(** A write through the pointer to the session object registered under
    [sessionID]. *)
Definition update_session (sessionID : string) (s : Session) (w : World)
  : World :=
  set_mgr (set_objects (<[sessionID := s]> (objects (mgr w))) (mgr w)) w.

Definition NewManager (pool : option Pool.World) : World :=
  {| mgr := {| objects := ∅; sessions := ∅; totalSessions := 0;
               activeSessions := 0; totalMessages := 0; ctx_done := false |};
     vadPool := pool; spawned := []; vad_calls := [] |}.

(** [CreateSession]; [make(chan _, SendQueueSize)] panics on a negative
    size ([None]). *)
Definition CreateSession (cfg : Config) (now : Time) (sessionID : string)
    (w : World) : option (option error * World) :=
  match vadPool w with
  | None => Some (Some ErrPoolNotInitialized, w)
  | Some _ =>
      if SendQueueSize cfg <? 0 then None
      else
        let session :=
          {| ID := sessionID; conn_open := true; VADInstance := None;
             LastSeen := now; closed := 0; SendQueue := [];
             sendQueueCap := SendQueueSize cfg; sendDone := false;
             sendErrCount := 0; lastActivity := now; isInSpeech := false;
             currentSegment := []; silenceFrameCount := 0 |} in
        let m := mgr w in
        Some (None,
              set_mgr {| objects := <[sessionID := session]> (objects m);
                         sessions := {[sessionID]} ∪ sessions m;
                         totalSessions := GoInt.add64 (totalSessions m) 1;
                         activeSessions := GoInt.add64 (activeSessions m) 1;
                         totalMessages := totalMessages m;
                         ctx_done := ctx_done m |} w)
  end.

(** [GetSession]: the registry lookup, stamping [LastSeen] on a hit. *)
Definition GetSession (now : Time) (sessionID : string) (w : World)
  : option Session * World :=
  if decide (sessionID ∈ sessions (mgr w)) then
    match objects (mgr w) !! sessionID with
    | Some s =>
        let s' := set_LastSeen now s in
        (Some s', set_mgr (set_objects (<[sessionID := s']> (objects (mgr w)))
                             (mgr w)) w)
    | None => (None, w)
    end
  else (None, w).

(** One turn of [sendLoop] with a message taken from the queue; [write_ok]
    is whether [Conn.WriteJSON] succeeded. *)
Definition sendLoop_step (cfg : Config) (write_ok : bool) (s : Session)
  : Session :=
  match SendQueue s with
  | [] => s
  | _ :: rest =>
      let s1 := set_SendQueue rest s in
      if closed s1 =? 1 then s1
      else if write_ok then set_sendErrCount 0 s1
      else
        let s2 := set_sendErrCount (GoInt.wrap32 (sendErrCount s1 + 1)) s1 in
        if GoInt.wrap32 (MaxSendErrors cfg) <? sendErrCount s2
        then set_closed 1 s2 else s2
  end.

(** [sendLoop] for as long as messages wait in the queue and [sendDone] is
    not signalled: one turn per message, [writes] giving the outcome of each
    [WriteJSON]; the flag is [true] when the loop has returned. *)
Fixpoint sendLoop (cfg : Config) (writes : list bool) (s : Session)
  : bool * Session :=
  match writes, SendQueue s with
  | write_ok :: rest, _ :: _ =>
      let s' := sendLoop_step cfg write_ok s in
      if closed s' =? 1 then (true, s') else sendLoop cfg rest s'
  | _, _ => (false, s)
  end.

(** [sample := int16(audioData[i*2]) | int16(audioData[i*2+1])<<8] *)
Definition sample_of (lo hi : Byte.byte) : Z :=
  Z.lor (Z.of_N (Byte.to_N lo))
        (GoInt.wrap16 (Z.shiftl (Z.of_N (Byte.to_N hi)) 8)).

(** The conversion loop of [ProcessAudioData], over [len(audioData)/2]
    samples. *)
Fixpoint to_float32 (normalizeFactor : F32.t) (audioData : list Byte.byte)
  : list F32.t :=
  match audioData with
  | lo :: hi :: rest =>
      F32.div (F32.of_int (sample_of lo hi)) normalizeFactor
        :: to_float32 normalizeFactor rest
  | _ => []
  end.

(** What happens to one drained segment with samples. *)
Inductive Verdict :=
| Skip
| Keep (samples : list F32.t)
| SlicePanic
| IntUnspecified.

(** The duration checks of the drain loop for a segment of [samples];
    [segment.Samples[:maxSamples]] panics outside [0, len]. *)
Definition segment_verdict (cfg : Config) (samples : list F32.t) : Verdict :=
  let n := Z.of_nat (length samples) in
  let sampleRate := SampleRate cfg in
  let duration := F64.div (F64.of_int n) (F64.of_int sampleRate) in
  let minSpeechDuration := F64.of_f32 (MinSpeechDuration cfg) in
  if F64.ltb duration minSpeechDuration then Skip
  else
    let maxDuration := F64.of_f32 (MaxSpeechDuration cfg) in
    if F64.ltb maxDuration duration then
      match F64.to_int (F64.mul maxDuration (F64.of_int sampleRate)) with
      | None => IntUnspecified
      | Some maxSamples =>
          if (0 <=? maxSamples) && (maxSamples <=? n)
          then Keep (firstn (Z.to_nat maxSamples) samples)
          else SlicePanic
      end
    else Keep samples.

Inductive DrainResult :=
| Drained (speechSegments : list (list F32.t))
| DrainClosed
| DrainPanic
| DrainUnspecified.

(** The loop [for !VAD.IsEmpty() { Front(); Pop(); ... }] over the
    detector's queue; returns what is left in the queue.  [closed] is the
    session's flag as the loop reads it. *)
Fixpoint drain (cfg : Config) (closed : Z)
    (queue : list (option Pool.SpeechSegment))
    (speechSegments : list (list F32.t))
  : DrainResult * list (option Pool.SpeechSegment) :=
  match queue with
  | [] => (Drained speechSegments, [])
  | segment :: rest =>
      match segment with
      | Some seg =>
          if (0 <? Z.of_nat (length (Pool.Samples seg))) then
            if closed =? 1 then (DrainClosed, rest)
            else
              match segment_verdict cfg (Pool.Samples seg) with
              | Skip => drain cfg closed rest speechSegments
              | Keep samples =>
                  drain cfg closed rest (speechSegments ++ [samples])
              | SlicePanic => (DrainPanic, rest)
              | IntUnspecified => (DrainUnspecified, rest)
              end
          else drain cfg closed rest speechSegments
      | None => drain cfg closed rest speechSegments
      end
  end.

(** The sample lists the drain loop collects from a queue when nothing
    stops it: one for every segment with samples that the duration checks
    keep. *)
Definition kept_of (cfg : Config) (segment : option Pool.SpeechSegment)
  : list (list F32.t) :=
  match segment with
  | Some seg =>
      if 0 <? Z.of_nat (length (Pool.Samples seg)) then
        match segment_verdict cfg (Pool.Samples seg) with
        | Keep samples => [samples]
        | _ => []
        end
      else []
  | None => []
  end.

Definition kept (cfg : Config) (queue : list (option Pool.SpeechSegment))
  : list (list F32.t) :=
  flat_map (kept_of cfg) queue.

(** The duration of [n] samples as the drain loop computes it. *)
Definition duration_of (cfg : Config) (n : nat) : F64.t :=
  F64.div (F64.of_int (Z.of_nat n)) (F64.of_int (SampleRate cfg)).

(** How a call ends: it returns (with an error or nil), it panics, or it
    reaches a conversion whose result Go leaves open. *)
Inductive Outcome :=
| Return (err : option error)
| Panic
| Unspecified.

(** What [ProcessAudioData] observes: clock readings, the environment of a
    [Get] on the pool, whether the VAD deadline fired first, and the clock
    reading of each started task. *)
Record ProcessEnv := {
  pe_now_lookup : Time;
  pe_get : Pool.GetEnv;
  pe_now_seen : Time;
  pe_vad_timeout : bool;
  pe_task_now : nat -> Time
}.

Fixpoint make_tasks (env : ProcessEnv) (sampleRate : Z) (sessionID : string)
    (i : nat) (speechSegments : list (list F32.t)) : list Task :=
  match speechSegments with
  | [] => []
  | samples :: rest =>
      {| task_samples := samples; task_sampleRate := sampleRate;
         task_sessionID := sessionID; task_now := pe_task_now env i;
         task_index := i |} :: make_tasks env sampleRate sessionID (S i) rest
  end.

Definition set_detector (a : nat) (d : Pool.Detector) (pw : Pool.World)
  : Pool.World :=
  match Pool.heap pw !! a with
  | Some i => Pool.set_heap (<[a := Pool.set_VAD (Some d) i]> (Pool.heap pw)) pw
  | None => pw
  end.

(** [processSileroVAD].  The detector takes the waveform in a goroutine of
    its own; when the deadline fires first the call returns the timeout
    error and the goroutine still completes. *)
Definition processSileroVAD (cfg : Config) (env : ProcessEnv)
    (session : Session) (sessionID : string) (float32Slice : list F32.t)
    (w : World) : Outcome * World :=
  match VADInstance session, vadPool w with
  | None, _ => (Return (Some ErrInvalidInstance), w)
  | Some _, None => (Panic, w)
  | Some a, Some pw =>
      match Pool.heap pw !! a with
      | None => (Panic, w)
      | Some instance =>
          match Pool.VAD instance with
          | None => (Panic, w)
          | Some d =>
              let d1 := Pool.AcceptWaveform d float32Slice in
              let calls := vad_calls w ++ [(a, float32Slice)] in
              if pe_vad_timeout env then
                (Return (Some ErrVADTimeout),
                 {| mgr := mgr w; vadPool := Some (set_detector a d1 pw);
                    spawned := spawned w; vad_calls := calls |})
              else
                let '(res, remaining) :=
                  drain cfg (closed session) (Pool.det_queue d1) [] in
                let d2 := {| Pool.det_state := Pool.det_state d1;
                             Pool.det_queue := remaining |} in
                let w1 := {| mgr := mgr w;
                             vadPool := Some (set_detector a d2 pw);
                             spawned := spawned w; vad_calls := calls |} in
                match res with
                | DrainClosed =>
                    (Return (Some (ErrClosedDuringProcessing sessionID)), w1)
                | DrainPanic => (Panic, w1)
                | DrainUnspecified => (Unspecified, w1)
                | Drained speechSegments =>
                    (Return None,
                     {| mgr := mgr w1; vadPool := vadPool w1;
                        spawned := spawned w1 ++
                          make_tasks env (SampleRate cfg) sessionID O
                            speechSegments;
                        vad_calls := calls |})
                end
          end
      end
  end.

(** [ProcessAudioData].  [None]: the pool's [Get] did not finish within its
    fuel. *)
Definition ProcessAudioData (cfg : Config) (env : ProcessEnv)
    (sessionID : string) (audioData : list Byte.byte) (w : World)
  : option (Outcome * World) :=
  match GetSession (pe_now_lookup env) sessionID w with
  | (None, w0) => Some (Return (Some (ErrSessionNotFound sessionID)), w0)
  | (Some session, w0) =>
      if closed session =? 1
      then Some (Return (Some (ErrSessionClosed sessionID)), w0)
      else
        let acquired :=
          match VADInstance session with
          | Some _ => Some (inl session, w0)
          | None =>
              match vadPool w0 with
              | None => Some (inr Panic, w0)
              | Some pw =>
                  match Pool.Get (S (length (Pool.available (Pool.pool pw))))
                          (pe_get env) pw with
                  | None => None
                  | Some (Pool.GetOk a, pw') =>
                      let s := set_VADInstance (Some a) session in
                      Some (inl s, update_session sessionID s
                                   (set_vadPool (Some pw') w0))
                  | Some (Pool.GetErr e, pw') =>
                      Some (inr (Return (Some (ErrGetVAD sessionID e))),
                            set_vadPool (Some pw') w0)
                  | Some (Pool.GetPanic, pw') =>
                      Some (inr Panic, set_vadPool (Some pw') w0)
                  end
              end
          end in
        match acquired with
        | None => None
        | Some (inr out, w1) => Some (out, w1)
        | Some (inl session1, w1) =>
            let session2 := set_LastSeen (pe_now_seen env) session1 in
            let m := mgr (update_session sessionID session2 w1) in
            let w2 :=
              set_mgr {| objects := objects m; sessions := sessions m;
                         totalSessions := totalSessions m;
                         activeSessions := activeSessions m;
                         totalMessages := GoInt.add64 (totalMessages m) 1;
                         ctx_done := ctx_done m |} w1 in
            let len := Z.of_nat (length audioData) in
            if len =? 0 then Some (Return (Some ErrEmptyAudio), w2)
            else if negb (Z.rem len 2 =? 0)
            then Some (Return (Some (ErrInvalidLength len)), w2)
            else
              let float32Slice := to_float32 (NormalizeFactor cfg) audioData in
              match VADInstance session2 with
              | None => Some (Panic, w2)
              | Some a =>
                  if String.eqb Pool.SILERO_TYPE Pool.SILERO_TYPE
                  then Some (processSileroVAD cfg env session2 sessionID
                               float32Slice w2)
                  else Some (Return (Some (ErrUnsupportedVAD Pool.SILERO_TYPE)),
                             w2)
              end
        end
  end.

(** [handleRecognitionResult]; [text = None] is the call with the
    "recognition failed" error. *)
Definition handleRecognitionResult (now_lookup now_stamp : Time)
    (sessionID : string) (text : option string) (w : World) : World :=
  match GetSession now_lookup sessionID w with
  | (None, w0) => w0
  | (Some session, w0) =>
      if closed session =? 1 then w0
      else
        match text with
        | Some result =>
            if 0 <? Z.of_nat (String.length result)
            then update_session sessionID
                   (enqueue (MsgFinal result now_stamp) session) w0
            else w0
        | None => w0
        end
  end.

(** The body of a recognition goroutine. *)
Definition run_task (now_lookup now_stamp : Time) (t : Task) (w : World)
  : World :=
  handleRecognitionResult now_lookup now_stamp (task_sessionID t)
    (decode (task_sampleRate t) (task_samples t)) w.

(** [closeSession] on the object with this id. *)
Definition closeSession (now : Time) (sessionID : string) (w : World)
  : Outcome * World :=
  match objects (mgr w) !! sessionID with
  | None => (Return None, w)
  | Some session =>
      if closed session =? 0 then
        let s1 := {| ID := ID session; conn_open := conn_open session;
                     VADInstance := VADInstance session;
                     LastSeen := LastSeen session; closed := 1;
                     SendQueue := []; sendQueueCap := sendQueueCap session;
                     sendDone := true; sendErrCount := sendErrCount session;
                     lastActivity := lastActivity session;
                     isInSpeech := isInSpeech session;
                     currentSegment := currentSegment session;
                     silenceFrameCount := silenceFrameCount session |} in
        let w1 := update_session sessionID s1 w in
        match VADInstance s1, vadPool w1 with
        | Some a, Some pw =>
            match Pool.Put now (Some a) pw with
            | (Pool.PutPanic, pw') => (Panic, set_vadPool (Some pw') w1)
            | (Pool.PutReturn, pw') =>
                let s2 := set_VADInstance None s1 in
                let s3 := {| ID := ID s2; conn_open := false;
                             VADInstance := VADInstance s2;
                             LastSeen := LastSeen s2; closed := closed s2;
                             SendQueue := SendQueue s2;
                             sendQueueCap := sendQueueCap s2;
                             sendDone := sendDone s2;
                             sendErrCount := sendErrCount s2;
                             lastActivity := lastActivity s2;
                             isInSpeech := isInSpeech s2;
                             currentSegment := currentSegment s2;
                             silenceFrameCount := silenceFrameCount s2 |} in
                (Return None,
                 update_session sessionID s3 (set_vadPool (Some pw') w1))
            end
        | _, _ =>
            let s3 := {| ID := ID s1; conn_open := false;
                         VADInstance := VADInstance s1;
                         LastSeen := LastSeen s1; closed := closed s1;
                         SendQueue := SendQueue s1;
                         sendQueueCap := sendQueueCap s1;
                         sendDone := sendDone s1;
                         sendErrCount := sendErrCount s1;
                         lastActivity := lastActivity s1;
                         isInSpeech := isInSpeech s1;
                         currentSegment := currentSegment s1;
                         silenceFrameCount := silenceFrameCount s1 |} in
            (Return None, update_session sessionID s3 w1)
        end
      else (Return None, w)
  end.

(** [RemoveSession] *)
Definition RemoveSession (now : Time) (sessionID : string) (w : World)
  : Outcome * World :=
  if decide (sessionID ∈ sessions (mgr w)) then
    match closeSession now sessionID w with
    | (Return _, w1) =>
        let m := mgr w1 in
        (Return None,
         set_mgr {| objects := objects m;
                    sessions := sessions m ∖ {[sessionID]};
                    totalSessions := totalSessions m;
                    activeSessions := GoInt.add64 (activeSessions m) (-1);
                    totalMessages := totalMessages m;
                    ctx_done := ctx_done m |} w1)
    | (out, w1) => (out, w1)
    end
  else (Return None, w).

(** The sample lists of the recognition goroutines started between two
    worlds, in the order they were started. *)
Definition started (w w' : World) : list (list F32.t) :=
  map task_samples (drop (length (spawned w)) (spawned w')).

(** [GetStats] of the session manager. *)
Record ManagerStats := {
  total_sessions : Z;
  active_sessions : Z;
  total_messages : Z;
  current_sessions : Z;
  pool_stats : option Pool.Stats    (* [None]: "status": "not_initialized" *)
}.

Definition GetStats (w : World) : ManagerStats :=
  {| total_sessions := totalSessions (mgr w);
     active_sessions := activeSessions (mgr w);
     total_messages := totalMessages (mgr w);
     current_sessions := Z.of_nat (size (sessions (mgr w)));
     pool_stats := Pool.GetStats <$> vadPool w |}.

(** The loop of [Shutdown] over the registered sessions, in the order
    [ids]; a panic in [closeSession] ends it. *)
Fixpoint close_all (now : Time) (ids : list string) (w : World)
  : Outcome * World :=
  match ids with
  | [] => (Return None, w)
  | sessionID :: rest =>
      match closeSession now sessionID w with
      | (Return _, w1) => close_all now rest w1
      | stop => stop
      end
  end.

(** [Shutdown]: cancel the context, close every registered session, start
    a new registry.  Go ranges over the map in an order it does not fix:
    [order] is the order taken. *)
Definition Shutdown (now : Time) (order : list string) (w : World)
  : Outcome * World :=
  let m := mgr w in
  let w0 := set_mgr {| objects := objects m; sessions := sessions m;
                       totalSessions := totalSessions m;
                       activeSessions := activeSessions m;
                       totalMessages := totalMessages m;
                       ctx_done := true |} w in
  match close_all now order w0 with
  | (Return _, w1) =>
      let m1 := mgr w1 in
      (Return None,
       set_mgr {| objects := objects m1; sessions := ∅;
                  totalSessions := totalSessions m1;
                  activeSessions := activeSessions m1;
                  totalMessages := totalMessages m1;
                  ctx_done := ctx_done m1 |} w1)
  | stop => stop
  end.

End WithEngines.

End Session.

(** ** Package ws: the streaming endpoint *)

Module Ws.

Import Config.

Definition Time := Z.

(** How one turn of the read loop ends. *)
Inductive Control :=
| Continue
| Break
| Crash
| Stuck.

Section WithEngines.
Context {V : Pool.Vad} {R : Session.Recognizer}.

(** What one turn of the read loop observes: the clock, and the
    environment of its [ProcessAudioData] call. *)
Record FrameEnv := {
  fe_now : Time;
  fe_process : Session.ProcessEnv
}.

(** One connection being served: the session manager's world, the read
    deadline set on the connection, and the frames handed to
    [ProcessAudioData] so far. *)
Record Conn := {
  world : Session.World;
  read_deadline : option Time;
  processed : list (list Byte.byte)
}.

(** [sess.SendQueue <- msg] through the handler's own session pointer,
    without blocking. *)
Definition send_to (sessionID : string) (msg : Session.Message)
    (w : Session.World) : Session.World :=
  match Session.objects (Session.mgr w) !! sessionID with
  | Some s => Session.update_session sessionID (Session.enqueue msg s) w
  | None => w
  end.

Definition refresh_deadline (cfg : Config) (now : Time) (c : Conn) : Conn :=
  if 0 <? WsReadTimeout cfg
  then {| world := world c; read_deadline := Some (now + WsReadTimeout cfg);
          processed := processed c |}
  else c.

(** The body of the read loop after a successful [ReadMessage]. *)
Definition on_message (cfg : Config) (env : FrameEnv) (sessionID : string)
    (message : list Byte.byte) (c : Conn) : Control * Conn :=
  let c1 := refresh_deadline cfg (fe_now env) c in
  let len := Z.of_nat (length message) in
  if (0 <? WsMaxMessageSize cfg) && (WsMaxMessageSize cfg <? len)
  then (Break, c1)
  else if 0 <? len then
    let log := processed c1 ++ [message] in
    match Session.ProcessAudioData cfg (fe_process env) sessionID message
            (world c1) with
    | None =>
        (Stuck, {| world := world c1; read_deadline := read_deadline c1;
                   processed := log |})
    | Some (Session.Return (Some err), w') =>
        (Continue,
         {| world := send_to sessionID (Session.MsgError err) w';
            read_deadline := read_deadline c1; processed := log |})
    | Some (Session.Return None, w') =>
        (Continue, {| world := w'; read_deadline := read_deadline c1;
                      processed := log |})
    | Some (_, w') =>
        (Crash, {| world := w'; read_deadline := read_deadline c1;
                   processed := log |})
    end
  else (Continue, c1).

(** The loop [for { ReadMessage(); ... }] over the frames the connection
    delivers before [ReadMessage] returns an error; it ends at that error or
    at a [break]. *)
Fixpoint read_loop (cfg : Config) (sessionID : string)
    (frames : list (list Byte.byte * FrameEnv)) (c : Conn) : Control * Conn :=
  match frames with
  | [] => (Break, c)
  | (message, env) :: rest =>
      match on_message cfg env sessionID message c with
      | (Continue, c') => read_loop cfg sessionID rest c'
      | stop => stop
      end
  end.

(** [HandleWebSocket] after the upgrade, for a connection that delivers
    [frames] and then fails; the deferred [RemoveSession] runs when the loop
    is left, also by a panic.  [None]: [CreateSession] panicked. *)
Definition HandleWebSocket (cfg : Config) (now : Time) (sessionID : string)
    (frames : list (list Byte.byte * FrameEnv)) (w : Session.World)
  : option (Control * Conn) :=
  let c0 := refresh_deadline cfg now
              {| world := w; read_deadline := None; processed := [] |} in
  match Session.CreateSession cfg now sessionID (world c0) with
  | None => None
  | Some (Some _, w1) =>
      Some (Break, {| world := w1; read_deadline := read_deadline c0;
                      processed := [] |})
  | Some (None, w1) =>
      let w2 := send_to sessionID (Session.MsgConnection sessionID) w1 in
      let '(ctl, c) :=
        read_loop cfg sessionID frames
          {| world := w2; read_deadline := read_deadline c0;
             processed := [] |} in
      match ctl with
      | Stuck => Some (Stuck, c)
      | _ =>
          match Session.RemoveSession now sessionID (world c) with
          | (Session.Return _, w3) =>
              Some (match ctl with Crash => Crash | _ => Break end,
                    {| world := w3; read_deadline := read_deadline c;
                       processed := processed c |})
          | (_, w3) =>
              Some (Crash, {| world := w3; read_deadline := read_deadline c;
                              processed := processed c |})
          end
      end
  end.

(** The size check of the read loop: a positive limit that the message
    exceeds. *)
Definition oversize (cfg : Config) (message : list Byte.byte) : Prop :=
  0 < WsMaxMessageSize cfg /\ WsMaxMessageSize cfg < Z.of_nat (length message).

(** What holds of the session of a connection between two turns of its
    read loop: the session is registered and open, the pool is in order, and
    the instance the session holds, if any, is marked in use; [n] instances
    are in use besides. *)
Definition serving (sessionID : string) (n : nat) (w : Session.World) : Prop :=
  exists (pw : Pool.World) (s : Session.Session),
    Session.vadPool w = Some pw /\ Pool.pool_inv pw /\
    sessionID ∈ Session.sessions (Session.mgr w) /\
    Session.objects (Session.mgr w) !! sessionID = Some s /\
    Session.closed s = 0 /\
    match Session.VADInstance s with
    | Some a =>
        (exists i, Pool.heap pw !! a = Some i /\ Pool.InUse i = 1) /\
        Pool.in_use_count (Pool.heap pw) = S n
    | None => Pool.in_use_count (Pool.heap pw) = n
    end.

End WithEngines.

End Ws.

(** ** Package pool: the VAD factory *)

Module VadFactory.

Import Pool.

(** The fields of [config.GlobalConfig] the factory reads that reach the
    pool. *)
Record GlobalConfig := {
  VAD_Provider : string;
  VAD_PoolSize : Z;
  VAD_SileroVAD_BufferSizeSeconds : F32.t
}.

(** The [interface{}] handed to [CreatePool]: a [*SileroVADConfig] or a
    value of another type. *)
Inductive AnyConfig :=
| SileroConfig (c : SileroVADConfig)
| OtherConfig.

Inductive error :=
| ErrUnsupported (vadType : string)
    (* "unsupported VAD type: %s" *)
| ErrInvalidConfig
    (* "invalid config type for Silero VAD" *)
| ErrCreateConfig (vadType : string) (cause : error)
    (* "failed to create config for %s: %v" *)
| ErrCreatePool (vadType : string) (cause : error)
    (* "failed to create %s VAD pool: %v" *).

(** How a call that builds a pool ends. *)
Inductive Result :=
| Created (pool : SileroVADPool)
| Failed (err : error)
| Panicked.

(** The interface [VADPoolFactory]. *)
Record VADPoolFactory := {
  CreatePool : AnyConfig -> Result;
  GetSupportedTypes : list string
}.

Definition SileroVADPoolFactory : VADPoolFactory :=
  {| CreatePool := fun config =>
       match config with
       | SileroConfig sileroConfig =>
           match NewSileroVADPool sileroConfig with
           | Some pool => Created pool
           | None => Panicked
           end
       | OtherConfig => Failed ErrInvalidConfig
       end;
     GetSupportedTypes := [SILERO_TYPE] |}.

Record VADFactory := {
  factories : gmap string VADPoolFactory
}.

Definition RegisterFactory (vadType : string) (factory : VADPoolFactory)
    (f : VADFactory) : VADFactory :=
  {| factories := <[vadType := factory]> (factories f) |}.

Definition NewVADFactory : VADFactory :=
  RegisterFactory SILERO_TYPE SileroVADPoolFactory {| factories := ∅ |}.

Definition createSileroConfig (g : GlobalConfig) : SileroVADConfig + error :=
  inl {| BufferSizeSeconds := VAD_SileroVAD_BufferSizeSeconds g;
         PoolSize := VAD_PoolSize g;
         MaxIdle := 0 |}.

Definition CreateVADPool (f : VADFactory) (g : GlobalConfig) : Result :=
  let vadType := VAD_Provider g in
  match factories f !! vadType with
  | None => Failed (ErrUnsupported vadType)
  | Some factory =>
      if String.eqb vadType SILERO_TYPE then
        match createSileroConfig g with
        | inr err => Failed (ErrCreateConfig vadType err)
        | inl config =>
            match CreatePool factory (SileroConfig config) with
            | Created pool => Created pool
            | Failed err => Failed (ErrCreatePool vadType err)
            | Panicked => Panicked
            end
        end
      else Failed (ErrUnsupported vadType)
  end.

Definition GetVADType (g : GlobalConfig) : string := VAD_Provider g.

(** [VADFactory.GetSupportedTypes]: the registered types, in the order of
    the map iteration. *)
Definition SupportedTypes (f : VADFactory) : list string :=
  (map_to_list (factories f)).*1.

End VadFactory.

(** ** Package hotreload: callbacks on a configuration change *)

Module HotReload.

Section WithCallback.
Context {Callback : Type}.

(** A [HotReloadManager]: its [callbacks] map. *)
Record HotReloadManager := {
  callbacks : gmap string (list Callback)
}.

Definition NewHotReloadManager : HotReloadManager :=
  {| callbacks := ∅ |}.

Definition RegisterCallback (configKey : string) (callback : Callback)
    (m : HotReloadManager) : HotReloadManager :=
  {| callbacks :=
       <[configKey := default [] (callbacks m !! configKey) ++ [callback]]>
         (callbacks m) |}.

(** [executeCallbacks]: the callbacks it starts, each in a goroutine of its
    own, keys in the order of the map iteration. *)
Definition executeCallbacks (m : HotReloadManager) : list Callback :=
  concat (map_to_list (callbacks m)).*2.

Inductive error :=
| ErrUnmarshal
    (* "failed to unmarshal config: %w" *).

(** [SetConfigValue], given whether [viper.Unmarshal] succeeds: the error
    returned and the callbacks started. *)
Definition SetConfigValue (key : string) (unmarshal_ok : bool)
    (m : HotReloadManager)
  : option error * list Callback :=
  if unmarshal_ok then (None, executeCallbacks m) else (Some ErrUnmarshal, []).

(** [reloadConfig], given whether [viper.ReadInConfig] and [viper.Unmarshal]
    succeed: the callbacks started. *)
Definition reloadConfig (read_ok unmarshal_ok : bool)
    (m : HotReloadManager)
  : list Callback :=
  if read_ok then if unmarshal_ok then executeCallbacks m else [] else [].

End WithCallback.

End HotReload.

(** ** Concrete engines and inputs *)

Module Fixtures.

Definition f32 (n : Z) : F32.t := F32.of_int n.

(** 0.5 *)
Definition half : F32.t := F32.div (f32 1) (f32 2).

Section SpeakerFixtures.
Import Speaker.

(** A small engine to run the speaker manager on concrete inputs: the
    embedding of a waveform is the waveform itself; the index is an
    association list that refuses a name it already holds and searches by
    score. *)
Definition toy_registerV (id : string) (embs : list Embedding)
    (idx : list (string * list Embedding))
  : bool * list (string * list Embedding) :=
  if existsb (fun e => String.eqb (fst e) id) idx then (false, idx)
  else (true, idx ++ [(id, embs)]).

Definition toy_search (q : Embedding) (t : F32.t)
    (idx : list (string * list Embedding)) : string :=
  match List.find (fun e => F32.leb t (calculateSimilarity q (snd e))) idx with
  | Some e => fst e
  | None => EmptyString
  end.

Definition toy_remove (id : string) (idx : list (string * list Embedding))
  : list (string * list Embedding) :=
  List.filter (fun e => negb (String.eqb (fst e) id)) idx.

Definition toy_engine : Engine :=
  {| index := list (string * list Embedding);
     extractor_is_ready := fun audio _ => negb (Nat.eqb (length audio) 0);
     extractor_compute := fun audio _ => audio;
     index_registerV := toy_registerV;
     index_search := toy_search;
     index_remove := toy_remove |}.

Definition clip_a : list F32.t := [f32 1; f32 0].
Definition clip_b : list F32.t := [f32 3; f32 4].

Definition empty_database : SpeakerDatabase :=
  {| Speakers := ∅; Version := "1.0.0"; DbUpdatedAt := 0 |}.

Definition fresh_world : @World toy_engine :=
  {| mgr := @Build_Manager toy_engine empty_database []
              "data/speaker.json" half 2 "data";
     files := ∅; fs_trace := [] |}.


(** A write that fails before it touches the file, which keeps the empty
    database. *)
Definition save_denied (t : Time) : SaveEnv :=
  {| save_now := t;
     save_outcome := WriteFails (Some (JsonDb empty_database)) |}.

Definition save_ok (t : Time) : SaveEnv :=
  {| save_now := t; save_outcome := SaveOk |}.

Definition reg_env (t : Time) (save : SaveEnv) : RegisterEnv :=
  {| reg_created := t; reg_updated := t; reg_touched := t; reg_save := save |}.

(** The world after enrolling "u1" (Alice) with [clip_a]. *)
Definition alice_world : @World toy_engine :=
  snd (RegisterSpeaker (reg_env 10 (save_ok 11)) "u1" "Alice" clip_a 16000
         fresh_world).

End SpeakerFixtures.

Section PoolFixtures.
Import Pool.

(** A detector model that turns every non-empty waveform into one segment
    holding it. *)
Definition toy_vad : Vad :=
  {| vad_state := unit;
     vad_accept := fun _ samples =>
       (tt, match samples with
            | [] => []
            | _ => [Some {| Start := 0; Samples := samples |}]
            end) |}.

Definition toy_detector : @Detector toy_vad :=
  @Build_Detector toy_vad tt [].

Definition pool_config (size : Z) : SileroVADConfig :=
  {| BufferSizeSeconds := f32 10; PoolSize := size; MaxIdle := 0 |}.

(** Every detector is built. *)
Definition init_all : @InitEnv toy_vad :=
  {| init_vad := fun _ => Some toy_detector; init_now := fun _ => 0 |}.

(** Only the detector of instance 0 is built. *)
Definition init_first_only : @InitEnv toy_vad :=
  {| init_vad := fun i => match i with O => Some toy_detector | _ => None end;
     init_now := fun _ => 0 |}.

Definition get_env (t : Time) : @GetEnv toy_vad :=
  {| get_now := t; get_new_vad := Some toy_detector;
     get_prefer_done := false |}.

Definition world_of (o : option (@World toy_vad)) : @World toy_vad :=
  match o with
  | Some w => w
  | None => {| heap := [];
               pool := {| instances := []; available := [];
                          chan_closed := false; config := pool_config 0;
                          totalCreated := 0; totalReused := 0;
                          totalActive := 0; ctx_done := false |} |}
  end.

(** A pool of size 1, fully built. *)
Definition pool1 : @World toy_vad := world_of (boot (pool_config 1) init_all).

(** [pool1] after two [Get]s: instance 0 and then a transient instance at
    address 1 are out. *)
Definition pool1_exhausted : @World toy_vad :=
  world_of (run [OpGet (get_env 10); OpGet (get_env 20)] pool1).

(** A pool of size 2 in which only instance 0 could be built. *)
Definition pool2_partial : @World toy_vad :=
  world_of (boot (pool_config 2) init_first_only).

End PoolFixtures.

Section SessionFixtures.
Import Config Session.

(** A recogniser that decodes every waveform to the same text. *)
Definition toy_recognizer : Recognizer :=
  {| decode := fun _ _ => Some "hello" |}.

(** 0.25 s minimum, 1 s maximum, 16 kHz. *)
Definition demo_config : Config :=
  {| WsReadTimeout := 60; WsMaxMessageSize := 65536;
     SendQueueSize := 8; MaxSendErrors := 3;
     MinSpeechDuration := F32.div (f32 1) (f32 4);
     MaxSpeechDuration := f32 1;
     SampleRate := 16000; NormalizeFactor := f32 32768;
     ChunkSize := 4096; ResponseTimeout := 30 |}.

(** 0.25 s minimum, 1 s maximum, at 100 samples per second (to keep the
    example segments short). *)
Definition coarse_config : Config :=
  {| WsReadTimeout := 60; WsMaxMessageSize := 65536;
     SendQueueSize := 8; MaxSendErrors := 3;
     MinSpeechDuration := F32.div (f32 1) (f32 4);
     MaxSpeechDuration := f32 1;
     SampleRate := 100; NormalizeFactor := f32 32768;
     ChunkSize := 4096; ResponseTimeout := 30 |}.

(** 0.25 s minimum, 0.7 s maximum, at 100 samples per second. *)
Definition tenths_config : Config :=
  {| WsReadTimeout := 60; WsMaxMessageSize := 65536;
     SendQueueSize := 8; MaxSendErrors := 3;
     MinSpeechDuration := F32.div (f32 1) (f32 4);
     MaxSpeechDuration := F32.div (f32 7) (f32 10);
     SampleRate := 100; NormalizeFactor := f32 32768;
     ChunkSize := 4096; ResponseTimeout := 30 |}.

(** A configuration whose minimum duration (5 s) is above its maximum
    (2 s). *)
Definition crossed_config : Config :=
  {| WsReadTimeout := 60; WsMaxMessageSize := 65536;
     SendQueueSize := 8; MaxSendErrors := 3;
     MinSpeechDuration := f32 5;
     MaxSpeechDuration := f32 2;
     SampleRate := 100; NormalizeFactor := f32 32768;
     ChunkSize := 4096; ResponseTimeout := 30 |}.

(** A configuration with a negative maximum duration. *)
Definition negative_config : Config :=
  {| WsReadTimeout := 60; WsMaxMessageSize := 65536;
     SendQueueSize := 8; MaxSendErrors := 3;
     MinSpeechDuration := f32 0;
     MaxSpeechDuration := f32 (-1);
     SampleRate := 100; NormalizeFactor := f32 32768;
     ChunkSize := 4096; ResponseTimeout := 30 |}.

Definition process_env (t : Time) : @ProcessEnv toy_vad :=
  {| pe_now_lookup := t; pe_get := get_env t; pe_now_seen := t;
     pe_vad_timeout := false; pe_task_now := fun _ => t |}.

(** As [process_env], but a detector for a transient instance cannot be
    built. *)
Definition process_env_no_detector (t : Time) : @ProcessEnv toy_vad :=
  {| pe_now_lookup := t;
     pe_get := {| Pool.get_now := t; Pool.get_new_vad := None;
                  Pool.get_prefer_done := false |};
     pe_now_seen := t; pe_vad_timeout := false;
     pe_task_now := fun _ => t |}.

Definition silence (n : nat) : list F32.t := repeat F32.zero n.

Definition segment_of (n : nat) : Pool.SpeechSegment :=
  {| Pool.Start := 0; Pool.Samples := silence n |}.

Definition session_world_of (o : option (option error * @World toy_vad))
  : @World toy_vad :=
  match o with
  | Some (_, w) => w
  | None => NewManager None
  end.

Definition processed_world_of (o : option (Outcome * @World toy_vad))
  : @World toy_vad :=
  match o with
  | Some (_, w) => w
  | None => NewManager None
  end.

(** A manager over [pool1] with one session, "s1", just created. *)
Definition one_session : @World toy_vad :=
  session_world_of (CreateSession demo_config 1 "s1" (NewManager (Some pool1))).

(** [one_session] after "s1" sent a two-byte frame (taking instance 0) and
    a second session, "s2", was created. *)
Definition two_sessions : @World toy_vad :=
  session_world_of
    (CreateSession demo_config 3 "s2"
       (processed_world_of
          (ProcessAudioData demo_config (process_env 2)
             "s1" [Byte.x00; Byte.x00] one_session))).

(** As [process_env], but the VAD deadline fires before the detector is
    done. *)
Definition process_env_timeout (t : Time) : @ProcessEnv toy_vad :=
  {| pe_now_lookup := t; pe_get := get_env t; pe_now_seen := t;
     pe_vad_timeout := true; pe_task_now := fun _ => t |}.

(** [one_session] after a 20-byte frame of "s1" whose VAD call timed out:
    the detector of instance 0 still queues a segment of 10 samples. *)
Definition pending_world : @World toy_vad :=
  processed_world_of
    (ProcessAudioData coarse_config (process_env_timeout 2) "s1"
       (repeat Byte.x00 20) one_session).

Definition session_at (sessionID : string) (w : @World toy_vad) : Session :=
  match objects (mgr w) !! sessionID with
  | Some s => s
  | None =>
      {| ID := sessionID; conn_open := false; VADInstance := None;
         LastSeen := 0; closed := 1; SendQueue := []; sendQueueCap := 0;
         sendDone := true; sendErrCount := 0; lastActivity := 0;
         isInSpeech := false; currentSegment := [];
         silenceFrameCount := 0 |}
  end.

Definition pool_of (w : @World toy_vad) : @Pool.World toy_vad :=
  match vadPool w with
  | Some pw => pw
  | None => pool1
  end.

Definition instance_at (a : nat) (pw : @Pool.World toy_vad)
  : @Pool.SileroVADInstance toy_vad :=
  match Pool.heap pw !! a with
  | Some i => i
  | None => {| Pool.ID := -1; Pool.VAD := None; Pool.LastUsed := 0;
               Pool.InUse := 0 |}
  end.

Definition detector_of (i : @Pool.SileroVADInstance toy_vad)
  : @Pool.Detector toy_vad :=
  match Pool.VAD i with
  | Some d => d
  | None => toy_detector
  end.

Definition frame_env (t : Time) : @Ws.FrameEnv toy_vad :=
  {| Ws.fe_now := t; Ws.fe_process := process_env t |}.

(** The session "s1" of [one_session] with five results waiting in its send
    queue. *)
Definition queued_session : Session :=
  set_SendQueue (repeat (MsgFinal "hello" 5) 5) (session_at "s1" one_session).

(** Silero with a pool of two. *)
Definition silero_global : VadFactory.GlobalConfig :=
  {| VadFactory.VAD_Provider := "silero_vad";
     VadFactory.VAD_PoolSize := 2;
     VadFactory.VAD_SileroVAD_BufferSizeSeconds := f32 10 |}.

End SessionFixtures.

End Fixtures.

(** * Verified properties *)

(** ** The order of floating-point comparisons *)

Ltac case_pos a b :=
  let X := fresh "X" in
  pose proof (Pos.compare_spec a b) as X; unfold Pos.compare in X;
  destruct X.

Ltac float_cases :=
  repeat match goal with s : bool |- _ => destruct s end; simpl;
  try congruence.

Section FloatOrder.

Lemma SFltb_trans (a b c : spec_float) :
  SFltb a b = true -> SFltb b c = true -> SFltb a c = true.
Proof.
  unfold SFltb.
  destruct a as [sa|sa| |sa ma ea], b as [sb|sb| |sb mb eb],
           c as [sc|sc| |sc mc ec]; simpl; float_cases.
  all: destruct (Z.compare_spec ea eb), (Z.compare_spec eb ec),
         (Z.compare_spec ea ec); subst; try lia; try congruence.
  all: case_pos ma mb; case_pos mb mc; case_pos ma mc;
         subst; simpl; try lia; try congruence.
Qed.



Lemma SFltb_leb (a b : spec_float) : SFltb a b = true -> SFleb a b = true.
Proof. unfold SFltb, SFleb. destruct (SFcompare a b) as [[]|]; congruence. Qed.


End FloatOrder.

(** ** Machine numbers on concrete inputs *)

Section NumberExamples.
Import Fixtures.

(** Little-endian int16 samples: 0x8000 is -32768, 0xFFFF is -1. *)
Example sample_of_extremes :
  Session.sample_of Byte.x00 Byte.x80 = -32768 /\
  Session.sample_of Byte.xff Byte.xff = -1 /\
  Session.sample_of Byte.xff Byte.x7f = 32767 /\
  Session.sample_of Byte.x01 Byte.x02 = 513.
Proof. repeat split. Qed.

(** With the factor 32768 the most negative sample becomes -1.0 and a
    trailing odd byte is not read. *)
Example to_float32_full_scale :
  Session.to_float32 (f32 32768) [Byte.x00; Byte.x80; Byte.x00; Byte.x40;
                                  Byte.x07] =
  [f32 (-1); half].
Proof. vm_compute. reflexivity. Qed.

(** [int(x)] discards the fraction, towards zero. *)
Example to_int_truncates :
  F64.to_int (F64.div (F64.of_int 7) (F64.of_int 2)) = Some 3 /\
  F64.to_int (F64.div (F64.of_int (-7)) (F64.of_int 2)) = Some (-3) /\
  F64.to_int (F64.div (F64.of_int 1) (F64.of_int 0)) = None.
Proof. repeat split. Qed.

(** Cosines of small vectors: parallel 1, opposite -1, and 24/25 rounded to
    float32 for (3,4) against (4,3). *)
Example cosine_values :
  Speaker.cosineSimilarity [f32 1; f32 2] [f32 2; f32 4] = f32 1 /\
  Speaker.cosineSimilarity [f32 1; f32 0] [f32 (-1); f32 0] = f32 (-1) /\
  Speaker.cosineSimilarity [f32 3; f32 4] [f32 4; f32 3] =
    S754_finite false 16106127 (-24) /\
  Speaker.calculateSimilarity [f32 1; f32 0] [[f32 (-1); f32 0]] = F32.zero.
Proof. repeat split; vm_compute; reflexivity. Qed.

End NumberExamples.

(** ** Similarity scores (package speaker) *)

Section Similarity.
Import Speaker.

Lemma max_step_cases (q : Embedding) (m : F32.t) (v : Embedding) :
  (max_step q m v = m /\ F32.ltb m (cosineSimilarity q v) = false) \/
  (max_step q m v = cosineSimilarity q v /\
   F32.ltb m (cosineSimilarity q v) = true).
Proof.
  unfold max_step. destruct (F32.ltb m (cosineSimilarity q v)); auto.
Qed.

(** The running maximum only moves up. *)
Lemma fold_max_mono (q : Embedding) (stored : list Embedding) (m0 : F32.t) :
  fold_left (max_step q) stored m0 = m0 \/
  F32.ltb m0 (fold_left (max_step q) stored m0) = true.
Proof.
  revert m0. induction stored as [|v rest IH]; intros m0; simpl; [auto|].
  destruct (max_step_cases q m0 v) as [[-> _]|[-> Hlt]]; [apply IH|].
  right. destruct (IH (cosineSimilarity q v)) as [->|H]; [exact Hlt|].
  unfold F32.ltb in *. eapply SFltb_trans; eassumption.
Qed.









End Similarity.

(** ** The speaker manager *)

Section SpeakerManager.
Import Speaker.
Context {E : Engine}.

Lemma saveDatabase_speakers (env : SaveEnv) (w : World) :
  Speakers (database (mgr (snd (saveDatabase env w)))) =
  Speakers (database (mgr w)).
Proof. unfold saveDatabase. destruct (save_outcome env); reflexivity. Qed.


(** C3. [VerifySpeaker] fails with the not-found error exactly when the
    database has no record for the id; when the record exists and extraction
    succeeds it returns the confidence computed by [calculateSimilarity]
    (the maximum cosine against the record's vectors) and verified = true
    exactly when threshold <= confidence; the world (database, index, files)
    is returned unchanged in every case. *)
Theorem VerifySpeaker_spec
    (speakerID : string) (audio : list F32.t) (rate : Z) (w : World) :
  ((exists id', fst (VerifySpeaker speakerID audio rate w)
                = inr (ErrNotFound id')) <->
   Speakers (database (mgr w)) !! speakerID = None) /\
  (forall (rec : SpeakerData) (emb : Embedding),
     Speakers (database (mgr w)) !! speakerID = Some rec ->
     extractEmbedding audio rate = inl emb ->
     exists r : VerifyResult,
       fst (VerifySpeaker speakerID audio rate w) = inl r /\
       vr_Confidence r = calculateSimilarity emb (Embeddings rec) /\
       vr_Threshold r = threshold (mgr w) /\
       (Verified r = true <->
        F32.leb (threshold (mgr w)) (vr_Confidence r) = true)) /\
  snd (VerifySpeaker speakerID audio rate w) = w.
Proof.
  unfold VerifySpeaker.
  destruct (Speakers (database (mgr w)) !! speakerID) as [rec|] eqn:Hlook;
    simpl.
  - destruct (extractEmbedding audio rate) as [emb|err] eqn:Hemb; simpl.
    + split; [|split; [|reflexivity]].
      * split; [intros [id' Hid]; discriminate|discriminate].
      * intros rec' emb' Hrec Hemb'.
        injection Hrec as <-. injection Hemb' as <-.
        eexists. split; [reflexivity|]. simpl. tauto.
    + split; [|split; [|reflexivity]].
      * split; [intros [id' Hid]; discriminate|discriminate].
      * intros rec' emb' _ Hemb'. discriminate.
  - split; [|split; [|reflexivity]].
    + split; [reflexivity|]. intros _. exists speakerID. reflexivity.
    + intros rec' emb' Hrec. discriminate.
Qed.

(** C4. When extraction succeeds and the index reports no match (the empty
    string), and likewise whenever the database is empty, [IdentifySpeaker]
    returns, without error, the result with identified = false, empty
    speaker id and name, and confidence 0. *)
Theorem IdentifySpeaker_no_match
    (audio : list F32.t) (rate : Z) (w : World) (emb : Embedding) :
  extractEmbedding audio rate = inl emb ->
  index_search emb (threshold (mgr w)) (manager (mgr w)) = EmptyString \/
  Speakers (database (mgr w)) = ∅ ->
  IdentifySpeaker audio rate w =
  (inl {| Identified := false; ir_SpeakerID := EmptyString;
          ir_SpeakerName := EmptyString; ir_Confidence := F32.zero;
          ir_Threshold := threshold (mgr w) |}, w).
Proof.
  intros Hemb Hno. unfold IdentifySpeaker. rewrite Hemb. cbv zeta.
  destruct Hno as [-> | Hempty]; [reflexivity|].
  rewrite Hempty, lookup_empty.
  destruct (negb (String.eqb _ _)); reflexivity.
Qed.




End SpeakerManager.

(** ** The speaker manager on concrete inputs *)

Section SpeakerExamples.
Import Speaker Fixtures.



(** A clip orthogonal to the one enrolled scores below the threshold: the
    index finds nobody. *)
Lemma IdentifySpeaker_no_match_witness :
  IdentifySpeaker [f32 0; f32 1] 16000 alice_world =
  (inl {| Identified := false; ir_SpeakerID := EmptyString;
          ir_SpeakerName := EmptyString; ir_Confidence := F32.zero;
          ir_Threshold := half |}, alice_world).
Proof.
  apply (IdentifySpeaker_no_match (E := toy_engine)
           [f32 0; f32 1] 16000 alice_world [f32 0; f32 1]).
  - reflexivity.
  - left. vm_compute. reflexivity.
Defined.


(** With this index the second enrolment is refused by [RegisterV], yet
    the record in memory already has both samples. *)
Example second_registration_refused :
  fst (RegisterSpeaker (reg_env 20 (save_ok 21)) "u1" "Alicia" clip_b 16000
         alice_world) = Some ErrRegisterMemory.
Proof. reflexivity. Qed.

(** An id that was never enrolled is not found, before any extraction. *)
Example verify_unknown_speaker :
  fst (VerifySpeaker "u2" [] 16000 alice_world) = inr (ErrNotFound "u2").
Proof. reflexivity. Qed.

(** Identifying the enrolled clip finds "u1" with confidence 1. *)
Example identify_enrolled_clip :
  exists r, fst (IdentifySpeaker clip_a 16000 alice_world) = inl r /\
            Identified r = true /\ ir_SpeakerID r = "u1" /\
            ir_SpeakerName r = "Alice" /\ ir_Confidence r = f32 1.
Proof. eexists. split; [reflexivity|]. repeat split; vm_compute; reflexivity. Qed.

(** Verifying the enrolled clip: confidence 1, verified. *)
Example verify_enrolled_clip :
  exists r, fst (VerifySpeaker "u1" clip_a 16000 alice_world) = inl r /\
            vr_Confidence r = f32 1 /\ Verified r = true.
Proof. eexists. split; [reflexivity|]. split; vm_compute; reflexivity. Qed.

End SpeakerExamples.

(** ** The VAD pool *)

Section PoolCounting.
Import Pool.
Context {V : Vad}.

Lemma wrap64_small (z : Z) : - 2 ^ 63 <= z < 2 ^ 63 -> GoInt.wrap64 z = z.
Proof.
  intros H. unfold GoInt.wrap64.
  rewrite Z.mod_small by lia. lia.
Qed.

Lemma wrap64_add (z d : Z) :
  GoInt.add64 (GoInt.wrap64 z) d = GoInt.wrap64 (z + d).
Proof.
  unfold GoInt.add64, GoInt.wrap64. f_equal.
  replace ((z + 2 ^ 63) mod 2 ^ 64 - 2 ^ 63 + d + 2 ^ 63)
    with ((z + 2 ^ 63) mod 2 ^ 64 + d) by lia.
  rewrite Zplus_mod_idemp_l. f_equal. lia.
Qed.

(** Counting with a decidable predicate under an update in place. *)
Lemma length_filter_insert {A} (P : A -> Prop) `{!forall x, Decision (P x)}
    (l : list A) (i : nat) (x y : A) :
  l !! i = Some x ->
  (length (filter P (<[i := y]> l)) + (if decide (P x) then 1 else 0) =
   length (filter P l) + (if decide (P y) then 1 else 0))%nat.
Proof.
  revert i. induction l as [|z l IH]; intros i Hi; [discriminate|].
  destruct i as [|i]; simpl in *.
  - injection Hi as ->. rewrite !filter_cons.
    destruct (decide (P x)), (decide (P y)); simpl; lia.
  - specialize (IH i Hi). rewrite !filter_cons.
    destruct (decide (P z)); simpl; lia.
Qed.

Lemma length_filter_snoc {A} (P : A -> Prop) `{!forall x, Decision (P x)}
    (l : list A) (y : A) :
  length (filter P (l ++ [y])) =
  (length (filter P l) + (if decide (P y) then 1 else 0))%nat.
Proof.
  rewrite filter_app, length_app, filter_cons, filter_nil.
  destruct (decide (P y)); reflexivity.
Qed.

Lemma in_use_le_transient_pooled (h : list SileroVADInstance) :
  (in_use_count h <= transient_outstanding h + pooled_count h)%nat.
Proof.
  unfold in_use_count, transient_outstanding, pooled_count.
  induction h as [|i h IH]; [reflexivity|].
  rewrite !filter_cons.
  destruct (decide (InUse i = 1)), (decide (ID i = -1 /\ InUse i = 1)),
    (decide (ID i <> -1)); simpl; lia.
Qed.

Lemma Reset_fields (i : SileroVADInstance) :
  ID (Reset i) = ID i /\ InUse (Reset i) = InUse i /\
  LastUsed (Reset i) = LastUsed i.
Proof. unfold Reset. destruct (VAD i); simpl; auto. Qed.

Lemma Destroy_fields (i : SileroVADInstance) :
  ID (Destroy i) = ID i /\ InUse (Destroy i) = InUse i /\ VAD (Destroy i) = None.
Proof. unfold Destroy. destruct (VAD i) eqn:H; simpl; auto. Qed.

Lemma reset_loop_empties (n : nat) (d : Detector) :
  (length (det_queue d) <= n)%nat -> det_queue (reset_loop n d) = [].
Proof.
  revert d. induction n as [|n IH]; intros [st q] Hq; simpl in *.
  - destruct q; [reflexivity|simpl in Hq; lia].
  - destruct q as [|x q]; simpl; [reflexivity|].
    apply IH. simpl in *. lia.
Qed.

(** [Reset] keeps the detector and leaves its segment queue empty. *)
Lemma Reset_VAD (i : SileroVADInstance) (d : Detector) :
  VAD i = Some d ->
  exists d', VAD (Reset i) = Some d' /\ det_queue d' = [].
Proof.
  intros H. unfold Reset. rewrite H. simpl. eexists. split; [reflexivity|].
  apply reset_loop_empties. lia.
Qed.

(** C1 (as the code has it). [Put] does not look at the instance's ID.
    For a transient instance (ID -1, in-use flag 1) on an open pool it clears
    the flag and resets the detector; when the available-queue has room the
    instance is re-queued at its end with its detector kept; it is destroyed,
    and the queue left as it was, exactly when the queue is full. *)
Theorem Put_transient (now : Time) (a : nat) (w : World)
    (i : SileroVADInstance) (d : Detector) :
  heap w !! a = Some i ->
  ID i = -1 -> InUse i = 1 -> VAD i = Some d ->
  chan_closed (pool w) = false ->
  exists i' : SileroVADInstance,
    fst (Put now (Some a) w) = PutReturn /\
    heap (snd (Put now (Some a) w)) !! a = Some i' /\
    ID i' = -1 /\ InUse i' = 0 /\
    if has_room (pool w)
    then available (pool (snd (Put now (Some a) w))) =
           available (pool w) ++ [a] /\
         exists d', VAD i' = Some d' /\ det_queue d' = []
    else available (pool (snd (Put now (Some a) w))) = available (pool w) /\
         VAD i' = None.
Proof.
  intros Hlook Hid Huse Hvad Hopen.
  pose proof (lookup_lt_Some _ _ _ Hlook) as Hlt.
  unfold Put. rewrite Hlook, Huse. simpl. rewrite Hopen.
  change (has_room (add_counters 0 0 (-1) (pool w))) with (has_room (pool w)).
  set (i1 := Reset (SetLastUsed now (set_InUse 0 i))).
  destruct (Reset_fields (SetLastUsed now (set_InUse 0 i))) as (Hid1 & Huse1 & _).
  destruct (has_room (pool w)); simpl.
  - exists i1. rewrite list_lookup_insert_eq by exact Hlt.
    repeat split; try reflexivity.
    + unfold i1. rewrite Hid1. exact Hid.
    + unfold i1. rewrite Huse1. reflexivity.
    + apply (Reset_VAD (SetLastUsed now (set_InUse 0 i)) d). exact Hvad.
  - exists (Destroy i1). rewrite list_lookup_insert_eq by exact Hlt.
    destruct (Destroy_fields i1) as (Hid2 & Huse2 & Hvad2).
    repeat split; try reflexivity.
    + rewrite Hid2. unfold i1. rewrite Hid1. exact Hid.
    + rewrite Huse2. unfold i1. rewrite Huse1. reflexivity.
    + exact Hvad2.
Qed.

Lemma init_one_inv (cfg : SileroVADConfig) (env : InitEnv) (k errs : nat)
    (w : World) :
  init_inv cfg k w -> (k < Z.to_nat (PoolSize cfg))%nat ->
  init_inv cfg (S k) (fst (init_one env k (w, errs))).
Proof.
  intros (Hopen & Hav & Hins & Hlen & Hall & Hact & Hcfg) Hk.
  unfold init_one. destruct (init_vad env k) as [vad|]; simpl.
  - assert (Hroom : has_room (set_instances
                      (instances (pool w) ++ [length (heap w)]) (pool w))
                    = true).
    { unfold has_room, capacity. simpl. rewrite Hav, length_seq, Hcfg.
      apply Z.ltb_lt. lia. }
    rewrite Hroom. simpl.
    unfold init_inv; simpl. rewrite length_app. simpl.
    rewrite Nat.add_1_r, seq_S. simpl. rewrite Hav, Hins, Hact.
    repeat split; try assumption; try reflexivity; try lia.
    apply Forall_app. split; [exact Hall|].
    constructor; [|constructor]. simpl. split; [reflexivity|lia].
  - unfold init_inv. repeat split; try assumption. lia.
Qed.

Lemma init_loop_inv (cfg : SileroVADConfig) (env : InitEnv) (m : nat) :
  forall (s errs : nat) (w : World),
    init_inv cfg s w -> (s + m <= Z.to_nat (PoolSize cfg))%nat ->
    init_inv cfg (s + m)
      (fst (fold_left (fun st i => init_one env i st) (seq s m) (w, errs))).
Proof.
  induction m as [|m IH]; intros s errs w Hinv Hle.
  - simpl. rewrite Nat.add_0_r. exact Hinv.
  - change (seq s (S m)) with (s :: seq (S s) m). cbn [fold_left].
    destruct (init_one env s (w, errs)) as [w1 errs1] eqn:Hone.
    replace (s + S m)%nat with (S s + m)%nat by lia.
    apply IH; [|lia].
    replace w1 with (fst (init_one env s (w, errs))) by (rewrite Hone; reflexivity).
    apply init_one_inv; [exact Hinv|lia].
Qed.

Lemma filter_none {A} (P : A -> Prop) `{!forall x, Decision (P x)}
    (l : list A) :
  Forall (fun x => ~ P x) l -> filter P l = [].
Proof.
  induction 1 as [|x l Hx _ IH]; [reflexivity|].
  rewrite filter_cons. destruct (decide (P x)); [contradiction|exact IH].
Qed.

Lemma length_filter_le {A} (P : A -> Prop) `{!forall x, Decision (P x)}
    (l : list A) :
  (length (filter P l) <= length l)%nat.
Proof.
  induction l as [|x l IH]; [reflexivity|].
  rewrite filter_cons. destruct (decide (P x)); simpl; lia.
Qed.

(** A booted pool satisfies the invariant, with nothing in use and as many
    instances queued as were built. *)
Lemma boot_inv (cfg : SileroVADConfig) (env : InitEnv) (w : World) :
  boot cfg env = Some w ->
  pool_inv w /\ in_use_count (heap w) = O /\
  config (pool w) = cfg /\
  length (available (pool w)) = length (instances (pool w)).
Proof.
  unfold boot, NewSileroVADPool.
  destruct (Z.ltb_spec (PoolSize cfg) 0) as [|Hsize]; [discriminate|].
  unfold Initialize. simpl.
  pose proof (init_loop_inv cfg env (Z.to_nat (PoolSize cfg)) 0 0
    {| heap := [];
       pool := {| instances := []; available := []; chan_closed := false;
                  config := cfg; totalCreated := 0; totalReused := 0;
                  totalActive := 0; ctx_done := false |} |}) as Hloop.
  simpl in Hloop.
  destruct (fold_left _ _ _) as [w' errs] eqn:Hfold. simpl in Hloop.
  assert (Hinv : init_inv cfg (Z.to_nat (PoolSize cfg)) w').
  { apply Hloop; [|lia]. unfold init_inv; simpl. repeat split; auto. }
  clear Hloop.
  destruct (negb (errs =? 0)%nat && (length (instances (pool w')) =? 0)%nat);
    [discriminate|].
  intros [= <-].
  destruct Hinv as (Hopen & Hav & Hins & Hlen & Hall & Hact & Hcfg).
  assert (Hcount : in_use_count (heap w') = O).
  { unfold in_use_count. rewrite filter_none; [reflexivity|].
    eapply Forall_impl; [exact Hall|]. simpl. intros i [Hi _]. lia. }
  split; [|split; [exact Hcount|split; [exact Hcfg|]]].
  - constructor.
    + exact Hopen.
    + rewrite Hav. apply NoDup_seq.
    + rewrite Hav. apply Forall_forall. intros a Ha.
      apply elem_of_seq in Ha.
      destruct (lookup_lt_is_Some_2 (heap w') a) as [i Hi]; [lia|].
      exists i. split; [exact Hi|].
      eapply Forall_lookup_1 in Hall; [|exact Hi]. tauto.
    + rewrite Hact, Hcount. reflexivity.
    + unfold capacity. rewrite Hav, length_seq, Hcfg. lia.
    + unfold capacity. rewrite Hins, length_seq, Hcfg. lia.
    + unfold capacity, pooled_count. rewrite Hcfg.
      pose proof (length_filter_le (fun i => ID i <> -1) (heap w')). lia.
    + rewrite Hav, Hins. lia.
  - rewrite Hav, Hins. reflexivity.
Qed.

Lemma in_use_insert_up (h : list SileroVADInstance) (a : nat)
    (i i' : SileroVADInstance) :
  h !! a = Some i -> InUse i = 0 -> InUse i' = 1 ->
  in_use_count (<[a := i']> h) = S (in_use_count h).
Proof.
  intros Hlook H0 H1. unfold in_use_count.
  pose proof (length_filter_insert (fun i => InUse i = 1) h a i i' Hlook) as H.
  destruct (decide (InUse i = 1)), (decide (InUse i' = 1)); lia.
Qed.

Lemma in_use_insert_down (h : list SileroVADInstance) (a : nat)
    (i i' : SileroVADInstance) :
  h !! a = Some i -> InUse i = 1 -> InUse i' = 0 ->
  S (in_use_count (<[a := i']> h)) = in_use_count h.
Proof.
  intros Hlook H1 H0. unfold in_use_count.
  pose proof (length_filter_insert (fun i => InUse i = 1) h a i i' Hlook) as H.
  destruct (decide (InUse i = 1)), (decide (InUse i' = 1)); lia.
Qed.

Lemma pooled_insert (h : list SileroVADInstance) (a : nat)
    (i i' : SileroVADInstance) :
  h !! a = Some i -> ID i' = ID i ->
  pooled_count (<[a := i']> h) = pooled_count h.
Proof.
  intros Hlook Hid. unfold pooled_count.
  pose proof (length_filter_insert (fun i => ID i <> -1) h a i i' Hlook) as H.
  destruct (decide (ID i <> -1)), (decide (ID i' <> -1)); lia.
Qed.

Lemma idle_insert (h : list SileroVADInstance) (a : nat)
    (i' : SileroVADInstance) (l : list nat) :
  Forall (fun b => exists i, h !! b = Some i /\ InUse i = 0) l ->
  a ∉ l ->
  Forall (fun b => exists i, <[a := i']> h !! b = Some i /\ InUse i = 0) l.
Proof.
  intros Hall Hnot. apply Forall_forall. intros b Hb.
  rewrite Forall_forall in Hall. destruct (Hall b Hb) as (i & Hi & H0).
  exists i. split; [|exact H0].
  rewrite list_lookup_insert_ne; [exact Hi|]. intros ->. contradiction.
Qed.

Lemma idle_snoc (h : list SileroVADInstance) (x : SileroVADInstance)
    (l : list nat) :
  Forall (fun b => exists i, h !! b = Some i /\ InUse i = 0) l ->
  Forall (fun b => exists i, (h ++ [x]) !! b = Some i /\ InUse i = 0) l.
Proof.
  intros Hall. eapply Forall_impl; [exact Hall|]. simpl.
  intros b (i & Hi & H0). exists i. split; [|exact H0].
  apply lookup_app_l_Some. exact Hi.
Qed.

(** An address whose instance is in use is not queued. *)
Lemma in_use_not_queued (w : World) (a : nat) (i : SileroVADInstance) :
  pool_inv w -> heap w !! a = Some i -> InUse i = 1 ->
  a ∉ available (pool w).
Proof.
  intros Hinv Hlook H1 Hin.
  pose proof (inv_idle w Hinv) as Hidle. rewrite Forall_forall in Hidle.
  destruct (Hidle a Hin) as (i0 & Hi0 & H0). congruence.
Qed.

(** [Get] finishes on its first round and keeps the invariant. *)
Lemma Get_inv (fuel : nat) (env : GetEnv) (w : World) :
  pool_inv w ->
  exists out w', Get (S fuel) env w = Some (out, w') /\ pool_inv w' /\
    config (pool w') = config (pool w) /\
    instances (pool w') = instances (pool w).
Proof.
  intros Hinv.
  assert (Hsame : forall out : GetOutcome, exists out' w',
            Some (out, w) = Some (out', w') /\ pool_inv w' /\
            config (pool w') = config (pool w) /\
            instances (pool w') = instances (pool w)) by eauto 8.
  pose proof Hinv as [Hopen Hnd Hidle Hact Hcap Hsize Hpool Hfloor].
  unfold capacity in *.
  simpl. destruct (available (pool w)) as [|a rest] eqn:Hav.
  - rewrite Hopen. destruct (ctx_done (pool w)); [apply Hsame|].
    unfold createNewInstance.
    destruct (get_new_vad env) as [vad|]; [|apply Hsame].
    do 2 eexists. split; [reflexivity|]. split; [|auto].
    assert (Hc : in_use_count
              (heap w ++ [{| ID := -1; VAD := Some vad;
                             LastUsed := get_now env; InUse := 1 |}])
            = S (in_use_count (heap w))).
    { unfold in_use_count. rewrite length_filter_snoc. simpl. lia. }
    constructor; unfold capacity; simpl; rewrite ?Hav.
    + exact Hopen.
    + exact Hnd.
    + constructor.
    + rewrite Hc, Hact, wrap64_add. f_equal. lia.
    + exact Hcap.
    + exact Hsize.
    + unfold pooled_count in *. rewrite length_filter_snoc. simpl. lia.
    + rewrite Hc. simpl in Hfloor. lia.
  - destruct (ctx_done (pool w) && get_prefer_done env); [apply Hsame|].
    inversion Hidle as [|? ? (i & Hi & H0) Hidle']; subst.
    inversion Hnd as [|? ? Hnotin Hnd']; subst.
    rewrite Hi, H0. simpl.
    do 2 eexists. split; [reflexivity|]. split; [|auto].
    set (i' := SetLastUsed (get_now env) (set_InUse 1 i)).
    assert (Hc : in_use_count (<[a := i']> (heap w)) = S (in_use_count (heap w))).
    { eapply in_use_insert_up; [exact Hi|exact H0|reflexivity]. }
    constructor; unfold capacity; simpl.
    + exact Hopen.
    + exact Hnd'.
    + apply idle_insert; assumption.
    + rewrite Hc, Hact, wrap64_add. f_equal. lia.
    + simpl in Hcap. lia.
    + exact Hsize.
    + erewrite pooled_insert; [exact Hpool|exact Hi|reflexivity].
    + rewrite Hc. simpl in Hfloor. lia.
Qed.

(** [Put] keeps the invariant, whatever handle it is given. *)
Lemma Put_inv (now : Time) (instance : option nat) (w : World) :
  pool_inv w ->
  pool_inv (snd (Put now instance w)) /\
  config (pool (snd (Put now instance w))) = config (pool w) /\
  instances (pool (snd (Put now instance w))) = instances (pool w).
Proof.
  intros Hinv. unfold Put.
  destruct instance as [a|]; [|auto].
  destruct (heap w !! a) as [i|] eqn:Hi; [|auto].
  destruct (Z.eqb_spec (InUse i) 1) as [H1|]; [|auto].
  pose proof (in_use_not_queued w a i Hinv Hi H1) as Hnotin.
  destruct Hinv as [Hopen Hnd Hidle Hact Hcap Hsize Hpool Hfloor].
  unfold capacity in *.
  set (i1 := Reset (SetLastUsed now (set_InUse 0 i))).
  destruct (Reset_fields (SetLastUsed now (set_InUse 0 i)))
    as (Hid1 & Huse1 & _).
  assert (H10 : InUse i1 = 0) by (unfold i1; rewrite Huse1; reflexivity).
  assert (Hid : ID i1 = ID i) by (unfold i1; rewrite Hid1; reflexivity).
  pose proof (lookup_lt_Some _ _ _ Hi) as Hlt.
  simpl. rewrite Hopen.
  change (has_room (add_counters 0 0 (-1) (pool w))) with (has_room (pool w)).
  destruct (has_room (pool w)) eqn:Hroom; simpl.
  - split; [|auto].
    pose proof (in_use_insert_down (heap w) a i i1 Hi H1 H10) as Hc.
    unfold has_room, capacity in Hroom. apply Z.ltb_lt in Hroom.
    constructor; unfold capacity; simpl.
    + exact Hopen.
    + apply NoDup_app. repeat split; [exact Hnd| |apply NoDup_singleton].
      intros x Hx Hx'. apply list_elem_of_singleton in Hx'. subst. contradiction.
    + apply Forall_app. split; [apply idle_insert; assumption|].
      constructor; [|constructor].
      exists i1. split; [apply list_lookup_insert_eq; exact Hlt|exact H10].
    + rewrite Hact, wrap64_add. f_equal. lia.
    + rewrite length_app. simpl. lia.
    + exact Hsize.
    + erewrite pooled_insert; [exact Hpool|exact Hi|exact Hid].
    + rewrite length_app. simpl. lia.
  - split; [|auto].
    destruct (Destroy_fields i1) as (Hid2 & Huse2 & _).
    assert (H20 : InUse (Destroy i1) = 0) by (rewrite Huse2; exact H10).
    pose proof (in_use_insert_down (heap w) a i (Destroy i1) Hi H1 H20) as Hc.
    unfold has_room, capacity in Hroom. apply Z.ltb_ge in Hroom.
    constructor; unfold capacity; simpl.
    + exact Hopen.
    + exact Hnd.
    + apply idle_insert; assumption.
    + rewrite Hact, wrap64_add. f_equal. lia.
    + exact Hcap.
    + exact Hsize.
    + erewrite pooled_insert; [exact Hpool|exact Hi|]. rewrite Hid2. exact Hid.
    + lia.
Qed.

Lemma run_inv (ops : list Op) :
  forall w : World, pool_inv w ->
    exists w', run ops w = Some w' /\ pool_inv w' /\
      config (pool w') = config (pool w) /\
      instances (pool w') = instances (pool w).
Proof.
  induction ops as [|op ops IH]; intros w Hinv; simpl.
  - eauto.
  - destruct op as [env|now instance]; cbn [step].
    + destruct (Get_inv (length (available (pool w))) env w Hinv)
        as (out & w1 & -> & Hinv1 & Hcfg1 & Hins1).
      destruct (IH w1 Hinv1) as (w' & Hrun & Hinv' & Hcfg & Hins).
      exists w'. rewrite Hcfg, Hins, Hcfg1, Hins1. auto.
    + destruct (Put_inv now instance w Hinv) as (Hinv1 & Hcfg1 & Hins1).
      destruct (IH _ Hinv1) as (w' & Hrun & Hinv' & Hcfg & Hins).
      exists w'. rewrite Hcfg, Hins, Hcfg1, Hins1. auto.
Qed.

(** C9 (as the code has it). After any sequence of [Get]/[Put] calls on a
    booted pool (every call finishes): the active count is the number of
    instances whose in-use flag is 1 (read as an int64; exactly so below
    2^63 instances) and then never exceeds pool_size plus the number of
    transient instances in use; the instances built at start-up never
    outnumber the queued plus the active ones, and the queue never holds
    more than pool_size; so when nothing is in use and all pool_size
    instances were built, available_count + active_count =
    total_instances. *)
Theorem pool_counts (cfg : SileroVADConfig) (env : InitEnv) (w0 : World)
    (ops : list Op) :
  boot cfg env = Some w0 ->
  exists w : World,
    run ops w0 = Some w /\
    active_count (GetStats w) =
      GoInt.wrap64 (Z.of_nat (in_use_count (heap w))) /\
    (Z.of_nat (length (heap w)) < 2 ^ 63 ->
     active_count (GetStats w) = Z.of_nat (in_use_count (heap w)) /\
     active_count (GetStats w) <=
       pool_size (GetStats w) + Z.of_nat (transient_outstanding (heap w))) /\
    total_instances (GetStats w) <=
      available_count (GetStats w) + Z.of_nat (in_use_count (heap w)) /\
    available_count (GetStats w) <= pool_size (GetStats w) /\
    (in_use_count (heap w) = O ->
     total_instances (GetStats w) = pool_size (GetStats w) ->
     available_count (GetStats w) + active_count (GetStats w) =
       total_instances (GetStats w)).
Proof.
  intros Hboot.
  destruct (boot_inv cfg env w0 Hboot) as (Hinv0 & _).
  destruct (run_inv ops w0 Hinv0) as (w & Hrun & Hinv & _).
  exists w. split; [exact Hrun|].
  destruct Hinv as [Hopen Hnd Hidle Hact Hcap Hsize Hpool Hfloor].
  unfold GetStats, capacity in *. simpl.
  split; [exact Hact|]. split; [|split; [lia|split; [exact Hcap|]]].
  - intros Hbound.
    assert (Hsmall : Z.of_nat (in_use_count (heap w)) < 2 ^ 63).
    { pose proof (length_filter_le (fun i => InUse i = 1) (heap w)).
      unfold in_use_count. lia. }
    rewrite Hact, wrap64_small by lia. split; [reflexivity|].
    pose proof (in_use_le_transient_pooled (heap w)). lia.
  - intros Hquiet Hfull. rewrite Hact, Hquiet. simpl.
    rewrite wrap64_small by lia. lia.
Qed.

End PoolCounting.

Section PoolExamples.
Import Pool Fixtures.

(** C1 fails as stated.  On a pool of size 1, the second [Get] times out
    and returns a transient instance (address 1, ID -1, flag 1); its [Put]
    finds the queue empty and re-queues it, detector intact: the queue then
    holds the transient instance, which the next [Get] hands out again. *)
Lemma transient_put_requeues :
  Get 1 (get_env 20) (world_of (run [OpGet (get_env 10)] pool1)) =
    Some (GetOk 1%nat, pool1_exhausted) /\
  (exists i, heap pool1_exhausted !! 1%nat = Some i /\
             ID i = -1 /\ InUse i = 1) /\
  available (pool pool1_exhausted) = [] /\
  (let w := snd (Put 30 (Some 1%nat) pool1_exhausted) in
   available (pool w) = [1%nat] /\
   (exists i d, heap w !! 1%nat = Some i /\ ID i = -1 /\ VAD i = Some d) /\
   exists w', Get 1 (get_env 40) w = Some (GetOk 1%nat, w')).
Proof.
  split; [reflexivity|]. split; [eexists; repeat split; reflexivity|].
  split; [reflexivity|]. cbv zeta. split; [reflexivity|].
  split; [eexists; eexists; repeat split; reflexivity|].
  eexists. reflexivity.
Qed.

(** The transient instance of [pool1_exhausted] is returned while the queue
    is empty. *)
Lemma Put_transient_witness :
  exists i' : SileroVADInstance,
    fst (Put 30 (Some 1%nat) pool1_exhausted) = PutReturn /\
    heap (snd (Put 30 (Some 1%nat) pool1_exhausted)) !! 1%nat = Some i' /\
    ID i' = -1 /\ InUse i' = 0 /\
    if has_room (pool pool1_exhausted)
    then available (pool (snd (Put 30 (Some 1%nat) pool1_exhausted))) =
           available (pool pool1_exhausted) ++ [1%nat] /\
         exists d', VAD i' = Some d' /\ det_queue d' = []
    else available (pool (snd (Put 30 (Some 1%nat) pool1_exhausted))) =
           available (pool pool1_exhausted) /\
         VAD i' = None.
Proof.
  apply (Put_transient (V := toy_vad) 30 1%nat pool1_exhausted
           {| ID := -1; VAD := Some toy_detector; LastUsed := 20; InUse := 1 |}
           toy_detector); reflexivity.
Defined.

(** A fully built pool of size 1 through Get, Get, Put, Put. *)
Lemma pool_counts_witness :
  exists w : World,
    run [OpGet (get_env 10); OpGet (get_env 20); OpPut 30 (Some 1%nat);
         OpPut 40 (Some 0%nat)] pool1 = Some w /\
    active_count (GetStats w) =
      GoInt.wrap64 (Z.of_nat (in_use_count (heap w))) /\
    (Z.of_nat (length (heap w)) < 2 ^ 63 ->
     active_count (GetStats w) = Z.of_nat (in_use_count (heap w)) /\
     active_count (GetStats w) <=
       pool_size (GetStats w) + Z.of_nat (transient_outstanding (heap w))) /\
    total_instances (GetStats w) <=
      available_count (GetStats w) + Z.of_nat (in_use_count (heap w)) /\
    available_count (GetStats w) <= pool_size (GetStats w) /\
    (in_use_count (heap w) = O ->
     total_instances (GetStats w) = pool_size (GetStats w) ->
     available_count (GetStats w) + active_count (GetStats w) =
       total_instances (GetStats w)).
Proof.
  apply (pool_counts (V := toy_vad) (pool_config 1) init_all pool1).
  reflexivity.
Defined.

(** C9 fails as stated.  A pool of size 2 in which only instance 0 could be
    built boots with total_instances = 1.  Get, Get (a transient instance),
    Put, Put: every [Get] is matched by its [Put] and no flag is 1, yet
    both instances fit the queue, so GetStats reports available_count = 2,
    active_count = 0 and total_instances = 1. *)
Lemma quiescent_counts_differ :
  boot (pool_config 2) init_first_only = Some pool2_partial /\
  exists w : World,
    run [OpGet (get_env 10); OpGet (get_env 20); OpPut 30 (Some 0%nat);
         OpPut 40 (Some 1%nat)] pool2_partial = Some w /\
    in_use_count (heap w) = O /\
    available_count (GetStats w) = 2 /\
    active_count (GetStats w) = 0 /\
    total_instances (GetStats w) = 1 /\
    available_count (GetStats w) + active_count (GetStats w) <>
      total_instances (GetStats w).
Proof.
  split; [reflexivity|]. eexists. split; [reflexivity|].
  repeat split; try reflexivity. discriminate.
Qed.

(** On a fully built pool the same kind of run ends with the queue holding
    as many instances as were built: the transient instance took the place
    of instance 0, which was destroyed on its return. *)
Example quiescent_full_pool :
  exists w : World,
    run [OpGet (get_env 10); OpGet (get_env 20); OpPut 30 (Some 1%nat);
         OpPut 40 (Some 0%nat)] pool1 = Some w /\
    available (pool w) = [1%nat] /\
    (exists i, heap w !! 0%nat = Some i /\ VAD i = None /\ InUse i = 0) /\
    available_count (GetStats w) = 1 /\ active_count (GetStats w) = 0 /\
    total_instances (GetStats w) = 1.
Proof.
  eexists. split; [reflexivity|]. split; [reflexivity|].
  split; [eexists; repeat split; reflexivity|]. repeat split.
Qed.

End PoolExamples.

(** ** The streaming pipeline (package session) *)

Section Streaming.
Import Config Session.
Context {V : Pool.Vad}.

Lemma GetSession_hit (now : Time) (sessionID : string) (w : World)
    (s : Session) :
  sessionID ∈ sessions (mgr w) ->
  objects (mgr w) !! sessionID = Some s ->
  GetSession now sessionID w =
  (Some (set_LastSeen now s), update_session sessionID (set_LastSeen now s) w).
Proof.
  intros Hreg Hobj. unfold GetSession.
  destruct (decide (sessionID ∈ sessions (mgr w))); [|contradiction].
  rewrite Hobj. reflexivity.
Qed.

Lemma odd_length_checks (audioData : list Byte.byte) :
  Z.of_nat (length audioData) mod 2 = 1 ->
  (Z.of_nat (length audioData) =? 0) = false /\
  negb (Z.rem (Z.of_nat (length audioData)) 2 =? 0) = true.
Proof.
  intros Hodd. split.
  - apply Z.eqb_neq. intros H. rewrite H in Hodd. discriminate.
  - rewrite Z.rem_mod_nonneg by lia. rewrite Hodd. reflexivity.
Qed.

(** What [ProcessAudioData] does for an open, registered session once the
    session holds instance [a]: it counts the frame, then rejects or
    converts it. *)
Lemma ProcessAudioData_with_instance (cfg : Config) (env : ProcessEnv)
    (sessionID : string) (audioData : list Byte.byte) (w : World)
    (s : Session) (a : nat) :
  sessionID ∈ sessions (mgr w) ->
  objects (mgr w) !! sessionID = Some s ->
  closed s = 0 -> VADInstance s = Some a ->
  exists (s2 : Session) (w2 : World),
    ProcessAudioData cfg env sessionID audioData w =
    Some (if Z.of_nat (length audioData) =? 0
          then (Return (Some ErrEmptyAudio), w2)
          else if negb (Z.rem (Z.of_nat (length audioData)) 2 =? 0)
          then (Return (Some (ErrInvalidLength (Z.of_nat (length audioData)))),
                w2)
          else processSileroVAD cfg env s2 sessionID
                 (to_float32 (NormalizeFactor cfg) audioData) w2) /\
    vad_calls w2 = vad_calls w /\ spawned w2 = spawned w /\
    vadPool w2 = vadPool w /\ sessions (mgr w2) = sessions (mgr w) /\
    objects (mgr w2) !! sessionID = Some s2 /\
    closed s2 = 0 /\ VADInstance s2 = Some a /\
    SendQueue s2 = SendQueue s.
Proof.
  intros Hreg Hobj Hopen Hvad.
  unfold ProcessAudioData.
  rewrite (GetSession_hit _ _ _ _ Hreg Hobj). simpl.
  rewrite Hopen, Hvad. simpl.
  do 2 eexists. split.
  - destruct (Z.of_nat (length audioData) =? 0); [reflexivity|].
    destruct (negb _); [reflexivity|]. rewrite Hvad. reflexivity.
  - simpl. rewrite lookup_insert_eq. auto 10.
Qed.

(** C7 (as the code has it). On a registered, open session that already
    holds a VAD instance, or gets one from the pool on this call, a frame of
    odd byte length makes [ProcessAudioData] return the invalid-length error;
    no waveform reaches a detector and no recognition is started; the session
    stays registered with closed = 0 and its send queue untouched; and any
    later frame of even, non-zero length is converted and handed to the
    Silero handler. *)
Theorem odd_frame_rejected (cfg : Config) (env : ProcessEnv)
    (sessionID : string) (audioData : list Byte.byte) (w : World)
    (s : Session) :
  sessionID ∈ sessions (mgr w) ->
  objects (mgr w) !! sessionID = Some s ->
  closed s = 0 ->
  (exists a, VADInstance s = Some a) \/
  (VADInstance s = None /\
   exists pw a pw',
     vadPool w = Some pw /\
     Pool.Get (S (length (Pool.available (Pool.pool pw)))) (pe_get env) pw =
       Some (Pool.GetOk a, pw')) ->
  Z.of_nat (length audioData) mod 2 = 1 ->
  exists (w' : World) (s' : Session) (a : nat),
    ProcessAudioData cfg env sessionID audioData w =
      Some (Return (Some (ErrInvalidLength (Z.of_nat (length audioData)))),
            w') /\
    vad_calls w' = vad_calls w /\ spawned w' = spawned w /\
    sessionID ∈ sessions (mgr w') /\
    objects (mgr w') !! sessionID = Some s' /\
    closed s' = 0 /\ VADInstance s' = Some a /\
    SendQueue s' = SendQueue s /\
    forall (env2 : ProcessEnv) (audio2 : list Byte.byte),
      audio2 <> [] -> Z.of_nat (length audio2) mod 2 = 0 ->
      exists (s2 : Session) (w2 : World),
        vad_calls w2 = vad_calls w' /\
        ProcessAudioData cfg env2 sessionID audio2 w' =
          Some (processSileroVAD cfg env2 s2 sessionID
                  (to_float32 (NormalizeFactor cfg) audio2) w2).
Proof.
  intros Hreg Hobj Hopen Hvad Hodd.
  destruct (odd_length_checks audioData Hodd) as (Hne & Hrem).
  assert (Hfirst : exists (w' : World) (s' : Session) (a : nat),
    ProcessAudioData cfg env sessionID audioData w =
      Some (Return (Some (ErrInvalidLength (Z.of_nat (length audioData)))),
            w') /\
    vad_calls w' = vad_calls w /\ spawned w' = spawned w /\
    sessions (mgr w') = sessions (mgr w) /\
    objects (mgr w') !! sessionID = Some s' /\
    closed s' = 0 /\ VADInstance s' = Some a /\
    SendQueue s' = SendQueue s).
  { destruct Hvad as [(a & Ha)|(Hnone & pw & a & pw' & Hpool & Hget)].
    - destruct (ProcessAudioData_with_instance cfg env sessionID audioData w s
                  a Hreg Hobj Hopen Ha)
        as (s2 & w2 & Hpad & Hcalls & Hsp & _ & Hsess & Hobj2 & Hcl & Hv & Hq).
      rewrite Hne, Hrem in Hpad. exists w2, s2, a. auto 10.
    - unfold ProcessAudioData.
      rewrite (GetSession_hit _ _ _ _ Hreg Hobj). cbn -[Pool.Get].
      rewrite Hopen, Hnone, Hpool. cbn -[Pool.Get]. rewrite Hget.
      cbn -[Pool.Get]. rewrite Hne, Hrem.
      do 3 eexists. split; [reflexivity|]. simpl.
      rewrite lookup_insert_eq. auto 10. }
  destruct Hfirst as (w' & s' & a & Hpad & Hcalls & Hsp & Hsess & Hobj' & Hcl
                      & Hv & Hq).
  exists w', s', a.
  assert (Hreg' : sessionID ∈ sessions (mgr w')) by (rewrite Hsess; exact Hreg).
  repeat (split; [assumption|]).
  intros env2 audio2 Hnonempty Heven.
  destruct (ProcessAudioData_with_instance cfg env2 sessionID audio2 w' s' a
              Hreg' Hobj' Hcl Hv)
    as (s2 & w2 & Hpad2 & Hcalls2 & _).
  exists s2, w2. split; [exact Hcalls2|]. rewrite Hpad2.
  assert (Hlen : (Z.of_nat (length audio2) =? 0) = false).
  { apply Z.eqb_neq. destruct audio2; [contradiction|]. simpl length. lia. }
  rewrite Hlen. rewrite Z.rem_mod_nonneg by lia. rewrite Heven. reflexivity.
Qed.

(** *** Draining the detector *)

Lemma map_task_samples (env : ProcessEnv) (rate : Z) (sessionID : string)
    (l : list (list F32.t)) :
  forall i : nat, map task_samples (make_tasks env rate sessionID i l) = l.
Proof.
  induction l as [|x l IH]; intros i; simpl; [reflexivity|].
  rewrite IH. reflexivity.
Qed.

(** With the session open, the loop either collects what [kept] says and
    leaves the queue empty, or stops at a slice panic or at an unspecified
    conversion. *)
Lemma drain_open (cfg : Config) (queue : list (option Pool.SpeechSegment)) :
  forall acc : list (list F32.t),
    (exists rest, drain cfg 0 queue acc = (DrainPanic, rest)) \/
    (exists rest, drain cfg 0 queue acc = (DrainUnspecified, rest)) \/
    drain cfg 0 queue acc = (Drained (acc ++ kept cfg queue), []).
Proof.
  induction queue as [|seg queue IH]; intros acc; simpl.
  - right; right. rewrite app_nil_r. reflexivity.
  - unfold kept in *. simpl. unfold kept_of at 1.
    destruct seg as [seg|]; [|apply IH].
    destruct (0 <? Z.of_nat (length (Pool.Samples seg))); [|apply IH].
    destruct (segment_verdict cfg (Pool.Samples seg)) as [|samples| |]; simpl.
    + apply IH.
    + specialize (IH (acc ++ [samples])). rewrite <- app_assoc in IH.
      exact IH.
    + left. eauto.
    + right; left. eauto.
Qed.

Lemma kept_split (cfg : Config) (pre post : list (option Pool.SpeechSegment))
    (seg : Pool.SpeechSegment) :
  kept cfg (pre ++ Some seg :: post) =
  kept cfg pre ++ kept_of cfg (Some seg) ++ kept cfg post.
Proof. unfold kept. rewrite flat_map_app. reflexivity. Qed.

(** What [processSileroVAD] does with a live detector when the deadline
    does not fire and the session is open. *)
Lemma processSileroVAD_open (cfg : Config) (env : ProcessEnv)
    (session : Session) (sessionID : string) (float32Slice : list F32.t)
    (w : World) (a : nat) (pw : Pool.World) (inst : Pool.SileroVADInstance)
    (d : Pool.Detector) :
  VADInstance session = Some a -> vadPool w = Some pw ->
  Pool.heap pw !! a = Some inst -> Pool.VAD inst = Some d ->
  pe_vad_timeout env = false -> closed session = 0 ->
  mgr (snd (processSileroVAD cfg env session sessionID float32Slice w))
    = mgr w /\
  ((fst (processSileroVAD cfg env session sessionID float32Slice w)
      = Return None /\
    started w (snd (processSileroVAD cfg env session sessionID float32Slice w))
      = kept cfg (Pool.det_queue (Pool.AcceptWaveform d float32Slice))) \/
   ((fst (processSileroVAD cfg env session sessionID float32Slice w) = Panic \/
     fst (processSileroVAD cfg env session sessionID float32Slice w)
       = Unspecified) /\
    spawned (snd (processSileroVAD cfg env session sessionID float32Slice w))
      = spawned w)).
Proof.
  intros Hv Hpool Hheap Hvad Htime Hopen.
  unfold processSileroVAD. rewrite Hv, Hpool, Hheap, Hvad, Htime, Hopen.
  destruct (drain_open cfg (Pool.det_queue (Pool.AcceptWaveform d float32Slice))
              []) as [(rest & ->)|[(rest & ->)| ->]]; simpl.
  - auto.
  - auto.
  - split; [reflexivity|]. left. split; [reflexivity|].
    unfold started. simpl. rewrite drop_app_length. apply map_task_samples.
Qed.

Lemma kept_of_short (cfg : Config) (seg : Pool.SpeechSegment) :
  F64.ltb (duration_of cfg (length (Pool.Samples seg)))
          (F64.of_f32 (MinSpeechDuration cfg)) = true ->
  kept_of cfg (Some seg) = [].
Proof.
  intros Hshort. unfold kept_of, segment_verdict.
  unfold duration_of in Hshort. rewrite Hshort.
  destruct (0 <? _); reflexivity.
Qed.

Lemma kept_of_long (cfg : Config) (seg : Pool.SpeechSegment) (k : Z) :
  (0 < length (Pool.Samples seg))%nat ->
  F64.ltb (duration_of cfg (length (Pool.Samples seg)))
          (F64.of_f32 (MinSpeechDuration cfg)) = false ->
  F64.ltb (F64.of_f32 (MaxSpeechDuration cfg))
          (duration_of cfg (length (Pool.Samples seg))) = true ->
  F64.to_int (F64.mul (F64.of_f32 (MaxSpeechDuration cfg))
                      (F64.of_int (SampleRate cfg))) = Some k ->
  0 <= k <= Z.of_nat (length (Pool.Samples seg)) ->
  kept_of cfg (Some seg) = [firstn (Z.to_nat k) (Pool.Samples seg)].
Proof.
  intros Hpos Hmin Hmax Hint Hk. unfold kept_of, segment_verdict.
  unfold duration_of in Hmin, Hmax. rewrite Hmin, Hmax, Hint.
  destruct (Z.ltb_spec 0 (Z.of_nat (length (Pool.Samples seg)))) as [_|]; [|lia].
  destruct (Z.leb_spec 0 k) as [_|]; [|lia].
  destruct (Z.leb_spec k (Z.of_nat (length (Pool.Samples seg)))) as [_|]; [|lia].
  reflexivity.
Qed.

(** C6 (as the code has it). For a segment with samples drained from a live
    detector by a call on an open session whose deadline does not fire: the
    call itself enqueues nothing; if the segment's duration (samples over
    sample rate, in float64) is below min_speech_duration it adds no
    recognition goroutine, whether the call returns or stops; if its duration
    is not below the minimum and is above max_speech_duration, and
    k = int(max_speech_duration * sampleRate) lies within the segment, then
    in a call that returns exactly one goroutine is started for it, between
    those of the segments before and after it, with the first k samples. *)
Theorem drained_segment_policy (cfg : Config) (env : ProcessEnv)
    (session : Session) (sessionID : string) (float32Slice : list F32.t)
    (w : World) (a : nat) (pw : Pool.World) (inst : Pool.SileroVADInstance)
    (d : Pool.Detector) (pre post : list (option Pool.SpeechSegment))
    (seg : Pool.SpeechSegment) (k : Z) :
  VADInstance session = Some a -> vadPool w = Some pw ->
  Pool.heap pw !! a = Some inst -> Pool.VAD inst = Some d ->
  pe_vad_timeout env = false -> closed session = 0 ->
  Pool.det_queue (Pool.AcceptWaveform d float32Slice) =
    pre ++ Some seg :: post ->
  (0 < length (Pool.Samples seg))%nat ->
  let r := processSileroVAD cfg env session sessionID float32Slice w in
  let duration := duration_of cfg (length (Pool.Samples seg)) in
  mgr (snd r) = mgr w /\
  (F64.ltb duration (F64.of_f32 (MinSpeechDuration cfg)) = true ->
   (fst r = Return None /\
    started w (snd r) = kept cfg pre ++ kept cfg post) \/
   (fst r <> Return None /\ spawned (snd r) = spawned w)) /\
  (F64.ltb duration (F64.of_f32 (MinSpeechDuration cfg)) = false ->
   F64.ltb (F64.of_f32 (MaxSpeechDuration cfg)) duration = true ->
   F64.to_int (F64.mul (F64.of_f32 (MaxSpeechDuration cfg))
                       (F64.of_int (SampleRate cfg))) = Some k ->
   0 <= k <= Z.of_nat (length (Pool.Samples seg)) ->
   fst r = Return None ->
   started w (snd r) =
     kept cfg pre ++ [firstn (Z.to_nat k) (Pool.Samples seg)] ++ kept cfg post /\
   Z.of_nat (length (firstn (Z.to_nat k) (Pool.Samples seg))) = k).
Proof.
  intros Hv Hpool Hheap Hvad Htime Hopen Hqueue Hpos r duration.
  destruct (processSileroVAD_open cfg env session sessionID float32Slice w a pw
              inst d Hv Hpool Hheap Hvad Htime Hopen) as (Hmgr & Hcases).
  fold r in Hmgr, Hcases. rewrite Hqueue, kept_split in Hcases.
  split; [exact Hmgr|]. split.
  - intros Hshort. rewrite (kept_of_short cfg seg Hshort) in Hcases.
    destruct Hcases as [(Hret & Hst)|([Hp|Hu] & Hsp)].
    + left. split; [exact Hret|exact Hst].
    + right. split; [rewrite Hp; discriminate|exact Hsp].
    + right. split; [rewrite Hu; discriminate|exact Hsp].
  - intros Hmin Hmax Hint Hk Hret.
    rewrite (kept_of_long cfg seg k Hpos Hmin Hmax Hint Hk) in Hcases.
    destruct Hcases as [(_ & Hst)|([Hp|Hu] & _)]; [|congruence|congruence].
    split; [exact Hst|]. rewrite length_take. lia.
Qed.

End Streaming.

Section StreamingExamples.
Import Config Session Fixtures.

Lemma registered_s2 : "s2" ∈ sessions (mgr two_sessions).
Proof. vm_compute. set_solver. Qed.

(** The first frame of "s1" has three bytes; the pool hands out instance
    0. *)
Lemma odd_frame_rejected_witness :
  exists (w' : World) (s' : Session) (a : nat),
    ProcessAudioData demo_config (process_env 2) "s1"
      [Byte.x01; Byte.x02; Byte.x03] one_session =
      Some (Return (Some (ErrInvalidLength 3)), w') /\
    vad_calls w' = vad_calls one_session /\
    spawned w' = spawned one_session /\
    "s1" ∈ sessions (mgr w') /\
    objects (mgr w') !! "s1" = Some s' /\
    closed s' = 0 /\ VADInstance s' = Some a /\
    SendQueue s' = SendQueue (session_at "s1" one_session) /\
    forall (env2 : ProcessEnv) (audio2 : list Byte.byte),
      audio2 <> [] -> Z.of_nat (length audio2) mod 2 = 0 ->
      exists (s2 : Session) (w2 : World),
        vad_calls w2 = vad_calls w' /\
        ProcessAudioData demo_config env2 "s1" audio2 w' =
          Some (processSileroVAD demo_config env2 s2 "s1"
                  (to_float32 (NormalizeFactor demo_config) audio2) w2).
Proof.
  apply (odd_frame_rejected (V := toy_vad) demo_config (process_env 2) "s1"
           [Byte.x01; Byte.x02; Byte.x03] one_session
           (session_at "s1" one_session)).
  - vm_compute. set_solver.
  - reflexivity.
  - reflexivity.
  - right. split; [reflexivity|].
    do 3 eexists. split; reflexivity.
  - reflexivity.
Defined.

(** C7 fails as stated.  "s1" holds the only pooled instance; "s2" is
    registered and open and has no instance yet.  Its first frame has three
    bytes, and the detector for a transient instance cannot be built: the
    call returns the failed-to-get-VAD error, not the invalid-length one. *)
Lemma odd_frame_without_detector :
  "s2" ∈ sessions (mgr two_sessions) /\
  closed (session_at "s2" two_sessions) = 0 /\
  VADInstance (session_at "s2" two_sessions) = None /\
  Z.of_nat (length [Byte.x01; Byte.x02; Byte.x03]) mod 2 = 1 /\
  fst <$> ProcessAudioData demo_config (process_env_no_detector 4) "s2"
            [Byte.x01; Byte.x02; Byte.x03] two_sessions =
    Some (Return (Some (ErrGetVAD "s2" Pool.ErrCreateInstance))) /\
  fst <$> ProcessAudioData demo_config (process_env_no_detector 4) "s2"
            [Byte.x01; Byte.x02; Byte.x03] two_sessions <>
    Some (Return (Some (ErrInvalidLength 3))).
Proof.
  split; [exact registered_s2|].
  repeat split; try reflexivity.
  vm_compute. discriminate.
Qed.

(** The detector of "s1" still queues 10 samples (0.1 s) and takes 125 more
    (1.25 s): the first segment is dropped, the second is cut to 100
    samples and recognised. *)
Lemma drained_segment_policy_witness :
  started pending_world
    (snd (processSileroVAD coarse_config (process_env 5)
            (session_at "s1" pending_world) "s1" (silence 125)
            pending_world)) =
  [firstn 100 (silence 125)] /\
  length (firstn 100 (silence 125)) = 100%nat.
Proof.
  destruct (drained_segment_policy (V := toy_vad) coarse_config (process_env 5)
              (session_at "s1" pending_world) "s1" (silence 125)
              pending_world 0%nat
              (pool_of pending_world)
              (instance_at 0 (pool_of pending_world))
              (detector_of (instance_at 0 (pool_of pending_world)))
              [Some (segment_of 10)] [] (segment_of 125) 100)
    as (_ & _ & Hlong); try (vm_compute; reflexivity).
  - vm_compute. lia.
  - destruct Hlong as (Hstarted & Hlen); try (vm_compute; reflexivity).
    + vm_compute. split; discriminate.
    + split; [|vm_compute; reflexivity].
      rewrite Hstarted. vm_compute. reflexivity.
Defined.

(** C6 fails as stated.  With max_speech_duration = 0.7 s at 100 samples
    per second, the float32 option is just below 0.7 and its float64 product
    with the sample rate is just below 70: a drained segment of 80 samples is
    cut to int(product) = 69 samples, fewer than max_speech_duration *
    sampleRate.  With min_speech_duration = 5 s above max_speech_duration =
    2 s, a drained segment of 3 s exceeds the maximum but is discarded by the
    minimum check, which comes first: the call returns nil and starts no
    recognition.  With a negative max_speech_duration the slice bound is
    negative and the call panics instead of truncating. *)
Lemma long_segment_policy_differs :
  (let product := F64.mul (F64.of_f32 (MaxSpeechDuration tenths_config))
                          (F64.of_int (SampleRate tenths_config)) in
   let r := ProcessAudioData tenths_config (process_env 2) "s1"
              (repeat Byte.x00 160) one_session in
   F64.ltb (F64.of_f32 (MaxSpeechDuration tenths_config))
           (duration_of tenths_config 80) = true /\
   fst <$> r = Some (Return None) /\
   started one_session (processed_world_of r) = [silence 69] /\
   F64.ltb (F64.of_int 69) product = true /\
   F64.ltb product (F64.of_int 70) = true) /\
  (let r := ProcessAudioData crossed_config (process_env 2) "s1"
              (repeat Byte.x00 600) one_session in
   F64.ltb (F64.of_f32 (MaxSpeechDuration crossed_config))
           (duration_of crossed_config 300) = true /\
   fst <$> r = Some (Return None) /\
   vad_calls (processed_world_of r) = [(0%nat, silence 300)] /\
   spawned (processed_world_of r) = []) /\
  F64.ltb (F64.of_f32 (MaxSpeechDuration negative_config))
          (duration_of negative_config 300) = true /\
  fst <$> ProcessAudioData negative_config (process_env 2) "s1"
            (repeat Byte.x00 600) one_session = Some Panic.
Proof.
  split; [cbv zeta; repeat split; vm_compute; reflexivity|].
  split; [cbv zeta; repeat split; vm_compute; reflexivity|].
  split; vm_compute; reflexivity.
Qed.

End StreamingExamples.

(** ** The streaming endpoint (package ws) *)

Section Endpoint.
Import Config Session Ws.
Context {V : Pool.Vad}.

Lemma processSileroVAD_not_empty_audio (cfg : Config) (env : ProcessEnv)
    (session : Session) (sessionID : string) (float32Slice : list F32.t)
    (w : World) :
  fst (processSileroVAD cfg env session sessionID float32Slice w) <>
  Return (Some ErrEmptyAudio).
Proof.
  unfold processSileroVAD.
  destruct (VADInstance session); [|discriminate].
  destruct (vadPool w) as [pw|]; [|discriminate].
  destruct (Pool.heap pw !! n) as [inst|]; [|discriminate].
  destruct (Pool.VAD inst) as [d|]; [|discriminate].
  destruct (pe_vad_timeout env); [discriminate|].
  destruct (drain _ _ _ _) as [[l| | |] rest]; discriminate.
Qed.

(** [ProcessAudioData] returns the empty-audio error only for an empty
    frame. *)
Lemma empty_audio_only_for_empty (cfg : Config) (env : ProcessEnv)
    (sessionID : string) (audioData : list Byte.byte) (w w' : World) :
  ProcessAudioData cfg env sessionID audioData w =
    Some (Return (Some ErrEmptyAudio), w') ->
  audioData = [].
Proof.
  unfold ProcessAudioData.
  destruct (GetSession _ _ _) as [[session|] w0]; [|discriminate].
  destruct (closed session =? 1); [discriminate|].
  assert (Htail : forall (s1 : Session) (w1 : World),
    (let session2 := set_LastSeen (pe_now_seen env) s1 in
     let m := mgr (update_session sessionID session2 w1) in
     let w2 := set_mgr
        {| objects := objects m; sessions := sessions m;
           totalSessions := totalSessions m;
           activeSessions := activeSessions m;
           totalMessages := GoInt.add64 (totalMessages m) 1;
           ctx_done := ctx_done m |} w1 in
     let len := Z.of_nat (length audioData) in
     if len =? 0 then Some (Return (Some ErrEmptyAudio), w2)
     else if negb (Z.rem len 2 =? 0)
     then Some (Return (Some (ErrInvalidLength len)), w2)
     else match VADInstance session2 with
          | None => Some (Panic, w2)
          | Some a =>
              if String.eqb Pool.SILERO_TYPE Pool.SILERO_TYPE
              then Some (processSileroVAD cfg env session2 sessionID
                           (to_float32 (NormalizeFactor cfg) audioData) w2)
              else Some (Return (Some (ErrUnsupportedVAD Pool.SILERO_TYPE)),
                         w2)
          end) = Some (Return (Some ErrEmptyAudio), w') ->
    audioData = []).
  { intros s1 w1. cbv zeta.
    destruct (Z.eqb_spec (Z.of_nat (length audioData)) 0) as [Hlen|_].
    - intros _. destruct audioData; [reflexivity|discriminate].
    - destruct (negb _); [discriminate|].
      destruct (VADInstance _); [|discriminate]. simpl.
      intros H. injection H as H. exfalso.
      apply (f_equal fst) in H.
      exact (processSileroVAD_not_empty_audio _ _ _ _ _ _ H). }
  destruct (VADInstance session) as [a|]; [apply Htail|].
  destruct (vadPool w0) as [pw|]; [|discriminate].
  destruct (Pool.Get _ _ _) as [[[a|e|] pw']|];
    try discriminate. apply Htail.
Qed.

Lemma refresh_deadline_keeps (cfg : Config) (now : Time) (c : Conn) :
  world (refresh_deadline cfg now c) = world c /\
  processed (refresh_deadline cfg now c) = processed c.
Proof. unfold refresh_deadline. destruct (0 <? _); auto. Qed.

(** One turn of the loop hands at most its own frame to
    [ProcessAudioData], and only if the frame is not empty. *)
Lemma on_message_processed (cfg : Config) (env : FrameEnv)
    (sessionID : string) (message : list Byte.byte) (c : Conn) :
  processed (snd (on_message cfg env sessionID message c)) = processed c \/
  (message <> [] /\
   processed (snd (on_message cfg env sessionID message c)) =
     processed c ++ [message]).
Proof.
  unfold on_message.
  destruct (refresh_deadline_keeps cfg (fe_now env) c) as (_ & Hp).
  destruct (_ && _); [left; exact Hp|].
  destruct (Z.ltb_spec 0 (Z.of_nat (length message))) as [Hlen|_];
    [|left; exact Hp].
  right. split; [intros ->; simpl in Hlen; lia|].
  destruct (ProcessAudioData _ _ _ _ _) as [[[[err|]| |] w']|]; simpl;
    rewrite Hp; reflexivity.
Qed.

Lemma read_loop_nonempty (cfg : Config) (sessionID : string)
    (frames : list (list Byte.byte * FrameEnv)) :
  forall c0 : Conn,
    Forall (fun m => m <> []) (processed c0) ->
    Forall (fun m => m <> [])
      (processed (snd (read_loop cfg sessionID frames c0))).
Proof.
  induction frames as [|[message env] frames IH]; intros c0 Hall; simpl;
    [exact Hall|].
  assert (Hstep : Forall (fun m => m <> [])
            (processed (snd (on_message cfg env sessionID message c0)))).
  { destruct (on_message_processed cfg env sessionID message c0)
      as [->|(Hne & ->)]; [exact Hall|].
    apply Forall_app. split; [exact Hall|]. constructor; [exact Hne|constructor]. }
  destruct (on_message cfg env sessionID message c0) as [[| | |] c1];
    simpl in *; [apply IH; exact Hstep|exact Hstep..].
Qed.

(** C10. A zero-length frame is skipped by the read loop: the turn only
    refreshes the read deadline and continues; the session manager's world
    (sessions, send queues, closed flags, pool) is left as it was and no call
    of [ProcessAudioData] is made.  Every frame the loop does hand to
    [ProcessAudioData] is non-empty, and [ProcessAudioData] returns the
    empty-audio error only for an empty frame: that branch cannot be reached
    from the endpoint. *)
Theorem zero_length_frame_skipped (cfg : Config) (env : FrameEnv)
    (sessionID : string) (c : Conn) :
  on_message cfg env sessionID [] c =
    (Continue, refresh_deadline cfg (fe_now env) c) /\
  world (refresh_deadline cfg (fe_now env) c) = world c /\
  processed (refresh_deadline cfg (fe_now env) c) = processed c /\
  (forall (frames : list (list Byte.byte * FrameEnv)) (c0 : Conn),
     Forall (fun m => m <> []) (processed c0) ->
     Forall (fun m => m <> [])
       (processed (snd (read_loop cfg sessionID frames c0)))) /\
  (forall (penv : ProcessEnv) (id : string) (audio : list Byte.byte)
          (w w' : World),
     ProcessAudioData cfg penv id audio w =
       Some (Return (Some ErrEmptyAudio), w') ->
     audio = []).
Proof.
  destruct (refresh_deadline_keeps cfg (fe_now env) c) as (Hw & Hp).
  split; [|split; [exact Hw|split; [exact Hp|split]]].
  - unfold on_message. simpl. change (Z.of_nat 0) with 0.
    destruct (Z.ltb_spec 0 (WsMaxMessageSize cfg)),
      (Z.ltb_spec (WsMaxMessageSize cfg) 0); simpl; try reflexivity; lia.
  - intros frames c0. apply read_loop_nonempty.
  - intros penv id audio w w'. apply empty_audio_only_for_empty.
Qed.

End Endpoint.

Section EndpointExamples.
Import Config Session Ws Fixtures.

(** A connection that sends an empty frame, an odd frame and an even
    frame: the empty one is skipped, the odd one is answered with an error
    message, the even one reaches the detector; then the read fails and the
    session is removed, its instance going back to the pool. *)
Example three_frames :
  exists c,
    HandleWebSocket demo_config 1 "s1"
      [([], frame_env 2);
       ([Byte.x01; Byte.x02; Byte.x03], frame_env 3);
       ([Byte.x01; Byte.x02], frame_env 4)]
      (NewManager (Some pool1)) = Some (Break, c) /\
    processed c = [[Byte.x01; Byte.x02; Byte.x03]; [Byte.x01; Byte.x02]] /\
    length (vad_calls (world c)) = 1%nat /\
    Pool.available (Pool.pool (pool_of (world c))) = [0%nat].
Proof. eexists. split; [vm_compute; reflexivity|]. repeat split. Qed.

End EndpointExamples.

(** * Further properties of the code *)

(** ** Cosine similarity is symmetric *)

Section CosineSymmetry.
Import Speaker.


Lemma SFeqb_zero_cases (x : spec_float) :
  SFeqb x F32.zero = true \/ SFeqb x F32.zero = false.
Proof. destruct (SFeqb x F32.zero); auto. Qed.



End CosineSymmetry.

(** ** The speaker database under Register and Delete *)

Section SpeakerDatabase.
Import Speaker.
Context {E : Engine}.

Lemma extractEmbedding_nonempty (audio : list F32.t) (rate : Z)
    (emb : Embedding) :
  extractEmbedding audio rate = inl emb -> emb <> [].
Proof.
  unfold extractEmbedding. destruct (negb _); [discriminate|].
  destruct (Nat.eqb_spec (length (extractor_compute audio rate)) 0) as [|Hne];
    [discriminate|].
  intros [= <-] Habs. rewrite Habs in Hne. contradiction.
Qed.

(** After a registration whose extraction succeeded the map of records is
    the old one with the updated record put under the id, whatever the index
    and the file system answered. *)
Lemma RegisterSpeaker_speakers (env : RegisterEnv)
    (speakerID speakerName : string) (audio : list F32.t) (rate : Z)
    (w : World) (emb : Embedding) :
  extractEmbedding audio rate = inl emb ->
  Speakers (database (mgr (snd
    (RegisterSpeaker env speakerID speakerName audio rate w)))) =
  <[speakerID :=
      {| ID := ID (base_record env speakerID speakerName w);
         Name := speakerName;
         Embeddings :=
           Embeddings (base_record env speakerID speakerName w) ++ [emb];
         CreatedAt := CreatedAt (base_record env speakerID speakerName w);
         UpdatedAt := reg_touched env;
         SampleCount :=
           GoInt.add64
             (SampleCount (base_record env speakerID speakerName w)) 1 |}]>
    (Speakers (database (mgr w))).
Proof.
  intros Hemb. unfold RegisterSpeaker. rewrite Hemb. cbv zeta.
  destruct (index_registerV _ _ _) as [success idx'].
  destruct success; simpl; [|reflexivity].
  match goal with |- context [saveDatabase ?e ?x] =>
    pose proof (saveDatabase_speakers e x) as Hs;
    destruct (saveDatabase e x) as [[err|] w2] end;
  simpl in *; rewrite Hs; reflexivity.
Qed.

Lemma DeleteSpeaker_speakers (env : SaveEnv) (speakerID : string) (w : World)
    (d : SpeakerData) :
  Speakers (database (mgr w)) !! speakerID = Some d ->
  Speakers (database (mgr (snd (DeleteSpeaker env speakerID w)))) =
    delete speakerID (Speakers (database (mgr w))) /\
  manager (mgr (snd (DeleteSpeaker env speakerID w))) =
    index_remove speakerID (manager (mgr w)) /\
  (fst (DeleteSpeaker env speakerID w) = None \/
   exists e, fst (DeleteSpeaker env speakerID w) = Some (ErrSave e)).
Proof.
  intros Hd. unfold DeleteSpeaker. rewrite Hd.
  match goal with |- context [saveDatabase ?e ?x] =>
    pose proof (saveDatabase_speakers e x) as Hs;
    assert (Hi : manager (mgr (snd (saveDatabase e x))) = manager (mgr x))
      by (unfold saveDatabase; destruct (save_outcome e); reflexivity);
    destruct (saveDatabase e x) as [[err|] w2] end;
  simpl in *; rewrite Hs, Hi; eauto.
Qed.

Lemma record_wf_base (env : RegisterEnv) (speakerID speakerName : string)
    (w : World) (emb : Embedding) :
  map_Forall record_wf (Speakers (database (mgr w))) ->
  emb <> [] ->
  record_wf speakerID
    {| ID := ID (base_record env speakerID speakerName w);
       Name := speakerName;
       Embeddings :=
         Embeddings (base_record env speakerID speakerName w) ++ [emb];
       CreatedAt := CreatedAt (base_record env speakerID speakerName w);
       UpdatedAt := reg_touched env;
       SampleCount :=
         GoInt.add64 (SampleCount (base_record env speakerID speakerName w)) 1 |}.
Proof.
  intros Hwf Hemb. unfold base_record.
  destruct (Speakers (database (mgr w)) !! speakerID) as [d|] eqn:Hd.
  - destruct (Hwf speakerID d Hd) as (Hid & Hcount & _ & Hall).
    repeat split; simpl.
    + exact Hid.
    + rewrite Hcount, wrap64_add, length_app. simpl. f_equal. lia.
    + intros Habs. apply app_eq_nil in Habs as [_ Habs]. discriminate.
    + apply Forall_app. split; [exact Hall|]. constructor; [exact Hemb|constructor].
  - repeat split; simpl.
    + discriminate.
    + constructor; [exact Hemb|constructor].
Qed.

(** Every request keeps the records well formed, whatever it returns. *)
Lemma apply_mutation_wf (mu : Mutation) (w : World) :
  map_Forall record_wf (Speakers (database (mgr w))) ->
  map_Forall record_wf (Speakers (database (mgr (snd (apply_mutation mu w))))).
Proof.
  intros Hwf.
  destruct mu as [env speakerID speakerName audio rate|env speakerID]; simpl.
  - destruct (extractEmbedding audio rate) as [emb|err] eqn:Hemb.
    + rewrite (RegisterSpeaker_speakers env speakerID speakerName audio rate w
                 emb Hemb).
      apply map_Forall_insert_2; [|exact Hwf].
      apply record_wf_base; [exact Hwf|].
      eapply extractEmbedding_nonempty; exact Hemb.
    + unfold RegisterSpeaker. rewrite Hemb. exact Hwf.
  - destruct (Speakers (database (mgr w)) !! speakerID) as [d|] eqn:Hd.
    + destruct (DeleteSpeaker_speakers env speakerID w d Hd) as (-> & _).
      apply map_Forall_delete. exact Hwf.
    + unfold DeleteSpeaker. rewrite Hd. exact Hwf.
Qed.

Lemma run_mutations_wf (mus : list Mutation) :
  forall w : World,
    map_Forall record_wf (Speakers (database (mgr w))) ->
    map_Forall record_wf (Speakers (database (mgr (run_mutations mus w)))).
Proof.
  induction mus as [|mu mus IH]; intros w Hwf; [exact Hwf|].
  apply IH, apply_mutation_wf, Hwf.
Qed.

(** X2. Starting from an empty database, after any series of Register and
    Delete requests (failed ones included) every record is filed under its
    own id, holds at least one vector and no empty vector, and its sample
    count is the number of its vectors (as an int64; exactly so below 2^63
    vectors). *)
Theorem records_well_formed (mus : list Mutation) (w0 : World)
    (speakerID : string) (d : SpeakerData) :
  Speakers (database (mgr w0)) = ∅ ->
  Speakers (database (mgr (run_mutations mus w0))) !! speakerID = Some d ->
  ID d = speakerID /\
  SampleCount d = GoInt.wrap64 (Z.of_nat (length (Embeddings d))) /\
  (Z.of_nat (length (Embeddings d)) < 2 ^ 63 ->
   SampleCount d = Z.of_nat (length (Embeddings d))) /\
  (0 < length (Embeddings d))%nat /\
  Forall (fun e : Embedding => e <> []) (Embeddings d).
Proof.
  intros Hempty Hd.
  assert (Hwf : map_Forall record_wf (Speakers (database (mgr w0)))).
  { rewrite Hempty. apply map_Forall_empty. }
  destruct (run_mutations_wf mus w0 Hwf speakerID d Hd)
    as (Hid & Hcount & Hne & Hall).
  repeat split; try assumption.
  - intros Hsmall. rewrite Hcount. apply wrap64_small. lia.
  - destruct (Embeddings d); [contradiction|simpl; lia].
Qed.

End SpeakerDatabase.
Section SpeakerRequests.
Import Speaker.
Context {E : Engine}.


(** X4. [DeleteSpeaker] on an id without a record returns the not-found
    error and the world as it was (no index call, no file write).  On an id
    with a record it removes the record from the database and the id from
    the index before it saves, so that -- also when the save fails -- a
    following [VerifySpeaker] or [DeleteSpeaker] of the id answers not
    found; the only error it can return is the wrapped save error, and the
    records of other ids are as before. *)
Theorem DeleteSpeaker_spec (env env' : SaveEnv) (speakerID : string)
    (audio : list F32.t) (rate : Z) (w : World) :
  let r := DeleteSpeaker env speakerID w in
  (Speakers (database (mgr w)) !! speakerID = None ->
     r = (Some (ErrNotFound speakerID), w)) /\
  (is_Some (Speakers (database (mgr w)) !! speakerID) ->
     Speakers (database (mgr (snd r))) !! speakerID = None /\
     manager (mgr (snd r)) = index_remove speakerID (manager (mgr w)) /\
     (fst r = None \/ exists e, fst r = Some (ErrSave e)) /\
     VerifySpeaker speakerID audio rate (snd r) =
       (inr (ErrNotFound speakerID), snd r) /\
     DeleteSpeaker env' speakerID (snd r) =
       (Some (ErrNotFound speakerID), snd r)) /\
  (forall other, other <> speakerID ->
     Speakers (database (mgr (snd r))) !! other =
     Speakers (database (mgr w)) !! other).
Proof.
  cbv zeta.
  destruct (Speakers (database (mgr w)) !! speakerID) as [d|] eqn:Hd.
  - destruct (DeleteSpeaker_speakers env speakerID w d Hd) as (Hsp & Hidx & Hres).
    assert (Hgone : Speakers (database (mgr (snd (DeleteSpeaker env speakerID w))))
                      !! speakerID = None)
      by (rewrite Hsp; apply lookup_delete_eq).
    split; [discriminate|]. split.
    + intros _. split; [exact Hgone|]. split; [exact Hidx|].
      split; [exact Hres|].
      set (w1 := snd (DeleteSpeaker env speakerID w)) in *.
      unfold VerifySpeaker, DeleteSpeaker. rewrite Hgone. auto.
    + intros other Hother. rewrite Hsp. apply lookup_delete_ne. congruence.
  - unfold DeleteSpeaker. rewrite Hd. simpl. split; [reflexivity|].
    split; [intros [x Hx]; discriminate|reflexivity].
Qed.

(** X5. [IdentifySpeaker] never changes the manager or the files.  A
    result that says identified names the non-empty id the index returned,
    which has a record in the database; it carries that record's name and,
    as confidence, the score of the extracted vector against the record's
    vectors, which is not negative.  A result that says not identified has
    empty id and name and confidence 0: that is the answer also when the
    index names an id that the database does not hold. *)
Theorem IdentifySpeaker_sound (audio : list F32.t) (rate : Z) (w : World) :
  snd (IdentifySpeaker audio rate w) = w /\
  (forall e, extractEmbedding audio rate = inr e ->
     fst (IdentifySpeaker audio rate w) = inr (ErrExtract e)) /\
  (forall emb, extractEmbedding audio rate = inl emb ->
     exists r : IdentifyResult,
       fst (IdentifySpeaker audio rate w) = inl r /\
       ir_Threshold r = threshold (mgr w) /\
       if Identified r
       then ir_SpeakerID r =
              index_search emb (threshold (mgr w)) (manager (mgr w)) /\
            ir_SpeakerID r <> EmptyString /\
            exists d, Speakers (database (mgr w)) !! ir_SpeakerID r = Some d /\
              ir_SpeakerName r = Name d /\
              ir_Confidence r = calculateSimilarity emb (Embeddings d) /\
              F32.leb F32.zero (ir_Confidence r) = true
       else ir_SpeakerID r = EmptyString /\ ir_SpeakerName r = EmptyString /\
            ir_Confidence r = F32.zero /\
            (index_search emb (threshold (mgr w)) (manager (mgr w)) =
               EmptyString \/
             Speakers (database (mgr w)) !!
               index_search emb (threshold (mgr w)) (manager (mgr w)) = None)).
Proof.
  unfold IdentifySpeaker.
  destruct (extractEmbedding audio rate) as [emb|err]; cbv zeta.
  - split; [|split; [intros e He; discriminate|]].
    + destruct (negb _); [|reflexivity].
      destruct (Speakers (database (mgr w)) !! _); reflexivity.
    + intros emb' [= <-].
      destruct (String.eqb_spec
                  (index_search emb (threshold (mgr w)) (manager (mgr w)))
                  EmptyString) as [Hnone|Hsome]; simpl.
      * eexists. split; [reflexivity|]. simpl. auto 7.
      * destruct (Speakers (database (mgr w)) !! _) as [d|] eqn:Hd; simpl.
        -- eexists. split; [reflexivity|]. simpl.
           split; [reflexivity|]. split; [reflexivity|].
           split; [exact Hsome|]. exists d. repeat split; try assumption.
           assert (Hdef : calculateSimilarity emb (Embeddings d) =
                          fold_left (max_step emb) (Embeddings d) F32.zero).
           { unfold calculateSimilarity. destruct (Embeddings d); reflexivity. }
           rewrite Hdef.
           destruct (fold_max_mono emb (Embeddings d) F32.zero) as [->|Hlt];
             [reflexivity|apply SFltb_leb, Hlt].
        -- eexists. split; [reflexivity|]. simpl. auto 7.
  - split; [reflexivity|]. split; [intros e [= <-]; reflexivity|].
    intros emb Habs. discriminate.
Qed.

End SpeakerRequests.
Section SpeakerStats.
Import Speaker.
Context {E : Engine}.






(** X6. The statistics and the listing describe the same database: the
    listing has one entry per record (an entry is in it exactly when it is
    the entry of a stored record), its length is total_speakers, and
    total_samples is the int64 sum of the sample counts it shows. *)
Theorem stats_match_listing (w : World) :
  TotalSpeakers (GetDatabaseStats w) = Z.of_nat (length (GetAllSpeakers w)) /\
  TotalSamples (GetDatabaseStats w) =
    foldr (fun info totalSamples =>
             GoInt.add64 totalSamples (si_SampleCount info)) 0
          (GetAllSpeakers w) /\
  (forall info, info ∈ GetAllSpeakers w <->
     exists speakerID d,
       Speakers (database (mgr w)) !! speakerID = Some d /\ info = info_of d) /\
  ds_Version (GetDatabaseStats w) = Version (database (mgr w)) /\
  ds_Threshold (GetDatabaseStats w) = threshold (mgr w).
Proof.
  unfold GetDatabaseStats, GetAllSpeakers. simpl.
  split; [|split; [|split; [|split; reflexivity]]].
  - rewrite length_fmap, length_map_to_list. reflexivity.
  - unfold total_samples. rewrite map_fold_foldr.
    induction (map_to_list (Speakers (database (mgr w)))) as [|[k d] l IH];
      [reflexivity|].
    simpl. rewrite IH. reflexivity.
  - intros info. rewrite list_elem_of_fmap. split.
    + intros ([k d] & -> & Hin). apply elem_of_map_to_list in Hin.
      exists k, d. auto.
    + intros (k & d & Hd & ->). exists (k, d). split; [reflexivity|].
      apply elem_of_map_to_list. exact Hd.
Qed.


End SpeakerStats.
Section SpeakerDatabaseExamples.
Import Speaker Fixtures.

(** "u1" is enrolled twice (the second time the toy index refuses the
    vectors, and the record has them all the same), "u2" is deleted without
    ever being enrolled, "u3" is enrolled and deleted. *)
Lemma records_well_formed_witness :
  let mus := [Register (reg_env 10 (save_ok 11)) "u1" "Alice" clip_a 16000;
              Register (reg_env 20 (save_denied 21)) "u1" "Alicia" clip_b 16000;
              Delete (save_ok 30) "u2";
              Register (reg_env 40 (save_ok 41)) "u3" "Bob" [] 16000;
              Register (reg_env 50 (save_ok 51)) "u3" "Bob" clip_b 16000;
              Delete (save_ok 60) "u3"] in
  exists d : SpeakerData,
    Speakers (database (mgr (run_mutations mus fresh_world))) !! "u1" = Some d /\
    Embeddings d = [clip_a; clip_b] /\
    ID d = "u1" /\
    SampleCount d = GoInt.wrap64 (Z.of_nat (length (Embeddings d))) /\
    (Z.of_nat (length (Embeddings d)) < 2 ^ 63 ->
     SampleCount d = Z.of_nat (length (Embeddings d))) /\
    (0 < length (Embeddings d))%nat /\
    Forall (fun e : Embedding => e <> []) (Embeddings d).
Proof.
  cbv zeta. eexists. split; [reflexivity|]. split; [reflexivity|].
  apply (records_well_formed (E := toy_engine)
    [Register (reg_env 10 (save_ok 11)) "u1" "Alice" clip_a 16000;
     Register (reg_env 20 (save_denied 21)) "u1" "Alicia" clip_b 16000;
     Delete (save_ok 30) "u2";
     Register (reg_env 40 (save_ok 41)) "u3" "Bob" [] 16000;
     Register (reg_env 50 (save_ok 51)) "u3" "Bob" clip_b 16000;
     Delete (save_ok 60) "u3"] fresh_world "u1"); reflexivity.
Defined.

(** The same requests leave one speaker with two samples; the refused and
    the empty-audio registrations answer with their errors. *)
Example stats_after_requests :
  let w := run_mutations
             [Register (reg_env 10 (save_ok 11)) "u1" "Alice" clip_a 16000;
              Register (reg_env 20 (save_denied 21)) "u1" "Alicia" clip_b 16000;
              Delete (save_ok 30) "u2";
              Register (reg_env 40 (save_ok 41)) "u3" "Bob" [] 16000;
              Register (reg_env 50 (save_ok 51)) "u3" "Bob" clip_b 16000;
              Delete (save_ok 60) "u3"] fresh_world in
  TotalSpeakers (GetDatabaseStats w) = 1 /\
  TotalSamples (GetDatabaseStats w) = 2 /\
  (si_Name <$> GetAllSpeakers w) = ["Alicia"] /\
  fst (RegisterSpeaker (reg_env 20 (save_denied 21)) "u1" "Alicia" clip_b 16000
         alice_world) = Some ErrRegisterMemory /\
  fst (RegisterSpeaker (reg_env 40 (save_ok 41)) "u3" "Bob" [] 16000
         alice_world) = Some (ErrExtract ErrInsufficientAudio).
Proof. cbv zeta. repeat split; vm_compute; reflexivity. Qed.

End SpeakerDatabaseExamples.

(** ** The VAD pool: start-up, hand-out, return, shutdown *)

Section PoolLifecycle.
Import Pool.
Context {V : Vad}.

(** The body of one initialisation goroutine on a pool that is being
    initialised: the queue has room for every instance that is built. *)
Lemma init_one_result (cfg : SileroVADConfig) (env : InitEnv) (k errs : nat)
    (w : World) :
  init_inv cfg k w -> (k < Z.to_nat (PoolSize cfg))%nat ->
  init_one env k (w, errs) =
  match init_vad env k with
  | Some vad =>
      ({| heap := heap w ++ [{| ID := Z.of_nat k; VAD := Some vad;
                                LastUsed := init_now env k; InUse := 0 |}];
          pool := add_counters 1 0 0
                    (set_available (available (pool w) ++ [length (heap w)])
                       (set_instances (instances (pool w) ++ [length (heap w)])
                          (pool w))) |}, errs)
  | None => (w, S errs)
  end.
Proof.
  intros (Hopen & Hav & Hins & Hlen & Hall & Hact & Hcfg) Hk.
  unfold init_one. destruct (init_vad env k) as [vad|]; [|reflexivity].
  assert (Hroom : has_room (set_instances
                    (instances (pool w) ++ [length (heap w)]) (pool w))
                  = true).
  { unfold has_room, capacity. simpl. rewrite Hav, length_seq, Hcfg.
    apply Z.ltb_lt. lia. }
  rewrite Hroom. reflexivity.
Qed.

(** What the initialisation loop has done when it is through with the ids
    [s .. s + m - 1]. *)
Lemma init_loop_result (cfg : SileroVADConfig) (env : InitEnv) (m : nat) :
  forall (s errs : nat) (w : World),
    init_inv cfg s w -> (s + m <= Z.to_nat (PoolSize cfg))%nat ->
    totalCreated (pool w) = GoInt.wrap64 (Z.of_nat (length (heap w))) ->
    totalReused (pool w) = 0 -> ctx_done (pool w) = false ->
    Forall (fun i => is_Some (VAD i)) (heap w) ->
    let r := fold_left (fun st i => init_one env i st) (seq s m) (w, errs) in
    ID <$> heap (fst r) =
      (ID <$> heap w) ++
      (Z.of_nat <$> filter (fun i => is_Some (init_vad env i)) (seq s m)) /\
    (snd r + length (filter (fun i => is_Some (init_vad env i)) (seq s m))
     = errs + m)%nat /\
    totalCreated (pool (fst r)) =
      GoInt.wrap64 (Z.of_nat (length (heap (fst r)))) /\
    totalReused (pool (fst r)) = 0 /\ ctx_done (pool (fst r)) = false /\
    Forall (fun i => is_Some (VAD i)) (heap (fst r)).
Proof.
  induction m as [|m IH]; intros s errs w Hinv Hle Hcr Hre Hdone Hvad.
  - simpl. rewrite app_nil_r. repeat split; auto; lia.
  - change (seq s (S m)) with (s :: seq (S s) m). cbn [fold_left].
    assert (Hs : (s < Z.to_nat (PoolSize cfg))%nat) by lia.
    pose proof (init_one_inv cfg env s errs w Hinv Hs) as Hinv1.
    rewrite (init_one_result cfg env s errs w Hinv Hs) in Hinv1 |- *.
    rewrite filter_cons.
    destruct (init_vad env s) as [vad|] eqn:Hv.
    + simpl in Hinv1.
      destruct (decide (is_Some (Some vad))) as [_|Hn]; [|exfalso; eauto].
      match goal with |- context [fold_left _ _ (?w1, errs)] =>
        specialize (IH (S s) errs w1 Hinv1) end.
      destruct IH as (Hids & Herrs & Hcr' & Hre' & Hdone' & Hvad').
      * lia.
      * simpl. rewrite Hcr, wrap64_add, length_app. simpl. f_equal. lia.
      * simpl. rewrite Hre. reflexivity.
      * exact Hdone.
      * simpl. apply Forall_app. split; [exact Hvad|].
        constructor; [simpl; eauto|constructor].
      * cbv zeta. split; [|split; [|auto]].
        -- rewrite Hids. simpl. rewrite fmap_app, <- app_assoc. reflexivity.
        -- simpl. lia.
    + simpl in Hinv1.
      destruct (decide (is_Some (@None Detector))) as [[x Hx]|_];
        [discriminate|].
      specialize (IH (S s) (S errs) w Hinv1).
      destruct IH as (Hids & Herrs & Hrest); auto; [lia|].
      cbv zeta. split; [exact Hids|]. split; [lia|exact Hrest].
Qed.


(** X8. [NewSileroVADPool] panics exactly on a negative pool size.
    Otherwise [Initialize] on the new pool builds one instance for every id
    below the pool size whose detector could be made: those ids are the ids
    of the instances, each with a detector and in-use flag 0; all of them are
    in the master list and in the available-queue (no instance is ever
    discarded for lack of room), so total_instances, available_count and
    total_created are their number, and nothing is active or reused.  It
    returns the failed-to-initialize error exactly when the pool size is
    positive and no detector could be made; it returns no other error. *)
Theorem Initialize_builds (cfg : SileroVADConfig) (env : InitEnv) :
  match NewSileroVADPool cfg with
  | None => PoolSize cfg < 0
  | Some p =>
      let r := Initialize env {| heap := []; pool := p |} in
      let ids := built env (Z.to_nat (PoolSize cfg)) in
      0 <= PoolSize cfg /\
      ID <$> heap (snd r) ≡ₚ Z.of_nat <$> ids /\
      Forall (fun i => InUse i = 0 /\ is_Some (VAD i)) (heap (snd r)) /\
      available (pool (snd r)) ≡ₚ instances (pool (snd r)) /\
      total_instances (GetStats (snd r)) = Z.of_nat (length ids) /\
      available_count (GetStats (snd r)) = Z.of_nat (length ids) /\
      total_created (GetStats (snd r)) =
        GoInt.wrap64 (Z.of_nat (length ids)) /\
      (PoolSize cfg < 2 ^ 63 ->
       total_created (GetStats (snd r)) = Z.of_nat (length ids)) /\
      active_count (GetStats (snd r)) = 0 /\
      total_reused (GetStats (snd r)) = 0 /\
      (fst r = Some ErrInitialize <-> 0 < PoolSize cfg /\ ids = []) /\
      (fst r = None \/ fst r = Some ErrInitialize)
  end.
Proof.
  unfold NewSileroVADPool.
  destruct (Z.ltb_spec (PoolSize cfg) 0) as [Hneg|Hsize]; [exact Hneg|].
  set (w0 := {| heap := [];
                pool := {| instances := []; available := [];
                           chan_closed := false; config := cfg;
                           totalCreated := 0; totalReused := 0;
                           totalActive := 0; ctx_done := false |} |}).
  assert (Hinv0 : init_inv cfg 0 w0).
  { unfold init_inv, w0; simpl. repeat split; auto. }
  pose proof (init_loop_inv cfg env (Z.to_nat (PoolSize cfg)) 0 0 w0 Hinv0
                ltac:(lia)) as Hinv.
  pose proof (init_loop_result cfg env (Z.to_nat (PoolSize cfg)) 0 0 w0 Hinv0
                ltac:(lia) eq_refl eq_refl eq_refl ltac:(constructor)) as Hres.
  cbv zeta in Hres. simpl in Hinv, Hres. unfold Initialize. simpl.
  fold (built env (Z.to_nat (PoolSize cfg))) in Hres.
  destruct (fold_left _ _ _) as [w' errs] eqn:Hfold. simpl in Hinv, Hres.
  destruct Hinv as (Hopen & Hav & Hins & Hlen & Hall & Hact & Hcfg).
  destruct Hres as (Hids & Herrs & Hcr & Hre & Hdone & Hvad).
  assert (Hheap : length (heap w') =
                  length (built env (Z.to_nat (PoolSize cfg)))).
  { rewrite <- (length_fmap ID), Hids, length_fmap. reflexivity. }
  assert (Hfst_snd : forall (b : bool),
    snd (if b then (Some ErrInitialize, w') else (None, w')) = w').
  { intros []; reflexivity. }
  cbv zeta. rewrite Hfst_snd. unfold GetStats. simpl.
  rewrite Hav, Hins, Hheap, Hcr, Hheap, Hre, Hact, !length_seq.
  split; [exact Hsize|]. split; [rewrite Hids; reflexivity|].
  split.
  { apply Forall_forall. intros i Hi.
    rewrite Forall_forall in Hall, Hvad. split; [apply Hall, Hi|apply Hvad, Hi]. }
  split; [reflexivity|]. split; [reflexivity|]. split; [reflexivity|].
  split; [reflexivity|].
  split.
  { intros Hsmall. apply wrap64_small.
    pose proof (length_filter_le (fun i => is_Some (init_vad env i))
                  (seq 0 (Z.to_nat (PoolSize cfg)))) as Hle.
    rewrite length_seq in Hle. unfold built. lia. }
  split; [reflexivity|]. split; [reflexivity|].
  destruct (Nat.eqb_spec errs 0) as [He|He],
    (Nat.eqb_spec (length (built env (Z.to_nat (PoolSize cfg)))) 0) as [Hb|Hb];
    simpl.
  - split; [|auto]. split; [discriminate|]. intros [Hpos _]. lia.
  - split; [|auto]. split; [discriminate|]. intros [_ Hnil].
    rewrite Hnil in Hb. contradiction.
  - split; [|auto]. split; [|reflexivity]. intros _.
    split; [lia|]. destruct (built env _); [reflexivity|discriminate].
  - split; [|auto]. split; [discriminate|]. intros [_ Hnil].
    rewrite Hnil in Hb. contradiction.
Qed.

End PoolLifecycle.

Section PoolUse.
Import Pool.
Context {V : Vad}.

Lemma wrap64_idem (z : Z) : GoInt.wrap64 (GoInt.wrap64 z) = GoInt.wrap64 z.
Proof.
  pose proof (wrap64_add z 0) as H. unfold GoInt.add64 in H.
  rewrite !Z.add_0_r in H. exact H.
Qed.

(** On a pool that satisfies the invariant [Get] finishes at its first
    attempt: it takes the head of the queue, which is idle, or goes for a
    transient instance. *)
Lemma Get_head (fuel : nat) (env : GetEnv) (w : World) (a : nat)
    (rest : list nat) :
  pool_inv w -> available (pool w) = a :: rest ->
  exists i, heap w !! a = Some i /\ InUse i = 0 /\ (a ∉ rest) /\
    Get (S fuel) env w =
    Some (if ctx_done (pool w) && get_prefer_done env
          then (GetErr ErrShuttingDown, w)
          else (GetOk a,
                {| heap := <[a := SetLastUsed (get_now env)
                                    (set_InUse 1 i)]> (heap w);
                   pool := add_counters 0 1 1
                             (set_available rest (pool w)) |})).
Proof.
  intros [Hopen Hnd Hidle _ _ _ _ _] Hav. simpl. rewrite Hav in *.
  inversion Hidle as [|? ? (i & Hi & H0) _]; subst.
  inversion Hnd as [|? ? Hnotin _]; subst.
  exists i. split; [exact Hi|]. split; [exact H0|]. split; [exact Hnotin|].
  rewrite Hi, H0. simpl.
  destruct (ctx_done (pool w) && get_prefer_done env); reflexivity.
Qed.

Lemma Get_empty (fuel : nat) (env : GetEnv) (w : World) :
  pool_inv w -> available (pool w) = [] ->
  Get (S fuel) env w =
  Some (if ctx_done (pool w) then (GetErr ErrShuttingDown, w)
        else createNewInstance env w).
Proof.
  intros [Hopen _ _ _ _ _ _ _] Hav. simpl. rewrite Hav, Hopen.
  destruct (ctx_done (pool w)); reflexivity.
Qed.

Lemma pooled_snoc_transient (h : list SileroVADInstance)
    (x : SileroVADInstance) :
  ID x = -1 -> pooled_count (h ++ [x]) = pooled_count h.
Proof.
  intros Hx. unfold pooled_count. rewrite length_filter_snoc.
  destruct (decide (ID x <> -1)); [contradiction|lia].
Qed.

Lemma master_insert (h : list SileroVADInstance) (a : nat)
    (i i' : SileroVADInstance) (l : list nat) :
  h !! a = Some i -> ID i' = ID i ->
  Forall (fun b => exists x, h !! b = Some x /\ ID x <> -1) l ->
  Forall (fun b => exists x, <[a := i']> h !! b = Some x /\ ID x <> -1) l.
Proof.
  intros Hi Hid Hall. eapply Forall_impl; [exact Hall|]. simpl.
  intros b (x & Hx & Hne). destruct (decide (b = a)) as [->|Hba].
  - exists i'. rewrite list_lookup_insert_eq by (eapply lookup_lt_Some; exact Hi).
    split; [reflexivity|]. rewrite Hid. congruence.
  - exists x. rewrite list_lookup_insert_ne by congruence. auto.
Qed.

Lemma master_snoc (h : list SileroVADInstance) (x : SileroVADInstance)
    (l : list nat) :
  Forall (fun b => exists i, h !! b = Some i /\ ID i <> -1) l ->
  Forall (fun b => exists i, (h ++ [x]) !! b = Some i /\ ID i <> -1) l.
Proof.
  intros Hall. eapply Forall_impl; [exact Hall|]. simpl.
  intros b (i & Hi & Hne). exists i. split; [|exact Hne].
  apply lookup_app_l_Some. exact Hi.
Qed.

Lemma Get_ledger (fuel : nat) (env : GetEnv) (w : World)
    (out : GetOutcome) (w' : World) :
  pool_inv w -> ledger_inv w ->
  Get (S fuel) env w = Some (out, w') -> ledger_inv w'.
Proof.
  intros Hinv (Hdone & Hcr & Hins & Hmaster) Hget.
  destruct (available (pool w)) as [|a rest] eqn:Hav.
  - rewrite (Get_empty fuel env w Hinv Hav), Hdone in Hget.
    unfold createNewInstance in Hget.
    destruct (get_new_vad env) as [vad|]; injection Hget as <- <-.
    + unfold ledger_inv. simpl. split; [exact Hdone|].
      rewrite Hcr, wrap64_add, length_app, pooled_snoc_transient by reflexivity.
      simpl. split; [f_equal; lia|]. split; [exact Hins|].
      apply master_snoc, Hmaster.
    + unfold ledger_inv. auto.
  - destruct (Get_head fuel env w a rest Hinv Hav) as (i & Hi & H0 & _ & Hc).
    rewrite Hdone in Hc. cbn [andb] in Hc.
    rewrite Hc in Hget. injection Hget as <- <-.
    unfold ledger_inv. simpl. split; [exact Hdone|].
    rewrite Hcr, wrap64_add, length_insert, Z.add_0_r.
    split; [reflexivity|].
    split; [erewrite pooled_insert; [exact Hins|exact Hi|reflexivity]|].
    eapply master_insert; [exact Hi|reflexivity|exact Hmaster].
Qed.

Lemma Put_ledger (now : Time) (instance : option nat) (w : World) :
  pool_inv w -> ledger_inv w -> ledger_inv (snd (Put now instance w)).
Proof.
  intros Hinv (Hdone & Hcr & Hins & Hmaster). unfold Put.
  destruct instance as [a|]; [|unfold ledger_inv; auto].
  destruct (heap w !! a) as [i|] eqn:Hi; [|unfold ledger_inv; auto].
  destruct (InUse i =? 1); [|unfold ledger_inv; auto].
  destruct (Reset_fields (SetLastUsed now (set_InUse 0 i))) as (Hid1 & _).
  destruct (Destroy_fields (Reset (SetLastUsed now (set_InUse 0 i))))
    as (Hid2 & _).
  simpl. rewrite (inv_open w Hinv).
  change (has_room (add_counters 0 0 (-1) (pool w))) with (has_room (pool w)).
  destruct (has_room (pool w)); unfold ledger_inv; simpl;
    rewrite Hcr, wrap64_add, length_insert, Z.add_0_r;
    (split; [exact Hdone|]); (split; [reflexivity|]).
  - split; [erewrite pooled_insert; [exact Hins|exact Hi|]|
            eapply master_insert; [exact Hi| |exact Hmaster]];
      rewrite Hid1; reflexivity.
  - split; [erewrite pooled_insert; [exact Hins|exact Hi|]|
            eapply master_insert; [exact Hi| |exact Hmaster]];
      rewrite Hid2, Hid1; reflexivity.
Qed.

Lemma boot_ledger (cfg : SileroVADConfig) (env : InitEnv) (w : World) :
  boot cfg env = Some w -> ledger_inv w.
Proof.
  unfold boot, NewSileroVADPool.
  destruct (Z.ltb_spec (PoolSize cfg) 0) as [|Hsize]; [discriminate|].
  set (w0 := {| heap := [];
                pool := {| instances := []; available := [];
                           chan_closed := false; config := cfg;
                           totalCreated := 0; totalReused := 0;
                           totalActive := 0; ctx_done := false |} |}).
  assert (Hinv0 : init_inv cfg 0 w0).
  { unfold init_inv, w0; simpl. repeat split; auto. }
  pose proof (init_loop_inv cfg env (Z.to_nat (PoolSize cfg)) 0 0 w0 Hinv0
                ltac:(lia)) as Hinv.
  pose proof (init_loop_result cfg env (Z.to_nat (PoolSize cfg)) 0 0 w0 Hinv0
                ltac:(lia) eq_refl eq_refl eq_refl ltac:(constructor)) as Hres.
  cbv zeta in Hres. simpl in Hinv, Hres. unfold Initialize. simpl.
  destruct (fold_left _ _ _) as [w' errs] eqn:Hfold. simpl in Hinv, Hres.
  destruct (_ && _); [discriminate|]. intros [= <-].
  destruct Hinv as (_ & _ & Hins & _ & Hall & _).
  destruct Hres as (_ & _ & Hcr & _ & Hdone & _).
  unfold ledger_inv. split; [exact Hdone|]. split; [exact Hcr|].
  rewrite Hins, length_seq. unfold pooled_count.
  assert (Hf : filter (fun i => ID i <> -1) (heap w') = heap w').
  { clear -Hall. induction Hall as [|i h [_ Hi] _ IH]; [reflexivity|].
    rewrite filter_cons. destruct (decide (ID i <> -1)); [|contradiction].
    rewrite IH. reflexivity. }
  rewrite Hf. split; [reflexivity|].
  apply Forall_forall. intros a Ha. apply elem_of_seq in Ha.
  destruct (lookup_lt_is_Some_2 (heap w') a) as [i Hi]; [lia|].
  exists i. split; [exact Hi|].
  eapply Forall_lookup_1 in Hall; [|exact Hi]. tauto.
Qed.

(** Every reachable state satisfies both invariants. *)
Lemma reachable_inv (w : World) : reachable w -> pool_inv w /\ ledger_inv w.
Proof.
  intros (cfg & env & ops & w0 & Hboot & Hrun).
  destruct (boot_inv cfg env w0 Hboot) as (Hinv0 & _).
  pose proof (boot_ledger cfg env w0 Hboot) as Hled0.
  clear Hboot. revert w0 Hinv0 Hled0 Hrun.
  induction ops as [|op ops IH]; intros w0 Hinv0 Hled0 Hrun; simpl in Hrun.
  - injection Hrun as <-. auto.
  - destruct op as [genv|now instance]; cbn [step] in Hrun.
    + destruct (Get_inv (length (available (pool w0))) genv w0 Hinv0)
        as (out & w1 & Hget & Hinv1 & _).
      rewrite Hget in Hrun. eapply IH; [exact Hinv1| |exact Hrun].
      exact (Get_ledger _ genv w0 out w1 Hinv0 Hled0 Hget).
    + destruct (Put_inv now instance w0 Hinv0) as (Hinv1 & _).
      eapply IH; [exact Hinv1| |exact Hrun].
      apply Put_ledger; assumption.
Qed.

End PoolUse.

Section PoolTheorems.
Import Pool.
Context {V : Vad}.

(** X9. On a pool that was started and then used through [Get] and [Put],
    a [Get] finishes at its first attempt and never panics or reports a
    shutdown.  With instances queued it hands out the one at the head of the
    queue: that instance was idle, is now marked in use and stamped with the
    current time, and is no longer queued; the rest of the queue and every
    other instance are as before, and total_reused and active_count go up by
    one.  With the queue empty it makes a transient instance (ID -1, in use)
    that is not entered in the master list, counting it in total_created and
    active_count -- or, if no detector can be made, returns the
    create-instance error and leaves the pool as it was. *)
Theorem Get_on_reachable (fuel : nat) (env : GetEnv) (w : World) :
  reachable w ->
  match available (pool w) with
  | a :: rest =>
      exists (i : SileroVADInstance) (w' : World),
        Get (S fuel) env w = Some (GetOk a, w') /\
        heap w !! a = Some i /\ InUse i = 0 /\
        heap w' !! a = Some {| ID := ID i; VAD := VAD i;
                               LastUsed := get_now env; InUse := 1 |} /\
        available (pool w') = rest /\ (a ∉ rest) /\
        (forall b, b <> a -> heap w' !! b = heap w !! b) /\
        instances (pool w') = instances (pool w) /\
        total_reused (GetStats w') = GoInt.add64 (total_reused (GetStats w)) 1 /\
        active_count (GetStats w') = GoInt.add64 (active_count (GetStats w)) 1 /\
        total_created (GetStats w') = total_created (GetStats w)
  | [] =>
      match get_new_vad env with
      | Some vad =>
          exists w' : World,
            Get (S fuel) env w = Some (GetOk (length (heap w)), w') /\
            heap w' = heap w ++ [{| ID := -1; VAD := Some vad;
                                    LastUsed := get_now env; InUse := 1 |}] /\
            available (pool w') = [] /\
            instances (pool w') = instances (pool w) /\
            (length (heap w) ∉ instances (pool w)) /\
            total_created (GetStats w') =
              GoInt.add64 (total_created (GetStats w)) 1 /\
            active_count (GetStats w') =
              GoInt.add64 (active_count (GetStats w)) 1
      | None => Get (S fuel) env w = Some (GetErr ErrCreateInstance, w)
      end
  end.
Proof.
  intros Hreach.
  destruct (reachable_inv w Hreach) as (Hinv & Hdone & Hcr & Hins & Hmaster).
  destruct (available (pool w)) as [|a rest] eqn:Hav.
  - rewrite (Get_empty fuel env w Hinv Hav), Hdone.
    unfold createNewInstance. destruct (get_new_vad env) as [vad|];
      [|reflexivity].
    eexists. split; [reflexivity|]. simpl.
    split; [reflexivity|]. split; [exact Hav|]. split; [reflexivity|].
    split; [|auto].
    intros Hin. rewrite Forall_forall in Hmaster.
    destruct (Hmaster _ Hin) as (i & Hi & _).
    apply lookup_lt_Some in Hi. lia.
  - destruct (Get_head fuel env w a rest Hinv Hav) as (i & Hi & H0 & Hnotin & Hget).
    rewrite Hdone in Hget. cbn [andb] in Hget.
    exists i. eexists. split; [exact Hget|]. simpl.
    split; [exact Hi|]. split; [exact H0|].
    split; [apply list_lookup_insert_eq; eapply lookup_lt_Some; exact Hi|].
    split; [reflexivity|]. split; [exact Hnotin|].
    split; [intros b Hb; apply list_lookup_insert_ne; congruence|].
    split; [reflexivity|].
    rewrite (inv_active w Hinv), Hcr, !wrap64_add, Z.add_0_r. auto.
Qed.


Lemma Put_not_in_use (now : Time) (a : nat) (w : World) :
  match heap w !! a with
  | Some i => InUse i <> 1 -> Put now (Some a) w = (PutReturn, w)
  | None => Put now (Some a) w = (PutPanic, w)
  end.
Proof.
  unfold Put. destruct (heap w !! a) as [i|]; [|reflexivity].
  intros Hi. destruct (Z.eqb_spec (InUse i) 1); [contradiction|reflexivity].
Qed.

(** After a [Put] the instance behind the handle is not in use; the call
    panics on a handle that points to no instance. *)
Lemma Put_leaves_idle (now : Time) (a : nat) (w : World) :
  match heap (snd (Put now (Some a) w)) !! a with
  | Some i => InUse i <> 1
  | None => fst (Put now (Some a) w) = PutPanic
  end.
Proof.
  unfold Put. destruct (heap w !! a) as [i|] eqn:Hi.
  2:{ simpl. rewrite Hi. reflexivity. }
  pose proof (lookup_lt_Some _ _ _ Hi) as Hlt.
  destruct (Z.eqb_spec (InUse i) 1) as [H1|H1].
  2:{ simpl. rewrite Hi. exact H1. }
  destruct (Reset_fields (SetLastUsed now (set_InUse 0 i))) as (_ & Huse1 & _).
  destruct (Destroy_fields (Reset (SetLastUsed now (set_InUse 0 i))))
    as (_ & Huse2 & _).
  simpl in Huse1. rewrite Huse1 in Huse2.
  destruct (chan_closed _); [|destruct (has_room _)]; simpl;
    rewrite list_lookup_insert_eq by exact Hlt; lia.
Qed.

(** X10. Returning the same handle twice is the same as returning it once:
    the second [Put] finds the in-use flag cleared and changes nothing -- the
    instance is not queued a second time and active_count is not decremented
    again -- and it returns normally if the first one did.  This holds for
    every pool state and handle (nil, unknown, idle, in use; queue full or
    not; channel open or closed). *)
Theorem Put_twice (now now' : Time) (instance : option nat) (w : World) :
  snd (Put now' instance (snd (Put now instance w))) = snd (Put now instance w)
  /\ (fst (Put now instance w) = PutReturn ->
      fst (Put now' instance (snd (Put now instance w))) = PutReturn).
Proof.
  destruct instance as [a|]; [|split; reflexivity].
  pose proof (Put_leaves_idle now a w) as Hidle.
  pose proof (Put_not_in_use now' a (snd (Put now (Some a) w))) as Hsecond.
  destruct (heap (snd (Put now (Some a) w)) !! a) as [i|].
  - rewrite (Hsecond Hidle). split; reflexivity.
  - rewrite Hsecond, Hidle. split; [reflexivity|discriminate].
Qed.

(** X11. Taking the instance at the head of the queue and returning it:
    on a reachable pool with instances queued, [Get] followed by [Put] of the
    handle it returned moves that instance from the head of the queue to its
    end (the queue is rotated by one), with the flag cleared, the time of the
    return stamped and the detector kept with its segment queue emptied;
    active_count and total_created are what they were, total_reused is one
    more, and no other instance changed. *)
Theorem Get_then_Put (fuel : nat) (env : GetEnv) (now : Time) (w : World)
    (a : nat) (rest : list nat) :
  reachable w -> available (pool w) = a :: rest ->
  exists (i : SileroVADInstance) (w1 : World),
    heap w !! a = Some i /\
    Get (S fuel) env w = Some (GetOk a, w1) /\
    fst (Put now (Some a) w1) = PutReturn /\
    let w2 := snd (Put now (Some a) w1) in
    available (pool w2) = rest ++ [a] /\
    heap w2 !! a = Some (Reset {| ID := ID i; VAD := VAD i;
                                  LastUsed := now; InUse := 0 |}) /\
    (forall d, VAD i = Some d ->
       exists d', VAD (Reset {| ID := ID i; VAD := VAD i;
                                LastUsed := now; InUse := 0 |}) = Some d' /\
                  det_queue d' = []) /\
    (forall b, b <> a -> heap w2 !! b = heap w !! b) /\
    instances (pool w2) = instances (pool w) /\
    active_count (GetStats w2) = active_count (GetStats w) /\
    total_created (GetStats w2) = total_created (GetStats w) /\
    total_reused (GetStats w2) = GoInt.add64 (total_reused (GetStats w)) 1.
Proof.
  intros Hreach Hav.
  destruct (reachable_inv w Hreach) as (Hinv & Hdone & Hcr & Hins & Hmaster).
  destruct (Get_head fuel env w a rest Hinv Hav) as (i & Hi & H0 & Hnotin & Hget).
  rewrite Hdone in Hget. cbn [andb] in Hget.
  pose proof (lookup_lt_Some _ _ _ Hi) as Hlt.
  exists i. eexists. split; [exact Hi|]. split; [exact Hget|].
  assert (Hroom : has_room (set_available rest (pool w)) = true).
  { pose proof (inv_capacity w Hinv) as Hcap. rewrite Hav in Hcap.
    unfold has_room, capacity in *. simpl in *. apply Z.ltb_lt. lia. }
  unfold Put. simpl. rewrite list_lookup_insert_eq by exact Hlt. simpl.
  rewrite (inv_open w Hinv).
  change (has_room (add_counters 0 0 (-1)
            (add_counters 0 1 1 (set_available rest (pool w)))))
    with (has_room (set_available rest (pool w))).
  rewrite Hroom. simpl. rewrite list_insert_insert_eq.
  split; [reflexivity|]. split; [reflexivity|].
  split; [apply list_lookup_insert_eq; exact Hlt|].
  split.
  { intros d Hd.
    apply (Reset_VAD {| ID := ID i; VAD := VAD i; LastUsed := now;
                        InUse := 0 |} d). exact Hd. }
  split; [intros b Hb; apply list_lookup_insert_ne; congruence|].
  split; [reflexivity|].
  rewrite (inv_active w Hinv), Hcr, !wrap64_add, !Z.add_0_r.
  split; [f_equal; lia|]. split; [reflexivity|].
  unfold GoInt.add64. rewrite ?Z.add_0_r. apply wrap64_idem.
Qed.


Lemma pooled_or_transient (h : list SileroVADInstance) :
  length h = (pooled_count h + transient_count h)%nat.
Proof.
  unfold pooled_count, transient_count.
  induction h as [|i h IH]; [reflexivity|].
  rewrite !filter_cons.
  destruct (decide (ID i <> -1)), (decide (ID i = -1)); simpl; lia.
Qed.

(** X12. On a reachable pool every instance object ever made is counted
    once: total_created is the number of objects (as an int64), which is
    total_instances plus the number of transient instances made so far.  The
    master list holds only instances built at start-up -- a transient
    instance never enters it -- and never more than pool_size of them. *)
Theorem pool_ledger (w : World) :
  reachable w ->
  total_created (GetStats w) = GoInt.wrap64 (Z.of_nat (length (heap w))) /\
  total_instances (GetStats w) = Z.of_nat (pooled_count (heap w)) /\
  (Z.of_nat (length (heap w)) < 2 ^ 63 ->
   total_created (GetStats w) =
     total_instances (GetStats w) + Z.of_nat (transient_count (heap w))) /\
  total_instances (GetStats w) <= pool_size (GetStats w) /\
  (forall a, a ∈ instances (pool w) ->
     exists i, heap w !! a = Some i /\ ID i <> -1).
Proof.
  intros Hreach.
  destruct (reachable_inv w Hreach) as (Hinv & Hdone & Hcr & Hins & Hmaster).
  unfold GetStats. simpl. rewrite Hcr, Hins.
  split; [reflexivity|]. split; [reflexivity|].
  split; [|split].
  - intros Hsmall. rewrite wrap64_small by lia.
    pose proof (pooled_or_transient (heap w)). lia.
  - pose proof (inv_size w Hinv) as Hsize. unfold capacity in Hsize. lia.
  - intros a Ha. rewrite Forall_forall in Hmaster. apply Hmaster, Ha.
Qed.

Lemma Destroy_idem (i : SileroVADInstance) : Destroy (Destroy i) = Destroy i.
Proof. unfold Destroy. destruct (VAD i) eqn:H; simpl; [reflexivity|]. rewrite H. reflexivity. Qed.

Lemma destroy_at_lookup (a b : nat) (h : list SileroVADInstance) :
  destroy_at a h !! b =
  if decide (b = a) then Destroy <$> h !! b else h !! b.
Proof.
  unfold destroy_at. destruct (decide (b = a)) as [->|Hne].
  - destruct (h !! a) as [i|] eqn:Hi; [|rewrite Hi; reflexivity].
    rewrite list_lookup_insert_eq by (eapply lookup_lt_Some; exact Hi).
    reflexivity.
  - destruct (h !! a) as [i|]; [|reflexivity].
    apply list_lookup_insert_ne. congruence.
Qed.

Lemma destroy_all_lookup (l : list nat) :
  forall (h : list SileroVADInstance) (b : nat),
    fold_left (fun h a => destroy_at a h) l h !! b =
    if decide (b ∈ l) then Destroy <$> h !! b else h !! b.
Proof.
  induction l as [|a l IH]; intros h b; simpl.
  - destruct (decide (b ∈ [])) as [Hin|_]; [|reflexivity].
    apply elem_of_nil in Hin. contradiction.
  - rewrite IH, destroy_at_lookup.
    destruct (decide (b ∈ l)) as [Hl|Hl], (decide (b = a)) as [->|Hba],
      (decide (_ ∈ a :: l)) as [Hal|Hal]; try reflexivity.
    + destruct (h !! a) as [i|]; simpl; [|reflexivity].
      rewrite Destroy_idem. reflexivity.
    + exfalso. apply Hal. right. exact Hl.
    + exfalso. apply Hal. right. exact Hl.
    + exfalso. apply Hal. left.
    + apply elem_of_cons in Hal as [?|?]; contradiction.
Qed.

(** X13. [Shutdown] on a pool whose channel is open destroys the detector
    of every instance in the queue or in the master list -- also of those
    that are in use -- and leaves every other instance (a transient one held
    by a session) as it is; it empties the master list and the queue, closes
    the channel and cancels the context, and keeps the counters.
    Afterwards [Get] never hands out an instance: it returns the
    shutting-down error or panics on the nil it receives from the closed
    channel, whichever ready case [select] takes; a [Put] of an instance that
    is still in use panics on the closed channel; and a second [Shutdown]
    panics. *)
Theorem Shutdown_destroys (w : World) :
  chan_closed (pool w) = false ->
  exists w' : World,
    Shutdown w = Some w' /\
    instances (pool w') = [] /\ available (pool w') = [] /\
    chan_closed (pool w') = true /\ ctx_done (pool w') = true /\
    GetStats w' =
      {| vad_type := vad_type (GetStats w); pool_size := pool_size (GetStats w);
         max_idle := max_idle (GetStats w); total_instances := 0;
         available_count := 0; active_count := active_count (GetStats w);
         total_created := total_created (GetStats w);
         total_reused := total_reused (GetStats w) |} /\
    (forall b,
       heap w' !! b =
       if decide (b ∈ instances (pool w) \/ b ∈ available (pool w))
       then Destroy <$> heap w !! b else heap w !! b) /\
    (forall (fuel : nat) (env : GetEnv),
       Get (S fuel) env w' =
       Some (if get_prefer_done env then GetErr ErrShuttingDown else GetPanic,
             w')) /\
    (forall (now : Time) (a : nat) (i : SileroVADInstance),
       heap w' !! a = Some i -> InUse i = 1 ->
       fst (Put now (Some a) w') = PutPanic) /\
    Shutdown w' = None.
Proof.
  intros Hopen. unfold Shutdown at 1. rewrite Hopen.
  eexists. split; [reflexivity|]. simpl.
  split; [reflexivity|]. split; [reflexivity|]. split; [reflexivity|].
  split; [reflexivity|]. split; [reflexivity|].
  split; [|split; [|split]].
  - intros b. rewrite !destroy_all_lookup.
    destruct (decide (b ∈ instances (pool w))) as [Hi|Hi],
      (decide (b ∈ available (pool w))) as [Ha|Ha],
      (decide (_ \/ _)) as [Hor|Hor]; try reflexivity; try tauto.
    destruct (heap w !! b) as [i|]; simpl; [|reflexivity].
    rewrite Destroy_idem. reflexivity.
  - intros fuel env. destruct (get_prefer_done env); reflexivity.
  - intros now a i Hi H1. unfold Put. rewrite Hi, H1. reflexivity.
  - reflexivity.
Qed.

End PoolTheorems.

Section PoolLifecycleExamples.
Import Pool Fixtures.

(** The first [Get] on a pool of size 1 takes instance 0 from the queue. *)
Lemma Get_on_reachable_witness :
  exists (i : @SileroVADInstance toy_vad) (w' : @World toy_vad),
    Get 1 (get_env 10) pool1 = Some (GetOk 0%nat, w') /\
    heap pool1 !! 0%nat = Some i /\ InUse i = 0 /\
    heap w' !! 0%nat = Some {| ID := ID i; VAD := VAD i;
                               LastUsed := 10; InUse := 1 |} /\
    available (pool w') = [] /\ (0%nat ∉ @nil nat) /\
    (forall b, b <> 0%nat -> heap w' !! b = heap pool1 !! b) /\
    instances (pool w') = instances (pool pool1) /\
    total_reused (GetStats w') =
      GoInt.add64 (total_reused (GetStats pool1)) 1 /\
    active_count (GetStats w') =
      GoInt.add64 (active_count (GetStats pool1)) 1 /\
    total_created (GetStats w') = total_created (GetStats pool1).
Proof.
  apply (Get_on_reachable (V := toy_vad) 0 (get_env 10) pool1).
  exists (pool_config 1), init_all, [], pool1. split; reflexivity.
Defined.

(** Instance 0 of a pool of size 1 is taken and returned. *)
Lemma Get_then_Put_witness :
  exists (i : @SileroVADInstance toy_vad) (w1 : @World toy_vad),
    heap pool1 !! 0%nat = Some i /\
    Get 1 (get_env 10) pool1 = Some (GetOk 0%nat, w1) /\
    fst (Put 20 (Some 0%nat) w1) = PutReturn /\
    let w2 := snd (Put 20 (Some 0%nat) w1) in
    available (pool w2) = [] ++ [0%nat] /\
    heap w2 !! 0%nat = Some (Reset {| ID := ID i; VAD := VAD i;
                                      LastUsed := 20; InUse := 0 |}) /\
    (forall d, VAD i = Some d ->
       exists d', VAD (Reset {| ID := ID i; VAD := VAD i;
                                LastUsed := 20; InUse := 0 |}) = Some d' /\
                  det_queue d' = []) /\
    (forall b, b <> 0%nat -> heap w2 !! b = heap pool1 !! b) /\
    instances (pool w2) = instances (pool pool1) /\
    active_count (GetStats w2) = active_count (GetStats pool1) /\
    total_created (GetStats w2) = total_created (GetStats pool1) /\
    total_reused (GetStats w2) = GoInt.add64 (total_reused (GetStats pool1)) 1.
Proof.
  apply (Get_then_Put (V := toy_vad) 0 (get_env 10) 20 pool1 0%nat []).
  - exists (pool_config 1), init_all, [], pool1. split; reflexivity.
  - reflexivity.
Defined.

(** The pool of size 1 after two [Get]s: one pooled instance, one transient
    one. *)
Lemma pool_ledger_witness :
  total_created (GetStats pool1_exhausted) =
    GoInt.wrap64 (Z.of_nat (length (heap pool1_exhausted))) /\
  total_instances (GetStats pool1_exhausted) =
    Z.of_nat (pooled_count (heap pool1_exhausted)) /\
  (Z.of_nat (length (heap pool1_exhausted)) < 2 ^ 63 ->
   total_created (GetStats pool1_exhausted) =
     total_instances (GetStats pool1_exhausted) +
     Z.of_nat (transient_count (heap pool1_exhausted))) /\
  total_instances (GetStats pool1_exhausted) <=
    pool_size (GetStats pool1_exhausted) /\
  (forall a, a ∈ instances (pool pool1_exhausted) ->
     exists i, heap pool1_exhausted !! a = Some i /\ ID i <> -1).
Proof.
  apply (pool_ledger (V := toy_vad) pool1_exhausted).
  exists (pool_config 1), init_all, [OpGet (get_env 10); OpGet (get_env 20)],
    pool1.
  split; reflexivity.
Defined.

(** Shutting down the pool of size 1 while both its instance and a
    transient one are out. *)
Lemma Shutdown_destroys_witness :
  exists w' : @World toy_vad,
    Shutdown pool1_exhausted = Some w' /\
    instances (pool w') = [] /\ available (pool w') = [] /\
    chan_closed (pool w') = true /\ ctx_done (pool w') = true /\
    GetStats w' =
      {| vad_type := vad_type (GetStats pool1_exhausted);
         pool_size := pool_size (GetStats pool1_exhausted);
         max_idle := max_idle (GetStats pool1_exhausted);
         total_instances := 0; available_count := 0;
         active_count := active_count (GetStats pool1_exhausted);
         total_created := total_created (GetStats pool1_exhausted);
         total_reused := total_reused (GetStats pool1_exhausted) |} /\
    (forall b,
       heap w' !! b =
       if decide (b ∈ instances (pool pool1_exhausted) \/
                  b ∈ available (pool pool1_exhausted))
       then Destroy <$> heap pool1_exhausted !! b
       else heap pool1_exhausted !! b) /\
    (forall (fuel : nat) (env : GetEnv),
       Get (S fuel) env w' =
       Some (if get_prefer_done env then GetErr ErrShuttingDown else GetPanic,
             w')) /\
    (forall (now : Time) (a : nat) (i : @SileroVADInstance toy_vad),
       heap w' !! a = Some i -> InUse i = 1 ->
       fst (Put now (Some a) w') = PutPanic) /\
    Shutdown w' = None.
Proof.
  apply (Shutdown_destroys (V := toy_vad) pool1_exhausted). reflexivity.
Defined.

(** In that pool the pooled instance 0, though in use, loses its detector,
    the transient instance at address 1 keeps it, and the counters still
    report two active instances. *)
Example shutdown_while_in_use :
  exists w' i0 i1,
    Shutdown pool1_exhausted = Some w' /\
    heap w' !! 0%nat = Some i0 /\ InUse i0 = 1 /\ VAD i0 = None /\
    heap w' !! 1%nat = Some i1 /\ InUse i1 = 1 /\
    VAD i1 = Some toy_detector /\
    active_count (GetStats w') = 2.
Proof. do 3 eexists. repeat split; reflexivity. Qed.

(** A pool of size 3 in which the detector of instance 1 cannot be made
    starts with the instances 0 and 2; with no detector at all it fails to
    start; with size 0 it starts empty. *)
Example initialize_partial :
  let some_fail : @InitEnv toy_vad :=
    {| init_vad := fun i => match i with 1%nat => None | _ => Some toy_detector end;
       init_now := fun _ => 0 |} in
  let none_built : @InitEnv toy_vad :=
    {| init_vad := fun _ => None; init_now := fun _ => 0 |} in
  (exists w, boot (pool_config 3) some_fail = Some w /\
     ID <$> heap w = [0; 2] /\ available (pool w) = [0%nat; 1%nat] /\
     total_created (GetStats w) = 2) /\
  boot (pool_config 3) none_built = None /\
  (exists w, boot (pool_config 0) none_built = Some w /\ heap w = []) /\
  boot (pool_config (-1)) init_all = None.
Proof.
  cbv zeta. split; [eexists; repeat split; reflexivity|].
  split; [reflexivity|]. split; [eexists; split; reflexivity|reflexivity].
Qed.

End PoolLifecycleExamples.

(** ** Decoding PCM frames *)

Section PcmDecoding.
Import Session.

(** The two ways of assembling a sample agree on all 256 x 256 pairs of
    byte values. *)
Lemma sample_table :
  forallb (fun lo =>
    forallb (fun hi =>
      Z.lor (Z.of_nat lo) (GoInt.wrap16 (Z.shiftl (Z.of_nat hi) 8)) =?
      GoInt.wrap16 (Z.of_nat lo + 256 * Z.of_nat hi)) (seq 0 256))
    (seq 0 256) = true.
Proof. vm_compute. reflexivity. Qed.

Lemma byte_value (b : Byte.byte) :
  exists n : nat, n ∈ seq 0 256 /\ Z.of_N (Byte.to_N b) = Z.of_nat n.
Proof.
  exists (N.to_nat (Byte.to_N b)). split.
  - apply elem_of_seq. pose proof (Byte.to_N_bounded b). lia.
  - lia.
Qed.

Lemma sample_of_value (lo hi : Byte.byte) :
  sample_of lo hi =
  GoInt.wrap16 (Z.of_N (Byte.to_N lo) + 256 * Z.of_N (Byte.to_N hi)).
Proof.
  destruct (byte_value lo) as (l & Hl & El), (byte_value hi) as (h & Hh & Eh).
  unfold sample_of. rewrite El, Eh.
  pose proof sample_table as Htab.
  rewrite forallb_forall in Htab. specialize (Htab l).
  rewrite forallb_forall in Htab.
  apply Z.eqb_eq, Htab; apply list_elem_of_In; assumption.
Qed.

Lemma to_float32_length (f : F32.t) (n : nat) :
  forall audioData : list Byte.byte,
    (length audioData <= n)%nat ->
    length (to_float32 f audioData) = Nat.div2 (length audioData).
Proof.
  induction n as [|n IH]; intros audioData Hn.
  - destruct audioData; [reflexivity|simpl in Hn; lia].
  - destruct audioData as [|lo [|hi rest]]; try reflexivity.
    cbn [to_float32 length Nat.div2]. rewrite IH; [reflexivity|].
    simpl in Hn. lia.
Qed.

(** X14. The sample assembled from two bytes is the little-endian signed
    16-bit value: lo + 256 * hi, read modulo 2^16 into -32768..32767.  Every
    int16 value is what its two's-complement bytes, low byte first, decode
    to.  A frame of n bytes converts to n / 2 samples; a trailing odd byte
    is not read. *)
Theorem pcm_decoding :
  (forall lo hi : Byte.byte,
     sample_of lo hi =
       GoInt.wrap16 (Z.of_N (Byte.to_N lo) + 256 * Z.of_N (Byte.to_N hi)) /\
     -32768 <= sample_of lo hi <= 32767) /\
  (forall (v : Z) (lo hi : Byte.byte),
     -32768 <= v <= 32767 ->
     Z.of_N (Byte.to_N lo) = v mod 256 ->
     Z.of_N (Byte.to_N hi) = (v mod 65536) / 256 ->
     sample_of lo hi = v) /\
  (forall (f : F32.t) (audioData : list Byte.byte),
     length (to_float32 f audioData) = Nat.div2 (length audioData)) /\
  (forall (f : F32.t) (audioData : list Byte.byte) (last : Byte.byte),
     Nat.Even (length audioData) ->
     to_float32 f (audioData ++ [last]) = to_float32 f audioData).
Proof.
  split; [|split; [|split]].
  - intros lo hi. split; [apply sample_of_value|].
    rewrite sample_of_value. unfold GoInt.wrap16.
    pose proof (Z.mod_pos_bound
      (Z.of_N (Byte.to_N lo) + 256 * Z.of_N (Byte.to_N hi) + 2 ^ 15) (2 ^ 16)
      ltac:(lia)). lia.
  - intros v lo hi Hv Hlo Hhi. rewrite sample_of_value, Hlo, Hhi.
    assert (Hsplit : v mod 256 + 256 * (v mod 65536 / 256) = v mod 65536).
    { replace (v mod 256) with ((v mod 65536) mod 256).
      - pose proof (Z.div_mod (v mod 65536) 256 ltac:(lia)). lia.
      - apply Z.mod_mod_divide. exists 256. reflexivity. }
    rewrite Hsplit. unfold GoInt.wrap16.
    change (2 ^ 16) with 65536. change (2 ^ 15) with 32768.
    rewrite Zplus_mod_idemp_l. rewrite Z.mod_small by lia. lia.
  - intros f audioData. apply (to_float32_length f (length audioData)). lia.
  - intros f audioData last [k Hk]. revert audioData Hk.
    induction k as [|k IH]; intros audioData Hk.
    + destruct audioData; [reflexivity|simpl in Hk; lia].
    + destruct audioData as [|lo [|hi rest]]; simpl in Hk; try lia.
      cbn [app to_float32]. rewrite (IH rest) by lia. reflexivity.
Qed.

End PcmDecoding.

(** ** Sessions: the send loop *)

Section SendLoop.
Import Config Session.

Lemma sendLoop_app (cfg : Config) (writes1 writes2 : list bool) :
  forall s : Session,
    sendLoop cfg (writes1 ++ writes2) s =
    if fst (sendLoop cfg writes1 s) then sendLoop cfg writes1 s
    else sendLoop cfg writes2 (snd (sendLoop cfg writes1 s)).
Proof.
  induction writes1 as [|b writes1 IH]; intros s; [reflexivity|].
  cbn [app sendLoop].
  destruct (SendQueue s) as [|msg q] eqn:Hq.
  - simpl. destruct writes2; simpl; rewrite ?Hq; reflexivity.
  - destruct (closed (sendLoop_step cfg b s) =? 1); [reflexivity|apply IH].
Qed.

Lemma wrap32_small (z : Z) : - 2 ^ 31 <= z < 2 ^ 31 -> GoInt.wrap32 z = z.
Proof.
  intros H. unfold GoInt.wrap32. rewrite Z.mod_small by lia. lia.
Qed.

(** [k] failed writes in a row, on a session that is open and has counted
    [c] failures so far. *)
Lemma sendLoop_failures (cfg : Config) (k : nat) :
  forall (s : Session) (c : Z),
    0 <= MaxSendErrors cfg < 2 ^ 31 - 1 ->
    closed s = 0 -> sendErrCount s = c -> 0 <= c ->
    (k <= length (SendQueue s))%nat ->
    c + Z.of_nat k <= MaxSendErrors cfg + 1 ->
    let r := sendLoop cfg (repeat false k) s in
    SendQueue (snd r) = drop k (SendQueue s) /\
    sendErrCount (snd r) = c + Z.of_nat k /\
    sendQueueCap (snd r) = sendQueueCap s /\
    VADInstance (snd r) = VADInstance s /\
    (k <> O ->
     fst r = (c + Z.of_nat k =? MaxSendErrors cfg + 1) /\
     closed (snd r) = if c + Z.of_nat k =? MaxSendErrors cfg + 1 then 1 else 0).
Proof.
  induction k as [|k IH]; intros s c HM Hopen Hc Hc0 Hlen Hsum.
  - simpl. rewrite Z.add_0_r. repeat split; auto; contradiction.
  - cbn [repeat sendLoop].
    destruct (SendQueue s) as [|msg q] eqn:Hq; [simpl in Hlen; lia|].
    assert (Hstep : sendLoop_step cfg false s =
              let s2 := set_sendErrCount (c + 1) (set_SendQueue q s) in
              if MaxSendErrors cfg <? c + 1 then set_closed 1 s2 else s2).
    { unfold sendLoop_step. rewrite Hq. simpl. rewrite Hopen, Hc. simpl.
      rewrite !wrap32_small by lia. reflexivity. }
    rewrite Hstep. cbv zeta.
    destruct (Z.ltb_spec (MaxSendErrors cfg) (c + 1)) as [Hover|Hunder].
    + assert (k = O) by lia. subst k. simpl. change (Z.of_nat 1) with 1.
      destruct (Z.eqb_spec (c + 1) (MaxSendErrors cfg + 1)); [|lia].
      rewrite drop_0. repeat split; auto.
    + simpl. rewrite Hopen. simpl.
      specialize (IH (set_sendErrCount (c + 1) (set_SendQueue q s)) (c + 1)
                    HM Hopen eq_refl ltac:(lia)).
      simpl in IH. simpl in Hlen.
      destruct IH as (Hqueue & Hcount & Hcap & Hv & Hclosed); [lia|lia|].
      split; [exact Hqueue|]. split; [rewrite Hcount; lia|].
      split; [exact Hcap|]. split; [exact Hv|]. intros _.
      destruct k as [|k].
      * simpl. change (Z.of_nat 1) with 1. rewrite Hopen.
        destruct (Z.eqb_spec (c + 1) (MaxSendErrors cfg + 1)); [lia|].
        auto.
      * match goal with |- context [?x =? MaxSendErrors cfg + 1] =>
          replace x with (c + 1 + Z.of_nat (S k)) by lia end.
        apply Hclosed. discriminate.
Qed.

(** X15. The send loop closes a session on too many failed writes in a
    row, and on nothing else.  With max_send_errors = M (0 <= M < 2^31 - 1),
    on an open session with a clean error count: after k <= M failed writes
    the session is still open, the loop goes on, and the count is k; the
    (M+1)-th failure in a row sets closed and makes the loop return -- the
    connection is not closed and the VAD instance is not given back by the
    loop.  A write that succeeds after j <= M failures puts the count back
    to 0.  Every turn takes its message off the queue. *)
Theorem send_error_threshold (cfg : Config) (s : Session) :
  0 <= MaxSendErrors cfg < 2 ^ 31 - 1 ->
  closed s = 0 -> sendErrCount s = 0 ->
  (forall k : nat,
     (k <= length (SendQueue s))%nat -> Z.of_nat k <= MaxSendErrors cfg + 1 ->
     let r := sendLoop cfg (repeat false k) s in
     SendQueue (snd r) = drop k (SendQueue s) /\
     sendErrCount (snd r) = Z.of_nat k /\
     (fst r = true <-> Z.of_nat k = MaxSendErrors cfg + 1) /\
     (closed (snd r) = 1 <-> Z.of_nat k = MaxSendErrors cfg + 1) /\
     (closed (snd r) = 0 <-> Z.of_nat k <> MaxSendErrors cfg + 1) /\
     VADInstance (snd r) = VADInstance s /\
     conn_open (snd r) = conn_open s) /\
  (forall j : nat,
     (j < length (SendQueue s))%nat -> Z.of_nat j <= MaxSendErrors cfg ->
     let r := sendLoop cfg (repeat false j ++ [true]) s in
     fst r = false /\ closed (snd r) = 0 /\ sendErrCount (snd r) = 0 /\
     SendQueue (snd r) = drop (S j) (SendQueue s)).
Proof.
  intros HM Hopen Hc. split.
  - intros k Hlen Hk.
    destruct (sendLoop_failures cfg k s 0 HM Hopen Hc ltac:(lia) Hlen ltac:(lia))
      as (Hq & Hcount & _ & Hv & Hcl).
    cbv zeta. split; [exact Hq|]. split; [rewrite Hcount; lia|].
    assert (Hconn : forall (writes : list bool) (s0 : Session),
              conn_open (snd (sendLoop cfg writes s0)) = conn_open s0).
    { induction writes as [|b writes IHw]; intros s0; [reflexivity|].
      cbn [sendLoop]. destruct (SendQueue s0) as [|m q] eqn:Hq0; [reflexivity|].
      assert (Hs : conn_open (sendLoop_step cfg b s0) = conn_open s0).
      { unfold sendLoop_step. rewrite Hq0. simpl.
        destruct (closed s0 =? 1); [reflexivity|].
        destruct b; [reflexivity|].
        destruct (_ <? _); reflexivity. }
      destruct (closed (sendLoop_step cfg b s0) =? 1); [exact Hs|].
      rewrite IHw. exact Hs. }
    destruct k as [|k].
    + simpl. rewrite Hopen. repeat split; auto; try lia; discriminate.
    + destruct (Hcl ltac:(discriminate)) as (Hfst & Hclosed).
      rewrite Hfst, Hclosed, Hconn.
      change (0 + Z.of_nat (S k)) with (Z.of_nat (S k)).
      destruct (Z.eqb_spec (Z.of_nat (S k)) (MaxSendErrors cfg + 1));
        repeat split; auto; try lia; try discriminate.
  - intros j Hlen Hj. cbv zeta. rewrite sendLoop_app.
    destruct (sendLoop_failures cfg j s 0 HM Hopen Hc ltac:(lia) ltac:(lia)
                ltac:(lia)) as (Hq & Hcount & _ & _ & Hcl).
    assert (Hstill : fst (sendLoop cfg (repeat false j) s) = false /\
                     closed (snd (sendLoop cfg (repeat false j) s)) = 0).
    { destruct j as [|j]; [simpl; auto|].
      destruct (Hcl ltac:(discriminate)) as (Hfst & Hclosed).
      rewrite Hfst, Hclosed.
      change (0 + Z.of_nat (S j)) with (Z.of_nat (S j)).
      destruct (Z.eqb_spec (Z.of_nat (S j)) (MaxSendErrors cfg + 1)); [lia|auto]. }
    destruct Hstill as (Hfst & Hclosed). rewrite Hfst.
    set (s1 := snd (sendLoop cfg (repeat false j) s)) in *.
    destruct (SendQueue s1) as [|msg q] eqn:Hq1.
    { apply (f_equal length) in Hq. rewrite length_drop in Hq.
      simpl in Hq. lia. }
    cbn [sendLoop]. rewrite Hq1.
    assert (Hstep : sendLoop_step cfg true s1 =
                    set_sendErrCount 0 (set_SendQueue q s1)).
    { unfold sendLoop_step. rewrite Hq1. simpl. rewrite Hclosed. reflexivity. }
    rewrite Hstep. simpl. rewrite Hclosed. simpl.
    repeat split; auto.
    replace (S j) with (j + 1)%nat by lia.
    rewrite <- drop_drop, <- Hq. reflexivity.
Qed.

End SendLoop.

(** ** Sessions: results, removal, statistics *)

Section SessionLifecycle.
Import Config Session.
Context {V : Pool.Vad}.

Lemma GetSession_miss (now : Time) (sessionID : string) (w : World) :
  sessionID ∉ sessions (mgr w) -> GetSession now sessionID w = (None, w).
Proof.
  intros Hno. unfold GetSession.
  destruct (decide (sessionID ∈ sessions (mgr w))); [contradiction|reflexivity].
Qed.

Lemma update_session_twice (sessionID : string) (s1 s2 : Session)
    (w : World) :
  update_session sessionID s2 (update_session sessionID s1 w) =
  update_session sessionID s2 w.
Proof.
  unfold update_session, set_mgr, set_objects. simpl.
  rewrite insert_insert_eq. reflexivity.
Qed.

Lemma set_SendQueue_same (s : Session) : set_SendQueue (SendQueue s) s = s.
Proof. destruct s; reflexivity. Qed.

(** The queue [handleRecognitionResult] leaves to a registered session. *)
Lemma handleRecognitionResult_hit (now_lookup now_stamp : Time)
    (sessionID : string) (text : option string) (w : World) (s : Session) :
  sessionID ∈ sessions (mgr w) ->
  objects (mgr w) !! sessionID = Some s ->
  handleRecognitionResult now_lookup now_stamp sessionID text w =
  update_session sessionID
    (set_SendQueue
       match text with
       | Some result =>
           if negb (closed s =? 1) && (0 <? Z.of_nat (String.length result))
              && (Z.of_nat (length (SendQueue s)) <? sendQueueCap s)
           then SendQueue s ++ [MsgFinal result now_stamp]
           else SendQueue s
       | None => SendQueue s
       end (set_LastSeen now_lookup s)) w.
Proof.
  intros Hreg Hobj. unfold handleRecognitionResult.
  rewrite (GetSession_hit _ _ _ _ Hreg Hobj). cbv beta iota zeta.
  change (closed (set_LastSeen now_lookup s)) with (closed s).
  assert (Hsame : update_session sessionID (set_LastSeen now_lookup s) w =
                  update_session sessionID
                    (set_SendQueue (SendQueue s) (set_LastSeen now_lookup s)) w).
  { change (SendQueue s) with (SendQueue (set_LastSeen now_lookup s)).
    rewrite set_SendQueue_same. reflexivity. }
  destruct (closed s =? 1); cbn [negb andb].
  { destruct text; exact Hsame. }
  destruct text as [result|]; [|exact Hsame].
  destruct (0 <? Z.of_nat (String.length result)); cbn [andb];
    [|exact Hsame].
  rewrite update_session_twice. unfold enqueue.
  change (SendQueue (set_LastSeen now_lookup s)) with (SendQueue s).
  change (sendQueueCap (set_LastSeen now_lookup s)) with (sendQueueCap s).
  destruct (Z.of_nat (length (SendQueue s)) <? sendQueueCap s);
    [reflexivity|exact Hsame].
Qed.

(** X16. [handleRecognitionResult] puts one "final" message, stamped with
    the current time, at the end of the session's send queue exactly when the
    session is registered and not closed, the recognition gave a non-empty
    text, and the queue has room; in every other case (unknown session,
    closed session, recognition failure, empty text, full queue) the queue is
    as before and the result is dropped.  It never blocks, never lets the
    queue grow beyond its capacity, and touches neither the registry, the
    pool nor any other session. *)
Theorem recognition_result_delivery (now_lookup now_stamp : Time)
    (sessionID : string) (text : option string) (w : World) :
  let w' := handleRecognitionResult now_lookup now_stamp sessionID text w in
  sessions (mgr w') = sessions (mgr w) /\
  vadPool w' = vadPool w /\ spawned w' = spawned w /\
  vad_calls w' = vad_calls w /\
  (forall other, other <> sessionID ->
     objects (mgr w') !! other = objects (mgr w) !! other) /\
  (sessionID ∉ sessions (mgr w) -> w' = w) /\
  (forall s, sessionID ∈ sessions (mgr w) ->
     objects (mgr w) !! sessionID = Some s ->
     exists s', objects (mgr w') !! sessionID = Some s' /\
       closed s' = closed s /\ VADInstance s' = VADInstance s /\
       sendQueueCap s' = sendQueueCap s /\
       SendQueue s' =
         match text with
         | Some result =>
             if negb (closed s =? 1) && (0 <? Z.of_nat (String.length result))
                && (Z.of_nat (length (SendQueue s)) <? sendQueueCap s)
             then SendQueue s ++ [MsgFinal result now_stamp]
             else SendQueue s
         | None => SendQueue s
         end /\
       (Z.of_nat (length (SendQueue s)) <= sendQueueCap s ->
        Z.of_nat (length (SendQueue s')) <= sendQueueCap s')).
Proof.
  cbv zeta.
  destruct (decide (sessionID ∈ sessions (mgr w))) as [Hreg|Hno].
  2:{ unfold handleRecognitionResult. rewrite (GetSession_miss _ _ _ Hno).
      repeat split; auto; contradiction. }
  destruct (objects (mgr w) !! sessionID) as [s|] eqn:Hobj.
  2:{ unfold handleRecognitionResult, GetSession.
      destruct (decide (sessionID ∈ sessions (mgr w))); [|contradiction].
      rewrite Hobj. repeat split; auto; try contradiction. discriminate. }
  rewrite (handleRecognitionResult_hit _ _ _ _ _ s Hreg Hobj).
  split; [reflexivity|]. split; [reflexivity|]. split; [reflexivity|].
  split; [reflexivity|].
  split; [intros other Ho; apply lookup_insert_ne; congruence|].
  split; [contradiction|]. intros s0 _ [= <-].
  eexists. split; [apply lookup_insert_eq|].
  split; [reflexivity|]. split; [reflexivity|]. split; [reflexivity|].
  split; [reflexivity|]. cbn [SendQueue sendQueueCap set_SendQueue set_LastSeen].
  intros Hfits. destruct text as [result|]; [|exact Hfits].
  destruct (negb _ && _); cbn [andb]; [|exact Hfits].
  destruct (Z.ltb_spec (Z.of_nat (length (SendQueue s))) (sendQueueCap s));
    [|exact Hfits].
  rewrite length_app. simpl. lia.
Qed.

(** An id that is not registered: results for it are dropped, frames for it
    are refused, removing it does nothing. *)
Lemma unregistered_inert (sessionID : string) (w : World) :
  sessionID ∉ sessions (mgr w) ->
  (forall (now_lookup now_stamp : Time) (text : option string),
     handleRecognitionResult now_lookup now_stamp sessionID text w = w) /\
  (forall (cfg : Config) (env : ProcessEnv) (audioData : list Byte.byte),
     ProcessAudioData cfg env sessionID audioData w =
     Some (Return (Some (ErrSessionNotFound sessionID)), w)) /\
  (forall now : Time, RemoveSession now sessionID w = (Return None, w)).
Proof.
  intros Hno. split; [|split].
  - intros nl ns text. unfold handleRecognitionResult.
    rewrite (GetSession_miss _ _ _ Hno). reflexivity.
  - intros cfg env audioData. unfold ProcessAudioData.
    rewrite (GetSession_miss _ _ _ Hno). reflexivity.
  - intros now. unfold RemoveSession.
    destruct (decide (sessionID ∈ sessions (mgr w))); [contradiction|reflexivity].
Qed.

(** [closeSession] returns or panics (in the pool's [Put]); it keeps the
    registry and the counters, and the objects of the other sessions. *)
Lemma closeSession_frame (now : Time) (sessionID : string) (w : World) :
  (fst (closeSession now sessionID w) = Return None \/
   fst (closeSession now sessionID w) = Panic) /\
  sessions (mgr (snd (closeSession now sessionID w))) = sessions (mgr w) /\
  activeSessions (mgr (snd (closeSession now sessionID w))) =
    activeSessions (mgr w) /\
  totalSessions (mgr (snd (closeSession now sessionID w))) =
    totalSessions (mgr w) /\
  (forall other, other <> sessionID ->
     objects (mgr (snd (closeSession now sessionID w))) !! other =
     objects (mgr w) !! other) /\
  (forall s, objects (mgr w) !! sessionID = Some s ->
     exists s', objects (mgr (snd (closeSession now sessionID w))) !! sessionID
                = Some s' /\
       (closed s = 0 -> closed s' = 1) /\ (closed s <> 0 -> s' = s)).
Proof.
  unfold closeSession.
  destruct (objects (mgr w) !! sessionID) as [s|] eqn:Hobj.
  2:{ simpl. repeat split; auto. intros s Hs. discriminate. }
  destruct (Z.eqb_spec (closed s) 0) as [Hopen|Hclosed].
  2:{ simpl. repeat split; auto. intros s0 [= <-]. exists s.
      split; [exact Hobj|]. split; [contradiction|reflexivity]. }
  cbv zeta.
  match goal with |- context [update_session sessionID ?x w] =>
    set (s1 := x) end.
  destruct (VADInstance s1) as [a|] eqn:Hv.
  2:{ simpl. repeat split; auto.
      - intros other Ho. rewrite !lookup_insert_ne by congruence. reflexivity.
      - intros s0 [= <-]. eexists. split; [apply lookup_insert_eq|].
        simpl. split; [reflexivity|contradiction]. }
  destruct (vadPool (update_session sessionID s1 w)) as [pw|] eqn:Hpool.
  2:{ simpl. repeat split; auto.
      - intros other Ho. rewrite !lookup_insert_ne by congruence. reflexivity.
      - intros s0 [= <-]. eexists. split; [apply lookup_insert_eq|].
        simpl. split; [reflexivity|contradiction]. }
  destruct (Pool.Put now (Some a) pw) as [[|] pw']; simpl.
  - repeat split; auto.
    + intros other Ho. rewrite !lookup_insert_ne by congruence. reflexivity.
    + intros s0 [= <-]. eexists. split; [apply lookup_insert_eq|].
      simpl. split; [reflexivity|contradiction].
  - repeat split; auto.
    + intros other Ho. rewrite !lookup_insert_ne by congruence. reflexivity.
    + intros s0 [= <-]. eexists. split; [apply lookup_insert_eq|].
      simpl. split; [reflexivity|contradiction].
Qed.

(** X17. [RemoveSession] returns normally or panics (in the pool's [Put]).
    Once it has returned, the id is not registered: a recognition result that
    arrives later is dropped without a trace, a frame for the id is refused
    with the session-not-found error, and removing it again does nothing.
    For a session whose closed flag is already set -- as the send loop leaves
    it after too many failed writes -- it only takes the id out of the
    registry: the session object and the pool are left as they are, so a VAD
    instance the session holds is not returned. *)
Theorem RemoveSession_effects (now : Time) (sessionID : string) (w : World) :
  let r := RemoveSession now sessionID w in
  (fst r = Return None \/ fst r = Panic) /\
  (fst r = Return None ->
     (sessionID ∉ sessions (mgr (snd r))) /\
     (forall (now_lookup now_stamp : Time) (text : option string),
        handleRecognitionResult now_lookup now_stamp sessionID text (snd r)
          = snd r) /\
     (forall (cfg : Config) (env : ProcessEnv) (audioData : list Byte.byte),
        ProcessAudioData cfg env sessionID audioData (snd r) =
        Some (Return (Some (ErrSessionNotFound sessionID)), snd r)) /\
     (forall now' : Time,
        RemoveSession now' sessionID (snd r) = (Return None, snd r))) /\
  (forall other, other <> sessionID ->
     (other ∈ sessions (mgr (snd r)) <-> other ∈ sessions (mgr w)) /\
     objects (mgr (snd r)) !! other = objects (mgr w) !! other) /\
  (forall s, sessionID ∈ sessions (mgr w) ->
     objects (mgr w) !! sessionID = Some s -> closed s <> 0 ->
     fst r = Return None /\ vadPool (snd r) = vadPool w /\
     objects (mgr (snd r)) = objects (mgr w)).
Proof.
  cbv zeta. unfold RemoveSession.
  destruct (decide (sessionID ∈ sessions (mgr w))) as [Hreg|Hno].
  2:{ simpl. split; [auto|]. split.
      - intros _. split; [exact Hno|]. apply unregistered_inert, Hno.
      - split; [auto|]. intros s Hs. contradiction. }
  destruct (closeSession_frame now sessionID w)
    as (Hout & Hsess & _ & _ & Hothers & Hself).
  assert (Hclosed : forall s, objects (mgr w) !! sessionID = Some s ->
            closed s <> 0 -> closeSession now sessionID w = (Return None, w)).
  { intros s Hobj Hc. unfold closeSession. rewrite Hobj.
    destruct (Z.eqb_spec (closed s) 0); [contradiction|reflexivity]. }
  destruct (closeSession now sessionID w) as [out w1] eqn:Hclose.
  simpl in Hout, Hsess, Hothers.
  destruct Hout as [-> | ->]; simpl.
  - split; [auto|]. split; [|split].
    + intros _.
      assert (Hgone : sessionID ∉ sessions (mgr
                (set_mgr {| objects := objects (mgr w1);
                            sessions := sessions (mgr w1) ∖ {[sessionID]};
                            totalSessions := totalSessions (mgr w1);
                            activeSessions :=
                              GoInt.add64 (activeSessions (mgr w1)) (-1);
                            totalMessages := totalMessages (mgr w1);
                            ctx_done := ctx_done (mgr w1) |} w1))).
      { simpl. rewrite elem_of_difference, elem_of_singleton. tauto. }
      split; [exact Hgone|]. apply unregistered_inert, Hgone.
    + intros other Ho. split; [|apply Hothers, Ho].
      simpl. rewrite elem_of_difference, elem_of_singleton, Hsess. tauto.
    + intros s _ Hobj Hc. specialize (Hclosed s Hobj Hc).
      injection Hclosed as <-. auto.
  - split; [auto|]. split; [discriminate|]. split.
    + intros other Ho. split; [rewrite Hsess; reflexivity|apply Hothers, Ho].
    + intros s _ Hobj Hc. specialize (Hclosed s Hobj Hc). discriminate.
Qed.

End SessionLifecycle.

(** ** Sessions: what a frame, a new session and a shutdown touch *)

Section SessionFrames.
Import Config Session.
Context {V : Pool.Vad}.



End SessionFrames.

Section SessionRegistry.
Import Config Session.
Context {V : Pool.Vad}.

(** X20. [CreateSession] fails without a pool, leaving the manager as it
    is, and panics on a negative queue size.  Otherwise it registers a new
    open session that holds no instance, counts it in [total_sessions] and
    [active_sessions], and leaves the pool and the other sessions alone.
    The number of registered sessions grows only when the id was not yet
    registered: under an id already in use the session object is replaced
    and [active_sessions] grows while [current_sessions] does not. *)
Theorem CreateSession_counts (cfg : Config) (now : Time) (sessionID : string)
    (w : World) :
  match vadPool w with
  | None =>
      CreateSession cfg now sessionID w = Some (Some ErrPoolNotInitialized, w)
  | Some pw =>
      if SendQueueSize cfg <? 0
      then CreateSession cfg now sessionID w = None
      else
        exists w1 s,
          CreateSession cfg now sessionID w = Some (None, w1) /\
          sessionID ∈ sessions (mgr w1) /\
          objects (mgr w1) !! sessionID = Some s /\
          closed s = 0 /\ VADInstance s = None /\ SendQueue s = [] /\
          vadPool w1 = Some pw /\
          total_sessions (GetStats w1) =
            GoInt.add64 (total_sessions (GetStats w)) 1 /\
          active_sessions (GetStats w1) =
            GoInt.add64 (active_sessions (GetStats w)) 1 /\
          total_messages (GetStats w1) = total_messages (GetStats w) /\
          current_sessions (GetStats w1) =
            current_sessions (GetStats w) +
            (if decide (sessionID ∈ sessions (mgr w)) then 0 else 1) /\
          (forall other, other <> sessionID ->
             (other ∈ sessions (mgr w1) <-> other ∈ sessions (mgr w)) /\
             objects (mgr w1) !! other = objects (mgr w) !! other)
  end.
Proof.
  unfold CreateSession. destruct (vadPool w) as [pw|] eqn:Hpool; [|reflexivity].
  destruct (SendQueueSize cfg <? 0); [reflexivity|].
  eexists _, _. split; [reflexivity|]. simpl.
  split; [apply elem_of_union_l, elem_of_singleton; reflexivity|].
  split; [apply lookup_insert_eq|].
  split; [reflexivity|]. split; [reflexivity|]. split; [reflexivity|].
  split; [exact Hpool|].
  split; [reflexivity|]. split; [reflexivity|]. split; [reflexivity|].
  split.
  - destruct (decide (sessionID ∈ sessions (mgr w))) as [Hin|Hout].
    + replace ({[sessionID]} ∪ sessions (mgr w)) with (sessions (mgr w));
        [lia|].
      apply leibniz_equiv. intros x.
      rewrite elem_of_union, elem_of_singleton. split; [tauto|].
      intros [-> | Hx]; assumption.
    + rewrite size_union by (apply disjoint_singleton_l; exact Hout).
      rewrite size_singleton. lia.
  - intros other Hne. split.
    + rewrite elem_of_union, elem_of_singleton. tauto.
    + apply lookup_insert_ne. congruence.
Qed.

Lemma closeSession_ctx_done (now : Time) (sessionID : string) (w : World) :
  ctx_done (mgr (snd (closeSession now sessionID w))) = ctx_done (mgr w) /\
  totalMessages (mgr (snd (closeSession now sessionID w))) =
    totalMessages (mgr w).
Proof.
  unfold closeSession.
  destruct (objects (mgr w) !! sessionID) as [s|]; [|auto].
  destruct (closed s =? 0); [|auto]. cbv zeta.
  match goal with |- context [update_session sessionID ?x w] =>
    set (s1 := x) end.
  destruct (VADInstance s1) as [a|]; [|auto].
  destruct (vadPool (update_session sessionID s1 w)) as [pw|]; [|auto].
  destruct (Pool.Put now (Some a) pw) as [[|] pw']; auto.
Qed.

(** The loop of [Shutdown] over distinct ids. *)
Lemma close_all_frame (now : Time) (ids : list string) :
  forall w : World,
    NoDup ids ->
    let r := close_all now ids w in
    (fst r = Return None \/ fst r = Panic) /\
    sessions (mgr (snd r)) = sessions (mgr w) /\
    activeSessions (mgr (snd r)) = activeSessions (mgr w) /\
    totalSessions (mgr (snd r)) = totalSessions (mgr w) /\
    totalMessages (mgr (snd r)) = totalMessages (mgr w) /\
    ctx_done (mgr (snd r)) = ctx_done (mgr w) /\
    (forall other, other ∉ ids ->
       objects (mgr (snd r)) !! other = objects (mgr w) !! other) /\
    (fst r = Return None ->
     forall sessionID s, sessionID ∈ ids ->
       objects (mgr w) !! sessionID = Some s ->
       exists s', objects (mgr (snd r)) !! sessionID = Some s' /\
         (closed s = 0 -> closed s' = 1) /\ (closed s <> 0 -> s' = s)).
Proof.
  induction ids as [|sessionID rest IH]; intros w Hnd; cbv zeta.
  - simpl. split; [auto|]. do 6 (split; [reflexivity|]).
    intros _ sessionID s Hin. apply elem_of_nil in Hin. contradiction.
  - apply NoDup_cons in Hnd. destruct Hnd as (Hfresh & Hnd).
    destruct (closeSession_frame now sessionID w)
      as (Hout & Hsess & Hact & Htot & Hothers & Hself).
    destruct (closeSession_ctx_done now sessionID w) as (Hctx & Hmsg).
    cbn [close_all].
    destruct (closeSession now sessionID w) as [out w1] eqn:Hclose.
    simpl in Hout, Hsess, Hact, Htot, Hothers, Hself, Hctx, Hmsg.
    destruct Hout as [-> | ->].
    + specialize (IH w1 Hnd). cbv zeta in IH.
      destruct IH as (Hout' & Hs' & Ha' & Ht' & Hm' & Hc' & Ho' & Hclosed').
      split; [exact Hout'|]. split; [congruence|]. split; [congruence|].
      split; [congruence|]. split; [congruence|]. split; [congruence|].
      split.
      * intros other Hno. apply not_elem_of_cons in Hno.
        destruct Hno as (Hne & Hno). rewrite (Ho' other Hno).
        apply Hothers, Hne.
      * intros Hret id s Hin Hobj. apply elem_of_cons in Hin.
        destruct Hin as [-> | Hin].
        -- destruct (Hself s Hobj) as (s' & Hs1 & Hcl).
           exists s'. split; [|exact Hcl].
           rewrite (Ho' sessionID Hfresh). exact Hs1.
        -- apply (Hclosed' Hret id s Hin).
           rewrite Hothers; [exact Hobj|]. intros ->. contradiction.
    + simpl. split; [auto|]. split; [exact Hsess|]. split; [exact Hact|].
      split; [exact Htot|]. split; [exact Hmsg|]. split; [exact Hctx|].
      split; [|discriminate].
      intros other Hno. apply not_elem_of_cons in Hno. apply Hothers, Hno.
Qed.

(** X21. [Shutdown] of the session manager, in whatever order it takes the
    registered sessions: it returns or panics (in the pool's [Put]).  Once
    it has returned, the context is cancelled, no session is registered and
    [current_sessions] is 0, while [active_sessions] still has the value
    from before; every session that was registered and open is closed, a
    session already closed is left as it was, and so are the objects of ids
    that were not registered. *)
Theorem manager_Shutdown (now : Time) (order : list string) (w : World) :
  order ≡ₚ elements (sessions (mgr w)) ->
  let r := Shutdown now order w in
  (fst r = Return None \/ fst r = Panic) /\
  (fst r = Return None ->
   sessions (mgr (snd r)) = ∅ /\
   ctx_done (mgr (snd r)) = true /\
   current_sessions (GetStats (snd r)) = 0 /\
   active_sessions (GetStats (snd r)) = active_sessions (GetStats w) /\
   total_sessions (GetStats (snd r)) = total_sessions (GetStats w) /\
   total_messages (GetStats (snd r)) = total_messages (GetStats w) /\
   (forall sessionID s, sessionID ∈ sessions (mgr w) ->
      objects (mgr w) !! sessionID = Some s ->
      exists s', objects (mgr (snd r)) !! sessionID = Some s' /\
        (closed s = 0 -> closed s' = 1) /\ (closed s <> 0 -> s' = s)) /\
   (forall other, other ∉ sessions (mgr w) ->
      objects (mgr (snd r)) !! other = objects (mgr w) !! other)).
Proof.
  intros Horder. cbv zeta. unfold Shutdown.
  set (w0 := set_mgr _ w).
  assert (Hnd : NoDup order).
  { rewrite Horder. apply NoDup_elements. }
  assert (Hmem : forall x, x ∈ order <-> x ∈ sessions (mgr w)).
  { intros x. rewrite Horder. apply elem_of_elements. }
  pose proof (close_all_frame now order w0 Hnd) as H. cbv zeta in H.
  destruct H as (Hout & Hs & Ha & Ht & Hm & Hc & Ho & Hclosed).
  destruct (close_all now order w0) as [out w1].
  simpl in Hout, Hs, Ha, Ht, Hm, Hc, Ho, Hclosed.
  destruct Hout as [-> | ->]; simpl.
  - split; [auto|]. intros _. split; [reflexivity|]. split; [exact Hc|].
    split; [reflexivity|]. split; [exact Ha|].
    split; [exact Ht|]. split; [exact Hm|]. split.
    + intros id s Hin Hobj. apply (Hclosed eq_refl id s); [|exact Hobj].
      apply Hmem, Hin.
    + intros other Hno. apply Ho. rewrite Hmem. exact Hno.
  - split; [auto|]. discriminate.
Qed.

End SessionRegistry.

(** ** A connection gives back what it took *)

Section ConnectionResources.
Import Config Session Ws.
Context {V : Pool.Vad}.

Lemma set_detector_pool (a : nat) (d : Pool.Detector) (pw : Pool.World) :
  Pool.pool (set_detector a d pw) = Pool.pool pw.
Proof. unfold set_detector. destruct (Pool.heap pw !! a); reflexivity. Qed.

Lemma set_detector_lookup (a : nat) (d : Pool.Detector) (pw : Pool.World)
    (b : nat) :
  Pool.heap (set_detector a d pw) !! b =
  if decide (b = a) then Pool.set_VAD (Some d) <$> Pool.heap pw !! b
  else Pool.heap pw !! b.
Proof.
  unfold set_detector. destruct (decide (b = a)) as [->|Hne].
  - destruct (Pool.heap pw !! a) as [i|] eqn:Hi; [|rewrite Hi; reflexivity].
    simpl. rewrite list_lookup_insert_eq by (eapply lookup_lt_Some; exact Hi).
    reflexivity.
  - destruct (Pool.heap pw !! a) as [i|]; [|reflexivity].
    simpl. apply list_lookup_insert_ne. congruence.
Qed.

(** Giving an instance another detector state keeps the pool in order and
    the number of instances in use. *)
Lemma set_detector_inv (a : nat) (d : Pool.Detector) (pw : Pool.World) :
  Pool.pool_inv pw ->
  Pool.pool_inv (set_detector a d pw) /\
  Pool.in_use_count (Pool.heap (set_detector a d pw)) =
    Pool.in_use_count (Pool.heap pw).
Proof.
  intros Hinv. unfold set_detector.
  destruct (Pool.heap pw !! a) as [i|] eqn:Hi; [|auto].
  assert (Hc : Pool.in_use_count (<[a := Pool.set_VAD (Some d) i]> (Pool.heap pw))
               = Pool.in_use_count (Pool.heap pw)).
  { unfold Pool.in_use_count.
    pose proof (length_filter_insert (fun i => Pool.InUse i = 1) (Pool.heap pw)
                  a i (Pool.set_VAD (Some d) i) Hi) as H.
    simpl in H. destruct (decide (Pool.InUse i = 1)); lia. }
  split; [|exact Hc].
  destruct Hinv as [Hopen Hnd Hidle Hact Hcap Hsize Hpool Hfloor].
  constructor; simpl; try assumption.
  - eapply Forall_impl; [exact Hidle|]. simpl. intros b (x & Hx & H0).
    destruct (decide (b = a)) as [->|Hne].
    + rewrite Hi in Hx. injection Hx as <-.
      exists (Pool.set_VAD (Some d) i).
      rewrite list_lookup_insert_eq by (eapply lookup_lt_Some; exact Hi).
      auto.
    + exists x. rewrite list_lookup_insert_ne by congruence. auto.
  - rewrite Hc. exact Hact.
  - erewrite pooled_insert; [exact Hpool|exact Hi|reflexivity].
  - rewrite Hc. exact Hfloor.
Qed.

(** [Get] on a pool in order: it finishes, does not panic, and an instance
    it hands out is in use and counted. *)
Lemma Get_count (fuel : nat) (env : Pool.GetEnv) (pw : Pool.World) :
  Pool.pool_inv pw ->
  exists (out : Pool.GetOutcome) (pw' : Pool.World),
    Pool.Get (S fuel) env pw = Some (out, pw') /\ Pool.pool_inv pw' /\
    match out with
    | Pool.GetOk a =>
        (exists i, Pool.heap pw' !! a = Some i /\ Pool.InUse i = 1) /\
        Pool.in_use_count (Pool.heap pw') = S (Pool.in_use_count (Pool.heap pw))
    | Pool.GetErr _ => pw' = pw
    | Pool.GetPanic => False
    end.
Proof.
  intros Hinv.
  destruct (Get_inv fuel env pw Hinv) as (out & pw' & Hget & Hinv' & _).
  exists out, pw'. split; [exact Hget|]. split; [exact Hinv'|].
  destruct (Pool.available (Pool.pool pw)) as [|a rest] eqn:Hav.
  - rewrite (Get_empty fuel env pw Hinv Hav) in Hget.
    destruct (Pool.ctx_done (Pool.pool pw)).
    { injection Hget as <- <-. reflexivity. }
    unfold Pool.createNewInstance in Hget.
    destruct (Pool.get_new_vad env) as [vad|]; injection Hget as <- <-;
      [|reflexivity].
    simpl. split.
    + eexists. split; [apply list_lookup_middle; reflexivity|reflexivity].
    + unfold Pool.in_use_count. rewrite length_filter_snoc. simpl. lia.
  - destruct (Get_head fuel env pw a rest Hinv Hav) as (i & Hi & H0 & _ & Hg).
    rewrite Hg in Hget.
    destruct (Pool.ctx_done (Pool.pool pw) && Pool.get_prefer_done env).
    { injection Hget as <- <-. reflexivity. }
    injection Hget as <- <-. simpl. split.
    + eexists. split;
        [apply list_lookup_insert_eq; eapply lookup_lt_Some; exact Hi|].
      reflexivity.
    + eapply in_use_insert_up; [exact Hi|exact H0|reflexivity].
Qed.

(** [Put] of an instance that is in use, on a pool in order. *)
Lemma Put_count (now : Pool.Time) (a : nat) (pw : Pool.World)
    (i : Pool.SileroVADInstance) :
  Pool.pool_inv pw -> Pool.heap pw !! a = Some i -> Pool.InUse i = 1 ->
  fst (Pool.Put now (Some a) pw) = Pool.PutReturn /\
  Pool.pool_inv (snd (Pool.Put now (Some a) pw)) /\
  S (Pool.in_use_count (Pool.heap (snd (Pool.Put now (Some a) pw)))) =
    Pool.in_use_count (Pool.heap pw).
Proof.
  intros Hinv Hi H1.
  destruct (Put_inv now (Some a) pw Hinv) as (Hinv' & _).
  split; [|split; [exact Hinv'|]].
  - unfold Pool.Put. rewrite Hi, H1. simpl. rewrite (Pool.inv_open pw Hinv).
    destruct (Pool.has_room _); reflexivity.
  - unfold Pool.Put. rewrite Hi, H1. simpl. rewrite (Pool.inv_open pw Hinv).
    destruct (Reset_fields (Pool.SetLastUsed now (Pool.set_InUse 0 i)))
      as (_ & Huse1 & _).
    destruct (Destroy_fields
                (Pool.Reset (Pool.SetLastUsed now (Pool.set_InUse 0 i))))
      as (_ & Huse2 & _).
    simpl in Huse1. rewrite Huse1 in Huse2.
    destruct (Pool.has_room _); simpl;
      eapply in_use_insert_down; eassumption.
Qed.

(** [processSileroVAD] changes the detector of the session's instance and
    nothing else of the pool or the manager. *)
Lemma processSileroVAD_pool (cfg : Config) (env : ProcessEnv)
    (session : Session) (sessionID : string) (float32Slice : list F32.t)
    (w : World) (pw : Pool.World) :
  vadPool w = Some pw -> Pool.pool_inv pw ->
  let r := processSileroVAD cfg env session sessionID float32Slice w in
  mgr (snd r) = mgr w /\
  exists pw',
    vadPool (snd r) = Some pw' /\ Pool.pool_inv pw' /\
    Pool.in_use_count (Pool.heap pw') = Pool.in_use_count (Pool.heap pw) /\
    Pool.pool pw' = Pool.pool pw /\
    (forall b i, Pool.heap pw !! b = Some i ->
       exists i', Pool.heap pw' !! b = Some i' /\
                  Pool.InUse i' = Pool.InUse i /\ Pool.ID i' = Pool.ID i) /\
    (forall b, VADInstance session <> Some b ->
       Pool.heap pw' !! b = Pool.heap pw !! b).
Proof.
  intros Hpool Hinv. cbv zeta.
  assert (Hsame : mgr w = mgr w /\
    exists pw', vadPool w = Some pw' /\ Pool.pool_inv pw' /\
      Pool.in_use_count (Pool.heap pw') = Pool.in_use_count (Pool.heap pw) /\
      Pool.pool pw' = Pool.pool pw /\
      (forall b i, Pool.heap pw !! b = Some i ->
         exists i', Pool.heap pw' !! b = Some i' /\
                    Pool.InUse i' = Pool.InUse i /\ Pool.ID i' = Pool.ID i) /\
      (forall b, VADInstance session <> Some b ->
         Pool.heap pw' !! b = Pool.heap pw !! b)).
  { split; [reflexivity|]. exists pw.
    split; [exact Hpool|]. split; [exact Hinv|]. split; [reflexivity|].
    split; [reflexivity|].
    split; [intros b i Hb; exists i; auto|reflexivity]. }
  assert (Hset : forall (a : nat) (d : Pool.Detector),
    VADInstance session = Some a ->
    exists pw', Some (set_detector a d pw) = Some pw' /\ Pool.pool_inv pw' /\
      Pool.in_use_count (Pool.heap pw') = Pool.in_use_count (Pool.heap pw) /\
      Pool.pool pw' = Pool.pool pw /\
      (forall b i, Pool.heap pw !! b = Some i ->
         exists i', Pool.heap pw' !! b = Some i' /\
                    Pool.InUse i' = Pool.InUse i /\ Pool.ID i' = Pool.ID i) /\
      (forall b, VADInstance session <> Some b ->
         Pool.heap pw' !! b = Pool.heap pw !! b)).
  { intros a d Hv. exists (set_detector a d pw).
    destruct (set_detector_inv a d pw Hinv) as (Hinv' & Hc).
    split; [reflexivity|]. split; [exact Hinv'|]. split; [exact Hc|].
    split; [apply set_detector_pool|]. split.
    - intros b i Hb. rewrite set_detector_lookup, Hb.
      destruct (decide (b = a)); simpl; eauto.
    - intros b Hb. rewrite set_detector_lookup.
      destruct (decide (b = a)) as [->|]; [congruence|reflexivity]. }
  unfold processSileroVAD. rewrite Hpool.
  destruct (VADInstance session) as [a|] eqn:Hv; [|exact Hsame].
  destruct (Pool.heap pw !! a) as [inst|]; [|exact Hsame].
  destruct (Pool.VAD inst) as [d|]; [|exact Hsame].
  destruct (pe_vad_timeout env).
  { simpl. split; [reflexivity|]. apply Hset. reflexivity. }
  destruct (drain _ _ _ _) as [[l| | |] remaining]; simpl;
    (split; [reflexivity|]); apply Hset; reflexivity.
Qed.

(** A frame handed to [ProcessAudioData] for a session being served: the
    call finishes and the session is still being served, with the same
    number of instances in use besides its own. *)
Lemma ProcessAudioData_serving (cfg : Config) (env : ProcessEnv)
    (sessionID : string) (audioData : list Byte.byte) (n : nat) (w : World) :
  serving sessionID n w ->
  exists out w',
    ProcessAudioData cfg env sessionID audioData w = Some (out, w') /\
    serving sessionID n w'.
Proof.
  intros (pw & s & Hpool & Hinv & Hreg & Hobj & Hopen & Hheld).
  unfold ProcessAudioData, GetSession.
  destruct (decide (sessionID ∈ sessions (mgr w))) as [_|Hn]; [|contradiction].
  rewrite Hobj. cbv beta iota zeta.
  change (closed (set_LastSeen (pe_now_lookup env) s)) with (closed s).
  rewrite Hopen. change (0 =? 1) with false. cbv iota.
  change (VADInstance (set_LastSeen (pe_now_lookup env) s))
    with (VADInstance s).
  set (s0 := set_LastSeen (pe_now_lookup env) s).
  set (w0 := set_mgr (set_objects (<[sessionID := s0]> (objects (mgr w)))
                        (mgr w)) w).
  assert (Hfinish : forall (session1 : Session) (pw1 : Pool.World) (a : nat),
    VADInstance session1 = Some a -> closed session1 = 0 ->
    Pool.pool_inv pw1 ->
    (exists i, Pool.heap pw1 !! a = Some i /\ Pool.InUse i = 1) ->
    Pool.in_use_count (Pool.heap pw1) = S n ->
    forall w1, vadPool w1 = Some pw1 -> sessions (mgr w1) = sessions (mgr w) ->
    exists out w',
      (let session2 := set_LastSeen (pe_now_seen env) session1 in
       let m := mgr (update_session sessionID session2 w1) in
       let w2 :=
         set_mgr {| objects := objects m; sessions := sessions m;
                    totalSessions := totalSessions m;
                    activeSessions := activeSessions m;
                    totalMessages := GoInt.add64 (totalMessages m) 1;
                    ctx_done := ctx_done m |} w1 in
       let len := Z.of_nat (length audioData) in
       if len =? 0 then Some (Return (Some ErrEmptyAudio), w2)
       else if negb (Z.rem len 2 =? 0)
       then Some (Return (Some (ErrInvalidLength len)), w2)
       else
         let float32Slice := to_float32 (NormalizeFactor cfg) audioData in
         match VADInstance session2 with
         | None => Some (Panic, w2)
         | Some a =>
             if String.eqb Pool.SILERO_TYPE Pool.SILERO_TYPE
             then Some (processSileroVAD cfg env session2 sessionID
                          float32Slice w2)
             else Some (Return (Some (ErrUnsupportedVAD Pool.SILERO_TYPE)),
                        w2)
         end) = Some (out, w') /\
      serving sessionID n w').
  { intros session1 pw1 a Hv Hcl Hinv1 (i & Hi & Hi1) Hcount w1 Hp1 Hs1.
    cbv zeta.
    set (session2 := set_LastSeen (pe_now_seen env) session1).
    set (w2 := set_mgr _ w1).
    assert (Hserv2 : vadPool w2 = Some pw1 /\
                     sessionID ∈ sessions (mgr w2) /\
                     objects (mgr w2) !! sessionID = Some session2).
    { split; [exact Hp1|]. split.
      - simpl. rewrite Hs1. exact Hreg.
      - simpl. apply lookup_insert_eq. }
    destruct Hserv2 as (Hp2 & Hreg2 & Hobj2).
    assert (Hw2 : serving sessionID n w2).
    { exists pw1, session2. split; [exact Hp2|]. split; [exact Hinv1|].
      split; [exact Hreg2|]. split; [exact Hobj2|]. split; [exact Hcl|].
      change (VADInstance session2) with (VADInstance session1). rewrite Hv.
      split; [exists i; auto|exact Hcount]. }
    destruct (Z.of_nat (length audioData) =? 0); [eauto|].
    destruct (negb _); [eauto|].
    change (VADInstance session2) with (VADInstance session1). rewrite Hv.
    change (String.eqb Pool.SILERO_TYPE Pool.SILERO_TYPE) with true. cbv iota.
    destruct (processSileroVAD_pool cfg env session2 sessionID
                (to_float32 (NormalizeFactor cfg) audioData) w2 pw1 Hp2 Hinv1)
      as (Hm & pw3 & Hp3 & Hinv3 & Hc3 & _ & Hkeep & _).
    destruct (processSileroVAD cfg env session2 sessionID
                (to_float32 (NormalizeFactor cfg) audioData) w2)
      as [out w3] eqn:Hr.
    simpl in Hm, Hp3. exists out, w3. split; [reflexivity|].
    exists pw3, session2. split; [exact Hp3|]. split; [exact Hinv3|].
    rewrite Hm. split; [exact Hreg2|]. split; [exact Hobj2|].
    split; [exact Hcl|].
    change (VADInstance session2) with (VADInstance session1). rewrite Hv.
    split.
    - destruct (Hkeep a i Hi) as (i' & Hi' & Huse & _).
      exists i'. split; [exact Hi'|congruence].
    - congruence. }
  destruct (VADInstance s) as [a|] eqn:Hv.
  - destruct Hheld as (Hi & Hcount).
    apply (Hfinish s0 pw a); auto.
  - change (vadPool w0) with (vadPool w). rewrite Hpool.
    destruct (Get_count (length (Pool.available (Pool.pool pw))) (pe_get env)
                pw Hinv) as (out & pw' & Hget & Hinv' & Hout).
    rewrite Hget. destruct out as [a|e|]; [| |contradiction].
    + destruct Hout as (Hi & Hcount).
      apply (Hfinish (set_VADInstance (Some a) s0) pw' a); auto.
      rewrite Hcount, Hheld. reflexivity.
    + subst pw'. eexists _, _. split; [reflexivity|].
      exists pw, s0. split; [reflexivity|]. split; [exact Hinv|].
      split; [exact Hreg|]. split; [apply lookup_insert_eq|].
      split; [exact Hopen|].
      change (VADInstance s0) with (VADInstance s). rewrite Hv. exact Hheld.
Qed.

Lemma send_to_serving (sessionID : string) (msg : Message) (n : nat)
    (w : World) :
  serving sessionID n w -> serving sessionID n (send_to sessionID msg w).
Proof.
  intros (pw & s & Hpool & Hinv & Hreg & Hobj & Hopen & Hheld).
  unfold send_to. rewrite Hobj.
  exists pw, (enqueue msg s). split; [exact Hpool|]. split; [exact Hinv|].
  split; [exact Hreg|]. split; [apply lookup_insert_eq|].
  assert (Hc : closed (enqueue msg s) = closed s /\
               VADInstance (enqueue msg s) = VADInstance s).
  { unfold enqueue. destruct (_ <? _); auto. }
  destruct Hc as (-> & ->). auto.
Qed.

Lemma refresh_deadline_world (cfg : Config) (now : Time) (c : Conn) :
  world (refresh_deadline cfg now c) = world c.
Proof. unfold refresh_deadline. destruct (_ <? _); reflexivity. Qed.

(** One turn of the read loop for a session being served never gets stuck
    and leaves the session being served. *)
Lemma on_message_serving (cfg : Config) (env : FrameEnv) (sessionID : string)
    (message : list Byte.byte) (n : nat) (c : Conn) :
  serving sessionID n (world c) ->
  fst (on_message cfg env sessionID message c) <> Stuck /\
  serving sessionID n (world (snd (on_message cfg env sessionID message c))).
Proof.
  intros Hs. unfold on_message.
  pose proof (refresh_deadline_world cfg (fe_now env) c) as Hw.
  set (c1 := refresh_deadline cfg (fe_now env) c) in *.
  rewrite <- Hw in Hs.
  destruct (_ && _); [simpl; split; [discriminate|exact Hs]|].
  destruct (0 <? _); [|simpl; split; [discriminate|exact Hs]].
  destruct (ProcessAudioData_serving cfg (fe_process env) sessionID message n
              (world c1) Hs) as (out & w' & -> & Hs').
  destruct out as [[err|]| |]; simpl; (split; [discriminate|]);
    try exact Hs'.
  apply send_to_serving. exact Hs'.
Qed.

Lemma read_loop_serving (cfg : Config) (sessionID : string)
    (frames : list (list Byte.byte * FrameEnv)) (n : nat) (c : Conn) :
  serving sessionID n (world c) ->
  (fst (read_loop cfg sessionID frames c) = Break \/
   fst (read_loop cfg sessionID frames c) = Crash) /\
  serving sessionID n (world (snd (read_loop cfg sessionID frames c))).
Proof.
  revert c. induction frames as [|[message env] rest IH]; intros c Hs.
  - simpl. auto.
  - simpl.
    destruct (on_message_serving cfg env sessionID message n c Hs)
      as (Hstuck & Hs').
    destruct (on_message cfg env sessionID message c) as [[| | |] c'];
      simpl in *; auto.
    contradiction.
Qed.

(** [RemoveSession] of a session being served: it returns, the session is
    unregistered, and its instance is back with the pool. *)
Lemma RemoveSession_serving (now : Time) (sessionID : string) (n : nat)
    (w : World) :
  serving sessionID n w ->
  exists w' pw',
    RemoveSession now sessionID w = (Return None, w') /\
    (sessionID ∉ sessions (mgr w')) /\
    (forall other, other <> sessionID ->
       other ∈ sessions (mgr w') <-> other ∈ sessions (mgr w)) /\
    vadPool w' = Some pw' /\ Pool.pool_inv pw' /\
    Pool.in_use_count (Pool.heap pw') = n.
Proof.
  intros (pw & s & Hpool & Hinv & Hreg & Hobj & Hopen & Hheld).
  assert (Hdiff : forall (S0 : gset string),
    (sessionID ∉ S0 ∖ {[sessionID]}) /\
    (forall other, other <> sessionID ->
       other ∈ S0 ∖ {[sessionID]} <-> other ∈ S0)).
  { intros S0. split.
    - rewrite elem_of_difference, elem_of_singleton. tauto.
    - intros other Hne. rewrite elem_of_difference, elem_of_singleton. tauto. }
  unfold RemoveSession.
  destruct (decide (sessionID ∈ sessions (mgr w))) as [_|Hn]; [|contradiction].
  unfold closeSession. rewrite Hobj, Hopen. change (0 =? 0) with true.
  cbv beta iota zeta. simpl VADInstance.
  destruct (VADInstance s) as [a|] eqn:Hv.
  - destruct Hheld as ((i & Hi & Hi1) & Hcount).
    change (vadPool (update_session sessionID _ w)) with (vadPool w).
    rewrite Hpool. cbv iota.
    destruct (Put_count now a pw i Hinv Hi Hi1) as (Hout & Hinv' & Hc).
    destruct (Pool.Put now (Some a) pw) as [out pw'] eqn:Hput.
    simpl in Hout, Hinv', Hc. subst out. cbv iota.
    eexists _, pw'. split; [reflexivity|]. simpl.
    destruct (Hdiff (sessions (mgr w))) as (H1 & H2).
    split; [exact H1|]. split; [exact H2|]. split; [reflexivity|].
    split; [exact Hinv'|]. lia.
  - eexists _, pw. split; [reflexivity|]. simpl.
    destruct (Hdiff (sessions (mgr w))) as (H1 & H2).
    split; [exact H1|]. split; [exact H2|]. split; [exact Hpool|].
    split; [exact Hinv|]. exact Hheld.
Qed.

(** [CreateSession] and the greeting put a session in service. *)
Lemma CreateSession_serving (cfg : Config) (now : Time) (sessionID : string)
    (w : World) (pw : Pool.World) :
  vadPool w = Some pw -> Pool.pool_inv pw -> 0 <= SendQueueSize cfg ->
  exists w1,
    CreateSession cfg now sessionID w = Some (None, w1) /\
    (forall other, other <> sessionID ->
       other ∈ sessions (mgr w1) <-> other ∈ sessions (mgr w)) /\
    serving sessionID (Pool.in_use_count (Pool.heap pw)) w1.
Proof.
  intros Hpool Hinv Hsize. unfold CreateSession. rewrite Hpool.
  destruct (SendQueueSize cfg <? 0) eqn:Hneg; [apply Z.ltb_lt in Hneg; lia|].
  eexists. split; [reflexivity|]. split.
  - intros other Hne. simpl. rewrite elem_of_union, elem_of_singleton. tauto.
  - eexists pw, _. split; [exact Hpool|]. split; [exact Hinv|]. split.
    + simpl. apply elem_of_union_l, elem_of_singleton. reflexivity.
    + split; [simpl; apply lookup_insert_eq|]. simpl. auto.
Qed.

(** X18. A connection served by [HandleWebSocket] on a manager whose pool
    is in order, whatever frames it delivers: the handler finishes (by the
    end of the connection or by a panic of the read loop, never waiting on
    the pool), its session is no longer registered, the pool is still in
    order, and as many instances are in use as before the connection. *)
Theorem connection_releases (cfg : Config) (now : Time) (sessionID : string)
    (frames : list (list Byte.byte * FrameEnv)) (w : World)
    (pw : Pool.World) :
  vadPool w = Some pw -> Pool.pool_inv pw -> 0 <= SendQueueSize cfg ->
  exists ctl c pw',
    HandleWebSocket cfg now sessionID frames w = Some (ctl, c) /\
    (ctl = Break \/ ctl = Crash) /\
    (sessionID ∉ sessions (mgr (world c))) /\
    vadPool (world c) = Some pw' /\ Pool.pool_inv pw' /\
    Pool.in_use_count (Pool.heap pw') = Pool.in_use_count (Pool.heap pw).
Proof.
  intros Hpool Hinv Hsize. unfold HandleWebSocket.
  rewrite refresh_deadline_world. simpl world.
  destruct (CreateSession_serving cfg now sessionID w pw Hpool Hinv Hsize)
    as (w1 & -> & _ & Hs1).
  apply (send_to_serving sessionID (MsgConnection sessionID)) in Hs1.
  set (c0 := {| world := send_to sessionID (MsgConnection sessionID) w1;
                read_deadline := _; processed := [] |}).
  destruct (read_loop_serving cfg sessionID frames _ c0 Hs1) as (Hctl & Hs2).
  destruct (read_loop cfg sessionID frames c0) as [ctl c] eqn:Hloop.
  simpl in Hctl, Hs2.
  destruct (RemoveSession_serving now sessionID _ (world c) Hs2)
    as (w3 & pw3 & Hrm & Hunreg & _ & Hp3 & Hinv3 & Hc3).
  rewrite Hrm.
  destruct Hctl as [-> | ->]; eexists _, _, pw3;
    (split; [reflexivity|]); simpl; auto 7.
Qed.

End ConnectionResources.

(** ** The VAD factory *)

Section VadFactoryProperties.
Import Pool VadFactory.

Lemma register_all_lookup (regs : list (string * VADPoolFactory)) :
  forall f : VADFactory,
    Forall (fun r => r.1 <> SILERO_TYPE) regs ->
    factories (fold_left (fun f r => RegisterFactory r.1 r.2 f) regs f)
      !! SILERO_TYPE = factories f !! SILERO_TYPE.
Proof.
  induction regs as [|[t fac] regs IH]; intros f Hall; [reflexivity|].
  apply Forall_cons in Hall. destruct Hall as (Hne & Hall). simpl in *.
  rewrite IH by exact Hall. simpl. apply lookup_insert_ne. exact Hne.
Qed.

Lemma register_all_dom (regs : list (string * VADPoolFactory)) :
  forall (f : VADFactory) (t : string),
    is_Some (factories
               (fold_left (fun f r => RegisterFactory r.1 r.2 f) regs f)
             !! t) <->
    is_Some (factories f !! t) \/ t ∈ regs.*1.
Proof.
  induction regs as [|[t0 fac] regs IH]; intros f t.
  - simpl. rewrite elem_of_nil. tauto.
  - simpl. rewrite IH, elem_of_cons. simpl.
    destruct (decide (t = t0)) as [->|Hne].
    + rewrite lookup_insert_eq. split; [auto|]. intros _. left. eauto.
    + rewrite lookup_insert_ne by congruence. tauto.
Qed.

(** X22. On a factory made by [NewVADFactory], also after factories for
    other types were registered with it, [CreateVADPool] builds a pool only
    for the provider "silero_vad": every other provider, registered or not,
    gets the unsupported-type error, although [GetSupportedTypes] lists
    it once registered.  The pool for "silero_vad" has the configured size
    and [MaxIdle] 0 and is not initialised -- no instance is built or
    queued; a negative pool size makes the call panic. *)
Theorem CreateVADPool_spec (regs : list (string * VADPoolFactory))
    (g : GlobalConfig) :
  Forall (fun r => r.1 <> SILERO_TYPE) regs ->
  let f := fold_left (fun f r => RegisterFactory r.1 r.2 f) regs NewVADFactory in
  CreateVADPool f g =
    (if String.eqb (VAD_Provider g) SILERO_TYPE then
       if VAD_PoolSize g <? 0 then Panicked
       else Created {| instances := []; available := [];
                       chan_closed := false;
                       config :=
                         {| BufferSizeSeconds :=
                              VAD_SileroVAD_BufferSizeSeconds g;
                            PoolSize := VAD_PoolSize g; MaxIdle := 0 |};
                       totalCreated := 0; totalReused := 0; totalActive := 0;
                       ctx_done := false |}
     else Failed (ErrUnsupported (VAD_Provider g))) /\
  (forall t, t ∈ SupportedTypes f <-> t = SILERO_TYPE \/ t ∈ regs.*1).
Proof.
  intros Hall. cbv zeta. split.
  - unfold CreateVADPool.
    destruct (String.eqb_spec (VAD_Provider g) SILERO_TYPE) as [Heq|Hne].
    + rewrite Heq, (register_all_lookup regs _ Hall).
      unfold NewVADFactory, RegisterFactory. simpl factories.
      rewrite lookup_insert_eq. simpl. unfold NewSileroVADPool. simpl.
      destruct (VAD_PoolSize g <? 0); reflexivity.
    + destruct (factories _ !! VAD_Provider g); reflexivity.
  - intros t. unfold SupportedTypes.
    rewrite list_elem_of_fmap. split.
    + intros ([t' fac] & -> & Hin). apply elem_of_map_to_list in Hin.
      assert (Hsome : is_Some (factories (fold_left
                (fun f r => RegisterFactory r.1 r.2 f) regs NewVADFactory)
                !! t')) by eauto.
      apply register_all_dom in Hsome. destruct Hsome as [Hnew|Hreg]; [|auto].
      left. unfold NewVADFactory, RegisterFactory in Hnew. simpl in Hnew.
      simpl.
      destruct (decide (t' = SILERO_TYPE)) as [->|Hne]; [reflexivity|].
      rewrite lookup_insert_ne, lookup_empty in Hnew by congruence.
      destruct Hnew as (x & Hx). discriminate.
    + intros Ht.
      assert (Hsome : is_Some (factories (fold_left
                (fun f r => RegisterFactory r.1 r.2 f) regs NewVADFactory)
                !! t)).
      { apply register_all_dom. destruct Ht as [-> | Hreg]; [left|auto].
        unfold NewVADFactory, RegisterFactory. simpl factories.
        rewrite lookup_insert_eq. eauto. }
      destruct Hsome as (fac & Hfac). exists (t, fac).
      split; [reflexivity|]. apply elem_of_map_to_list. exact Hfac.
Qed.

End VadFactoryProperties.

(** ** Hot reload: which callbacks run *)

Section HotReloadProperties.
Import HotReload.
Context {Callback : Type}.

Lemma concat_insert_fresh (m : gmap string (list Callback))
    (configKey : string) (l : list Callback) :
  m !! configKey = None ->
  concat (map_to_list (<[configKey := l]> m)).*2 ≡ₚ
  l ++ concat (map_to_list m).*2.
Proof.
  intros Hnone. rewrite (map_to_list_insert m configKey l Hnone). reflexivity.
Qed.

(** One more registration: one more callback started, whatever the key. *)
Lemma executeCallbacks_register (m : HotReloadManager)
    (configKey : string) (callback : Callback) :
  executeCallbacks (RegisterCallback configKey callback m) ≡ₚ
  callback :: executeCallbacks m.
Proof.
  unfold RegisterCallback, executeCallbacks. simpl callbacks.
  destruct (callbacks m !! configKey) as [l|] eqn:Hk; simpl default.
  - rewrite <- (insert_delete_eq (callbacks m) configKey).
    rewrite concat_insert_fresh by apply lookup_delete_eq.
    rewrite <- (map_to_list_delete (callbacks m) configKey l Hk).
    simpl. rewrite <- app_assoc. simpl. symmetry. apply Permutation_middle.
  - rewrite concat_insert_fresh by exact Hk. reflexivity.
Qed.

Lemma register_lookup (regs : list (string * Callback)) :
  forall (m : HotReloadManager) (configKey : string),
    default [] (callbacks
                  (fold_left (fun m r => RegisterCallback r.1 r.2 m) regs m)
                !! configKey) =
    default [] (callbacks m !! configKey) ++
    (filter (fun r => r.1 = configKey) regs).*2.
Proof.
  induction regs as [|[k cb] regs IH]; intros m configKey.
  - simpl. rewrite app_nil_r. reflexivity.
  - simpl fold_left. rewrite IH. simpl callbacks.
    rewrite filter_cons. simpl.
    destruct (decide (k = configKey)) as [->|Hne].
    + rewrite lookup_insert_eq. simpl. rewrite <- app_assoc. reflexivity.
    + rewrite lookup_insert_ne by exact Hne. reflexivity.
Qed.

(** X23. After any sequence of [RegisterCallback] calls on a new manager,
    the callbacks kept under a key are those registered under it, in the
    order of registration; and a change of any one key by [SetConfigValue],
    or a reload of the file, starts every registered callback exactly once
    -- also those registered under other keys -- unless the configuration
    does not unmarshal, in which case none is started. *)
Theorem callbacks_all_run (regs : list (string * Callback)) :
  let m := fold_left (fun m r => RegisterCallback r.1 r.2 m) regs
             NewHotReloadManager in
  (forall configKey,
     default [] (callbacks m !! configKey) =
     (filter (fun r => r.1 = configKey) regs).*2) /\
  executeCallbacks m ≡ₚ regs.*2 /\
  (forall key,
     fst (SetConfigValue key true m) = None /\
     snd (SetConfigValue key true m) ≡ₚ regs.*2 /\
     SetConfigValue key false m = (Some ErrUnmarshal, [])) /\
  reloadConfig true true m ≡ₚ regs.*2 /\
  reloadConfig true false m = [] /\
  (forall unmarshal_ok, reloadConfig false unmarshal_ok m = []).
Proof.
  cbv zeta.
  assert (Hrun : forall (regs : list (string * Callback)) (m : HotReloadManager),
            executeCallbacks
              (fold_left (fun m r => RegisterCallback r.1 r.2 m) regs m)
            ≡ₚ executeCallbacks m ++ regs.*2).
  { clear regs. induction regs as [|[k cb] regs IH]; intros m.
    - simpl. rewrite app_nil_r. reflexivity.
    - simpl. rewrite IH, executeCallbacks_register.
      rewrite <- Permutation_middle. reflexivity. }
  assert (Hall : executeCallbacks
                   (fold_left (fun m r => RegisterCallback r.1 r.2 m) regs
                      NewHotReloadManager) ≡ₚ regs.*2).
  { rewrite Hrun. unfold executeCallbacks, NewHotReloadManager.
    simpl callbacks. rewrite map_to_list_empty. reflexivity. }
  split.
  - intros configKey. rewrite register_lookup. simpl callbacks.
    rewrite lookup_empty. reflexivity.
  - split; [exact Hall|]. split.
    + intros key. simpl. auto.
    + simpl. auto.
Qed.

End HotReloadProperties.

(** ** The read loop: which frames reach the session manager *)

Section ReadLoopFrames.
Import Config Session Ws.
Context {V : Pool.Vad}.

Lemma refresh_deadline_log (cfg : Config) (now : Time) (c : Conn) :
  processed (refresh_deadline cfg now c) = processed c.
Proof. unfold refresh_deadline. destruct (_ <? _); reflexivity. Qed.

(** One turn of the loop: an oversize frame ends the loop unprocessed, an
    empty one is skipped, any other is handed on. *)
Lemma on_message_log (cfg : Config) (env : FrameEnv)
    (sessionID : string) (message : list Byte.byte) (c : Conn) :
  let r := on_message cfg env sessionID message c in
  (oversize cfg message -> fst r = Break /\ processed (snd r) = processed c) /\
  (~ oversize cfg message -> message = [] ->
     fst r = Continue /\ processed (snd r) = processed c) /\
  (~ oversize cfg message -> message <> [] ->
     processed (snd r) = processed c ++ [message]).
Proof.
  cbv zeta. unfold on_message, oversize.
  rewrite refresh_deadline_log.
  destruct (Z.ltb_spec 0 (WsMaxMessageSize cfg));
    destruct (Z.ltb_spec (WsMaxMessageSize cfg) (Z.of_nat (length message)));
    simpl andb; cbv iota.
  1:{ simpl. rewrite refresh_deadline_log.
      split; [auto|]. split; intros Hn; exfalso; apply Hn; auto. }
  all: (split; [intros (? & ?); lia|]).
  all: destruct message as [|b message];
    [simpl; rewrite refresh_deadline_log;
     split; [auto|intros _ Hne; contradiction]|].
  all: change (0 <? Z.of_nat (length (b :: message))) with true; cbv iota.
  all: (split; [intros _ Hnil; discriminate|]); intros _ _.
  all: destruct (ProcessAudioData _ _ _ _ _) as [[[[err|]| |] w']|];
    reflexivity.
Qed.

(** X24. The frames the read loop hands to [ProcessAudioData] are the
    non-empty frames it read, in order, up to the point where it stopped:
    empty frames are skipped, and a frame longer than a positive
    max_message_size ends the loop without being handed on, so no frame
    handed on exceeds the limit and nothing after an oversize frame is
    processed.  If no frame is oversize and the loop ends with the
    connection (not with a panic), every non-empty frame was handed on. *)
Theorem frames_processed (cfg : Config) (sessionID : string)
    (frames : list (list Byte.byte * FrameEnv)) (c : Conn) :
  let r := read_loop cfg sessionID frames c in
  fst r <> Continue /\
  exists l,
    processed (snd r) = processed c ++ l /\
    l `prefix_of` filter (fun m => m <> []) frames.*1 /\
    Forall (fun m => ~ oversize cfg m) l /\
    (forall pre big post,
       frames = pre ++ big :: post -> oversize cfg big.1 ->
       l `prefix_of` filter (fun m => m <> []) pre.*1) /\
    (Forall (fun m => ~ oversize cfg m) frames.*1 -> fst r = Break ->
     l = filter (fun m => m <> []) frames.*1).
Proof.
  cbv zeta. revert c.
  induction frames as [|[message env] rest IH]; intros c.
  - simpl. split; [discriminate|]. exists []. rewrite app_nil_r.
    split; [reflexivity|]. split; [reflexivity|]. split; [constructor|].
    split; [|reflexivity].
    intros pre big post Hf. destruct pre; discriminate.
  - pose proof (on_message_log cfg env sessionID message c) as Hstep.
    cbv zeta in Hstep. destruct Hstep as (Hbig & Hempty & Hproc).
    cbn [read_loop].
    destruct (on_message cfg env sessionID message c) as [ctl c'] eqn:Hon.
    simpl in Hbig, Hempty, Hproc.
    assert (Hdec : oversize cfg message \/ ~ oversize cfg message).
    { unfold oversize. lia. }
    destruct Hdec as [Hover|Hfit].
    + destruct (Hbig Hover) as (-> & Hp). simpl. split; [discriminate|].
      exists []. rewrite app_nil_r. split; [exact Hp|].
      split; [apply prefix_nil|]. split; [constructor|]. split.
      * intros pre big post _ _. apply prefix_nil.
      * intros Hall. apply Forall_cons in Hall. simpl in Hall.
        destruct Hall as (Hno & _). contradiction.
    + assert (Hl : exists l0,
                processed c' = processed c ++ l0 /\
                l0 = filter (fun m => m <> []) [message] /\
                (message = [] -> ctl = Continue)).
      { destruct message as [|b message].
        - destruct (Hempty Hfit eq_refl) as (-> & Hp). exists [].
          rewrite app_nil_r. auto.
        - exists [b :: message]. split; [apply Hproc; [exact Hfit|discriminate]|].
          split; [reflexivity|]. discriminate. }
      destruct Hl as (l0 & Hp & Hl0 & Hcont).
      assert (Hl0fit : Forall (fun m => ~ oversize cfg m) l0).
      { rewrite Hl0. destruct message; [constructor|].
        rewrite filter_cons_True by discriminate. repeat constructor.
        exact Hfit. }
      assert (Hfilter : filter (fun m => m <> []) ((message, env) :: rest).*1
                        = l0 ++ filter (fun m => m <> []) rest.*1).
      { rewrite Hl0. simpl. destruct message as [|b message].
        - rewrite filter_cons_False by auto. reflexivity.
        - rewrite filter_cons_True by discriminate. reflexivity. }
      assert (Hpre : forall pre big post,
                (message, env) :: rest = pre ++ big :: post ->
                oversize cfg big.1 ->
                exists pre', pre = (message, env) :: pre' /\
                             rest = pre' ++ big :: post).
      { intros pre big post Hf Hb. destruct pre as [|p pre].
        - injection Hf as <- _. contradiction.
        - injection Hf as <- ->. eauto. }
      assert (Hstop : ctl <> Continue ->
        ctl <> Continue /\
        exists l,
          processed c' = processed c ++ l /\
          l `prefix_of` filter (fun m => m <> []) ((message, env) :: rest).*1 /\
          Forall (fun m => ~ oversize cfg m) l /\
          (forall pre big post,
             (message, env) :: rest = pre ++ big :: post ->
             oversize cfg big.1 ->
             l `prefix_of` filter (fun m => m <> []) pre.*1) /\
          (Forall (fun m => ~ oversize cfg m) ((message, env) :: rest).*1 ->
           ctl = Break -> l = filter (fun m => m <> []) ((message, env) :: rest).*1)).
      { intros Hne. split; [exact Hne|]. exists l0. split; [exact Hp|].
        split; [rewrite Hfilter; apply prefix_app_r; reflexivity|].
        split; [exact Hl0fit|]. split.
        - intros pre big post Hf Hb.
          destruct (Hpre pre big post Hf Hb) as (pre' & -> & _).
          rewrite fmap_cons. simpl fst.
          replace (filter (fun m => m <> []) (message :: pre'.*1))
            with (l0 ++ filter (fun m => m <> []) pre'.*1).
          + apply prefix_app_r. reflexivity.
          + rewrite Hl0. destruct message as [|b message].
            * rewrite !filter_cons_False by auto. reflexivity.
            * rewrite !filter_cons_True by discriminate. reflexivity.
        - intros _ Hbreak. exfalso.
          (* a frame that fits ends the loop only by a panic *)
          subst ctl. revert Hon. unfold on_message.
          assert (Hnot : (0 <? WsMaxMessageSize cfg) &&
                         (WsMaxMessageSize cfg <? Z.of_nat (length message))
                         = false).
          { unfold oversize in Hfit.
            destruct (Z.ltb_spec 0 (WsMaxMessageSize cfg));
              destruct (Z.ltb_spec (WsMaxMessageSize cfg)
                          (Z.of_nat (length message))); simpl; auto.
            exfalso. apply Hfit. auto. }
          rewrite Hnot.
          destruct (0 <? Z.of_nat (length message)); [|discriminate].
          destruct (ProcessAudioData _ _ _ _ _) as [[[[err|]| |] w']|];
            discriminate. }
      destruct ctl; cbv beta iota; try (apply Hstop; discriminate).
      destruct (IH c') as (Hne & l & Hp' & Hpref & Hfit' & Hcut & Hfull).
      split; [exact Hne|]. exists (l0 ++ l).
      split; [rewrite Hp', Hp, app_assoc; reflexivity|].
      split; [rewrite Hfilter; apply prefix_app; exact Hpref|].
      split; [apply Forall_app; auto|]. split.
      * intros pre big post Hf Hb.
        destruct (Hpre pre big post Hf Hb) as (pre' & -> & Hrest).
        rewrite fmap_cons. simpl fst.
        replace (filter (fun m => m <> []) (message :: pre'.*1))
          with (l0 ++ filter (fun m => m <> []) pre'.*1).
        -- apply prefix_app. apply (Hcut pre' big post Hrest Hb).
        -- rewrite Hl0. destruct message as [|b message].
           ++ rewrite !filter_cons_False by auto. reflexivity.
           ++ rewrite !filter_cons_True by discriminate. reflexivity.
      * intros Hall Hbreak. rewrite Hfilter. f_equal.
        apply Hfull; [|exact Hbreak].
        rewrite fmap_cons in Hall. apply Forall_cons in Hall. tauto.
Qed.

End ReadLoopFrames.

(** ** Examples for the session, connection and factory properties *)

Section SessionExamples.
Import Config Session Ws Fixtures.

Lemma send_error_threshold_witness :
  (forall k : nat,
     (k <= length (SendQueue queued_session))%nat ->
     Z.of_nat k <= MaxSendErrors demo_config + 1 ->
     let r := sendLoop demo_config (repeat false k) queued_session in
     SendQueue (snd r) = drop k (SendQueue queued_session) /\
     sendErrCount (snd r) = Z.of_nat k /\
     (fst r = true <-> Z.of_nat k = MaxSendErrors demo_config + 1) /\
     (closed (snd r) = 1 <-> Z.of_nat k = MaxSendErrors demo_config + 1) /\
     (closed (snd r) = 0 <-> Z.of_nat k <> MaxSendErrors demo_config + 1) /\
     VADInstance (snd r) = VADInstance queued_session /\
     conn_open (snd r) = conn_open queued_session) /\
  (forall j : nat,
     (j < length (SendQueue queued_session))%nat ->
     Z.of_nat j <= MaxSendErrors demo_config ->
     let r := sendLoop demo_config (repeat false j ++ [true]) queued_session in
     fst r = false /\ closed (snd r) = 0 /\ sendErrCount (snd r) = 0 /\
     SendQueue (snd r) = drop (S j) (SendQueue queued_session)).
Proof.
  apply (send_error_threshold demo_config queued_session).
  - simpl. lia.
  - reflexivity.
  - reflexivity.
Defined.

(** Four failed writes close the session of [queued_session]; three
    failures and a success leave it open with one message waiting. *)
Example send_errors_close :
  sendLoop demo_config [false; false; false; false] queued_session =
    (true,
     set_closed 1 (set_sendErrCount 4
       (set_SendQueue [MsgFinal "hello" 5] queued_session))) /\
  sendLoop demo_config [false; false; false; true] queued_session =
    (false,
     set_sendErrCount 0 (set_SendQueue [MsgFinal "hello" 5] queued_session)).
Proof. split; reflexivity. Qed.

Lemma connection_releases_witness :
  exists ctl c (pw' : @Pool.World toy_vad),
    HandleWebSocket demo_config 1 "s1"
      [([Byte.x00; Byte.x00], frame_env 2); ([Byte.x01], frame_env 3)]
      (NewManager (Some pool1)) = Some (ctl, c) /\
    (ctl = Break \/ ctl = Crash) /\
    ("s1" ∉ sessions (mgr (world c))) /\
    vadPool (world c) = Some pw' /\ Pool.pool_inv pw' /\
    Pool.in_use_count (Pool.heap pw') = Pool.in_use_count (Pool.heap pool1).
Proof.
  apply (connection_releases (V := toy_vad) demo_config 1 "s1"
           [([Byte.x00; Byte.x00], frame_env 2); ([Byte.x01], frame_env 3)]
           (NewManager (Some pool1)) pool1).
  - reflexivity.
  - apply (boot_inv (pool_config 1) init_all). reflexivity.
  - simpl. lia.
Defined.

Lemma manager_Shutdown_witness :
  let r := Shutdown 9 (elements (sessions (mgr two_sessions))) two_sessions in
  (fst r = Return None \/ fst r = Panic) /\
  (fst r = Return None ->
   sessions (mgr (snd r)) = ∅ /\
   ctx_done (mgr (snd r)) = true /\
   current_sessions (GetStats (snd r)) = 0 /\
   active_sessions (GetStats (snd r)) = active_sessions (GetStats two_sessions) /\
   total_sessions (GetStats (snd r)) = total_sessions (GetStats two_sessions) /\
   total_messages (GetStats (snd r)) = total_messages (GetStats two_sessions) /\
   (forall sessionID s, sessionID ∈ sessions (mgr two_sessions) ->
      objects (mgr two_sessions) !! sessionID = Some s ->
      exists s', objects (mgr (snd r)) !! sessionID = Some s' /\
        (closed s = 0 -> closed s' = 1) /\ (closed s <> 0 -> s' = s)) /\
   (forall other, other ∉ sessions (mgr two_sessions) ->
      objects (mgr (snd r)) !! other = objects (mgr two_sessions) !! other)).
Proof.
  apply (manager_Shutdown (V := toy_vad) 9
           (elements (sessions (mgr two_sessions))) two_sessions).
  reflexivity.
Defined.

Lemma CreateVADPool_spec_witness :
  let f := fold_left
             (fun f r => VadFactory.RegisterFactory r.1 r.2 f)
             [("ten_vad", VadFactory.SileroVADPoolFactory)]
             VadFactory.NewVADFactory in
  VadFactory.CreateVADPool f silero_global =
    (if String.eqb (VadFactory.VAD_Provider silero_global) Pool.SILERO_TYPE
     then
       if VadFactory.VAD_PoolSize silero_global <? 0 then VadFactory.Panicked
       else VadFactory.Created
              {| Pool.instances := []; Pool.available := [];
                 Pool.chan_closed := false;
                 Pool.config :=
                   {| Pool.BufferSizeSeconds :=
                        VadFactory.VAD_SileroVAD_BufferSizeSeconds
                          silero_global;
                      Pool.PoolSize := VadFactory.VAD_PoolSize silero_global;
                      Pool.MaxIdle := 0 |};
                 Pool.totalCreated := 0; Pool.totalReused := 0;
                 Pool.totalActive := 0; Pool.ctx_done := false |}
     else VadFactory.Failed
            (VadFactory.ErrUnsupported
               (VadFactory.VAD_Provider silero_global))) /\
  (forall t, t ∈ VadFactory.SupportedTypes f <->
             t = Pool.SILERO_TYPE \/
             t ∈ [("ten_vad", VadFactory.SileroVADPoolFactory)].*1).
Proof.
  apply (CreateVADPool_spec [("ten_vad", VadFactory.SileroVADPoolFactory)]
           silero_global).
  repeat constructor. discriminate.
Defined.

(** A factory registered for "ten_vad" is listed and still refused. *)
Example ten_vad_refused :
  let f := VadFactory.RegisterFactory "ten_vad"
             VadFactory.SileroVADPoolFactory VadFactory.NewVADFactory in
  "ten_vad" ∈ VadFactory.SupportedTypes f /\
  VadFactory.CreateVADPool f
    {| VadFactory.VAD_Provider := "ten_vad"; VadFactory.VAD_PoolSize := 2;
       VadFactory.VAD_SileroVAD_BufferSizeSeconds := f32 10 |} =
  VadFactory.Failed (VadFactory.ErrUnsupported "ten_vad").
Proof.
  cbv zeta. split; [|reflexivity].
  unfold VadFactory.SupportedTypes. apply list_elem_of_fmap.
  exists ("ten_vad", VadFactory.SileroVADPoolFactory). split; [reflexivity|].
  apply elem_of_map_to_list. reflexivity.
Qed.

End SessionExamples.
